(** * dhparser: a shallow embedding of the DetectionHistory decoder

    The development follows [dhparser.py].  Python values are embedded as
    follows:
    - a [bytes] object is a list of [byte];
    - a [str] is the list of its Unicode code points;
    - an [int] is a [Z];
    - the binary file object is the list of bytes still to be read together
      with the value of [tell()];
    - the result dictionary is a finite map from [str] keys;
    - an exception is a [Raise]d outcome, and a loop that exhausts its fuel is
      [OutOfFuel]. *)

From Stdlib Require Import ZArith NArith Lia.
From Stdlib Require Import Strings.Byte Strings.Ascii.
From stdpp Require Import base tactics option list gmap strings.

Open Scope Z_scope.

(** ** Python values *)

Abbreviation bytes := (list byte).
Abbreviation pystr := (list N).

Inductive pyval :=
| VStr (s : pystr)
| VInt (z : Z)
| VBytes (b : bytes).

Inductive pyexc :=
| IOError | UnicodeDecodeError | KeyError | IndexError
| TypeError | ValueError | OverflowError.

Inductive outcome (A : Type) :=
| Ok (a : A)
| Raise (e : pyexc)
| OutOfFuel.
Arguments Ok {A} a.
Arguments Raise {A} e.
Arguments OutOfFuel {A}.

Definition bind {A B} (m : outcome A) (k : A → outcome B) : outcome B :=
  match m with
  | Ok a => k a
  | Raise e => Raise e
  | OutOfFuel => OutOfFuel
  end.

Notation "'do' x <- m ; k" := (bind m (fun x => k))
  (at level 10, x pattern, m at level 100, k at level 200).

#[global] Instance byte_eq_dec : EqDecision byte := Byte.byte_eq_dec.

Definition byte_of_N (n : N) : byte := default x00 (Byte.of_N n).
Definition byte_val (b : byte) : Z := Z.of_N (Byte.to_N b).

(** A [str] literal: the code points of an ASCII string. *)
Fixpoint lit (s : string) : pystr :=
  match s with
  | EmptyString => []
  | String c s' => N_of_ascii c :: lit s'
  end.

(** ** binascii.hexlify *)

Definition hex_digit (n : N) : byte :=
  byte_of_N (if (n <? 10)%N then 48 + n else 87 + n)%N.

Definition hexlify (data : bytes) : bytes :=
  flat_map (fun b => [hex_digit (Byte.to_N b / 16); hex_digit (Byte.to_N b mod 16)]) data.

(** ** bytes.decode('utf-8') *)

Definition is_cont (b : byte) : bool :=
  (128 <=? Byte.to_N b)%N && (Byte.to_N b <=? 191)%N.

Definition in_range (lo hi : N) (b : byte) : bool :=
  (lo <=? Byte.to_N b)%N && (Byte.to_N b <=? hi)%N.

Fixpoint decode_utf8 (fuel : nat) (data : bytes) : outcome pystr :=
  match fuel with
  | O => Ok []
  | S fuel' =>
    match data with
    | [] => Ok []
    | b0 :: t =>
      let n0 := Byte.to_N b0 in
      if (n0 <? 128)%N then
        do s <- decode_utf8 fuel' t; Ok (n0 :: s)
      else if in_range 194 223 b0 then
        match t with
        | b1 :: t' =>
          if is_cont b1 then
            do s <- decode_utf8 fuel' t';
            Ok (((n0 - 192) * 64 + (Byte.to_N b1 - 128))%N :: s)
          else Raise UnicodeDecodeError
        | _ => Raise UnicodeDecodeError
        end
      else if in_range 224 239 b0 then
        match t with
        | b1 :: b2 :: t' =>
          let lo := if decide (b0 = xe0) then 160%N else 128%N in
          let hi := if decide (b0 = xed) then 159%N else 191%N in
          if in_range lo hi b1 && is_cont b2 then
            do s <- decode_utf8 fuel' t';
            Ok (((n0 - 224) * 4096 + (Byte.to_N b1 - 128) * 64
                 + (Byte.to_N b2 - 128))%N :: s)
          else Raise UnicodeDecodeError
        | _ => Raise UnicodeDecodeError
        end
      else if in_range 240 244 b0 then
        match t with
        | b1 :: b2 :: b3 :: t' =>
          let lo := if decide (b0 = xf0) then 144%N else 128%N in
          let hi := if decide (b0 = xf4) then 143%N else 191%N in
          if in_range lo hi b1 && is_cont b2 && is_cont b3 then
            do s <- decode_utf8 fuel' t';
            Ok (((n0 - 240) * 262144 + (Byte.to_N b1 - 128) * 4096
                 + (Byte.to_N b2 - 128) * 64 + (Byte.to_N b3 - 128))%N :: s)
          else Raise UnicodeDecodeError
        | _ => Raise UnicodeDecodeError
        end
      else Raise UnicodeDecodeError
    end
  end.

Definition utf8 (data : bytes) : outcome pystr := decode_utf8 (length data) data.

(** ** byte_swap_to_int *)

(** [[hexval[i:i+2] for i in range(0, len(hexval), 2)]] *)
Fixpoint pairs (hexval : bytes) : list bytes :=
  match hexval with
  | a :: b :: t => [a; b] :: pairs t
  | [a] => [[a]]
  | [] => []
  end.

(** [int("0x" + c, 16)] for a one-character string [c] *)
Definition int16 (c : N) : outcome Z :=
  if (48 <=? c)%N && (c <=? 57)%N then Ok (Z.of_N c - 48)
  else if (97 <=? c)%N && (c <=? 102)%N then Ok (Z.of_N c - 87)
  else if (65 <=? c)%N && (c <=? 70)%N then Ok (Z.of_N c - 55)
  else Raise ValueError.

(** [[int("0x"+(hexval[i:i+1].decode('utf-8')),16) for i in range(0, len(hexval), 1)]] *)
Fixpoint nibbles (hexval : bytes) : outcome (list Z) :=
  match hexval with
  | [] => Ok []
  | b :: t =>
    do s <- utf8 [b];
    do d <- match s with [c] => int16 c | _ => Raise ValueError end;
    do ds <- nibbles t;
    Ok (d :: ds)
  end.

(** The [while exponent>=0] loop.  The loop variable is [exponent + 1], a
    natural number, so that the loop is structural: the test fails exactly
    when it reaches zero. *)
Fixpoint weigh (hexval : list Z) (exponent1 : nat) (hex_int : Z) : Z :=
  match exponent1 with
  | O => hex_int
  | S e =>
    let exponent := Z.of_nat e in
    let i := Z.abs ((Z.of_nat (length hexval) - 1) - exponent) in
    weigh hexval e (hex_int + nth (Z.to_nat i) hexval 0 * 16 ^ exponent)
  end.

Definition byte_swap_to_int (hexval : bytes) (str_flag : bool) : outcome pyval :=
  let hex_int := 0 in
  let hexval := pairs hexval in
  let hexval := reverse hexval in
  let hexval := concat hexval in
  if str_flag then do s <- utf8 hexval; Ok (VStr s)
  else
    do hexval <- nibbles hexval;
    Ok (VInt (weigh hexval (length hexval) hex_int)).

(** ** The file object *)

Record file := File { pending : bytes; tell : Z }.

Definition read (n : nat) (f : file) : bytes * file :=
  let got := take n (pending f) in
  (got, File (drop n (pending f)) (tell f + Z.of_nat (length got))).

(** ** Loops *)

Inductive flow (S R : Type) :=
| Continue (s : S)
| Break (s : S)
| Return (r : R).
Arguments Continue {S R} s.
Arguments Break {S R} s.
Arguments Return {S R} r.

(** [while cond: body].  The result is [inl s] when the loop is left through
    its test or a [break], and [inr r] when the body executes [return r]. *)
Fixpoint while {S R} (fuel : nat) (cond : S → bool)
    (body : S → outcome (flow S R)) (s : S) : outcome (S + R) :=
  match fuel with
  | O => OutOfFuel
  | Datatypes.S fuel' =>
    if cond s then
      do fl <- body s;
      match fl with
      | Continue s' => while fuel' cond body s'
      | Break s' => Ok (inl s')
      | Return r => Ok (inr r)
      end
    else Ok (inl s)
  end.

(** ** parse_unmapped_value *)

Definition caution_sequences : list bytes := [[x00]; [x32]; [x24]; [x04]; [x06]].

(** Body of the first [while True] loop; the state is [(chunk, file)]. *)
Definition seek_zero_run (st : bytes * file) : outcome (flow (bytes * file) (pyval * file)) :=
  let '(chunk, f) := st in
  if decide (chunk = [x00]) then
    let '(b, f) := read 1 f in
    let chunk := chunk ++ b in
    if decide (chunk = [x00; x00]) then
      let '(b, f) := read 1 f in
      let chunk := chunk ++ b in
      if decide (chunk = [x00; x00; x00]) then Ok (Break (chunk, f))
      else Ok (Continue (chunk, f))
    else Ok (Continue (chunk, f))
  else
    let '(chunk, f) := read 1 f in
    Ok (Continue (chunk, f)).

(** Body of [while chunk in caution_sequences]; the state is
    [(unmapped_val, chunk, file)]. *)
Definition caution_body (st : bytes * bytes * file)
    : outcome (flow (bytes * bytes * file) (pyval * file)) :=
  let '(unmapped_val, chunk, f) := st in
  let '(next_chunk, f) := read 1 f in
  if decide (next_chunk = [x00]) then Ok (Return (VBytes (hexlify unmapped_val), f))
  else Ok (Continue (unmapped_val, next_chunk, f)).

(** Body of the second [while True] loop. *)
Definition collect_body (fuel : nat) (st : bytes * bytes * file)
    : outcome (flow (bytes * bytes * file) (pyval * file)) :=
  do r <- while fuel (fun st => bool_decide (st.1.2 ∈ caution_sequences)) caution_body st;
  match r with
  | inr ret => Ok (Return ret)
  | inl (unmapped_val, chunk, f) =>
    let unmapped_val := unmapped_val ++ chunk in
    let '(chunk, f) := read 1 f in
    Ok (Continue (unmapped_val, chunk, f))
  end.

Definition parse_unmapped_value (fuel : nat) (f : file) : outcome (pyval * file) :=
  let '(chunk, f) := read 1 f in
  do r <- while fuel (fun _ => true) seek_zero_run (chunk, f);
  match r with
  | inr ret => Ok ret
  | inl (_, f) =>
    let '(unmapped_val, f) := read 3 f in
    let '(chunk, f) := read 1 f in
    do r <- while fuel (fun _ => true) (collect_body fuel) (unmapped_val, chunk, f);
    match r with
    | inr ret => Ok ret
    | inl (_, _, f) => Ok (VInt 0, f)  (* return 0 # should never get to this point *)
    end
  end.

(** ** str helpers *)

Fixpoint starts_with (sub s : pystr) : bool :=
  match sub, s with
  | [], _ => true
  | a :: sub', b :: s' => (a =? b)%N && starts_with sub' s'
  | _ :: _, [] => false
  end.

(** [sub in s] *)
Fixpoint contains (sub s : pystr) : bool :=
  starts_with sub s ||
  match s with
  | [] => false
  | _ :: s' => contains sub s'
  end.

(** [re.sub("\x00", "", s)] *)
Definition strip_nul (s : pystr) : pystr := filter (λ c, c ≠ 0%N) s.

(** ** bytes.decode('windows-1252') *)

Definition cp1252_char (b : byte) : option N :=
  let n := Byte.to_N b in
  if (n <? 128)%N || (160 <=? n)%N then Some n
  else match b with
       | x80 => Some 0x20AC | x82 => Some 0x201A | x83 => Some 0x0192
       | x84 => Some 0x201E | x85 => Some 0x2026 | x86 => Some 0x2020
       | x87 => Some 0x2021 | x88 => Some 0x02C6 | x89 => Some 0x2030
       | x8a => Some 0x0160 | x8b => Some 0x2039 | x8c => Some 0x0152
       | x8e => Some 0x017D | x91 => Some 0x2018 | x92 => Some 0x2019
       | x93 => Some 0x201C | x94 => Some 0x201D | x95 => Some 0x2022
       | x96 => Some 0x2013 | x97 => Some 0x2014 | x98 => Some 0x02DC
       | x99 => Some 0x2122 | x9a => Some 0x0161 | x9b => Some 0x203A
       | x9c => Some 0x0153 | x9e => Some 0x017E | x9f => Some 0x0178
       | _ => None
       end%N.

Fixpoint cp1252 (data : bytes) : outcome pystr :=
  match data with
  | [] => Ok []
  | b :: t =>
    match cp1252_char b with
    | None => Raise UnicodeDecodeError
    | Some c => do s <- cp1252 t; Ok (c :: s)
    end
  end.

(** ** The regular expressions *)

Definition is_digit (c : N) : bool := (48 <=? c)%N && (c <=? 57)%N.
Definition is_ascii_letter (c : N) : bool :=
  ((65 <=? c)%N && (c <=? 90)%N) || ((97 <=? c)%N && (c <=? 122)%N).

(** [\w] on the code points that the windows-1252 codec produces: the ASCII
    letters, digits and underscore, and the letters and numeric characters of
    the upper half of the code page. *)
Definition is_word (c : N) : bool :=
  is_digit c || is_ascii_letter c || (c =? 95)%N
  || bool_decide (c ∈ [0x0192; 0x02C6; 0x0160; 0x0152; 0x017D; 0x0161; 0x0153;
                       0x017E; 0x0178; 0xAA; 0xB2; 0xB3; 0xB5; 0xB9; 0xBA;
                       0xBC; 0xBD; 0xBE]%N)
  || ((0xC0 <=? c)%N && (c <=? 0xFF)%N && negb (c =? 0xD7)%N && negb (c =? 0xF7)%N).

(** [re.sub(r'\W+', '', s)] *)
Definition sub_nonword (s : pystr) : pystr := filter (λ c, is_word c = true) s.

(** [re.sub(r':(?=..(?<!\d:\d\d))|[^a-zA-Z0-9 ](?<!:)', '', s)].  Every match
    is one character long.  A colon is matched by the first alternative only:
    two characters other than a line feed follow it, and the colon is not the
    second character of [\d:\d\d].  Any other character is matched by the
    second alternative when it is not an ASCII letter, digit or space. *)
Fixpoint sub_trailer (prev : option N) (s : pystr) : pystr :=
  match s with
  | [] => []
  | c :: t =>
    let matched :=
      if (c =? 58)%N then
        match t with
        | a :: b :: _ =>
          negb (a =? 10)%N && negb (b =? 10)%N
          && negb (from_option is_digit false prev && is_digit a && is_digit b)
        | _ => false
        end
      else negb (is_digit c || is_ascii_letter c || (c =? 32)%N) in
    if matched then sub_trailer (Some c) t else c :: sub_trailer (Some c) t
  end.

(** ** parse_header_and_guid *)

Definition magic_header : bytes := [x08; x00; x00; x00; x08; x00].

(** One turn of the [while oct_count<=2] loop. *)
Definition flip_octet (guid_oct : list bytes) (oct_count : nat) : list bytes :=
  let oct := guid_oct !!! oct_count in
  let newlist := pairs oct in
  let newlist := reverse newlist in
  <[oct_count := concat newlist]> guid_oct.

Definition parse_header_and_guid (f : file) : outcome (pystr * file) :=
  let '(header, f) := read 6 f in
  if decide (header ≠ magic_header) then Raise IOError
  else
    let '(_, f) := read 18 f in
    let '(g0, f) := read 4 f in
    let '(g1, f) := read 2 f in
    let '(g2, f) := read 2 f in
    let '(g3, f) := read 2 f in
    let '(g4, f) := read 6 f in
    let guid_oct := [hexlify g0; hexlify g1; hexlify g2; hexlify g3; hexlify g4] in
    let guid_oct := foldl flip_octet guid_oct [0%nat; 1%nat; 2%nat] in
    do s0 <- utf8 (guid_oct !!! 0%nat);
    do s1 <- utf8 (guid_oct !!! 1%nat);
    do s2 <- utf8 (guid_oct !!! 2%nat);
    do s3 <- utf8 (guid_oct !!! 3%nat);
    do s4 <- utf8 (guid_oct !!! 4%nat);
    Ok (s0 ++ lit "-" ++ s1 ++ lit "-" ++ s2 ++ lit "-" ++ s3 ++ lit "-" ++ s4, f).

(** ** parse_filetime *)

(** Round the positive rational [num / den] to the nearest integer, ties to
    the even one. *)
Definition round_half_even (num den : Z) : Z :=
  let q := num / den in
  let r := num mod den in
  if 2 * r <? den then q
  else if den <? 2 * r then q + 1
  else if Z.even q then q else q + 1.

(** A finite binary64 number, as mantissa and exponent: [(m, e)] is
    [m * 2^e]. *)
Definition float := (Z * Z)%type.

(** [a / b] on two [int]s: the quotient correctly rounded to binary64.  The
    operands here are a 64-bit tick count and 10, so the quotient is zero or
    within the normal range. *)
Definition true_divide (a b : Z) : float :=
  if a <=? 0 then (0, 0)
  else
    let k := Z.log2 a - Z.log2 b in
    let lg := if (if 0 <=? k then b * 2 ^ k <=? a else b <=? a * 2 ^ (- k))
              then k else k - 1 in
    let e := lg - 52 in
    if 0 <=? e then (round_half_even a (b * 2 ^ e), e)
    else (round_half_even (a * 2 ^ (- e)) b, e).

(** [timedelta(microseconds=x)] for a float [x >= 0]: the number of whole
    microseconds, the fraction being rounded half to even. *)
Definition timedelta_microseconds (x : float) : Z :=
  let '(m, e) := x in
  if 0 <=? e then m * 2 ^ e else round_half_even m (2 ^ (- e)).

Definition DAYS_IN_MONTH : list Z := [-1; 31; 28; 31; 30; 31; 30; 31; 31; 30; 31; 30; 31].
Definition DAYS_BEFORE_MONTH : list Z :=
  [-1; 0; 31; 59; 90; 120; 151; 181; 212; 243; 273; 304; 334].

(** The last step of the datetime module's [_ord2ymd]: month and day from
    the zero-based day of the year [n]. *)
Definition month_day (n : Z) (leapyear : bool) : Z * Z :=
  let month := Z.shiftr (n + 50) 5 in
  let preceding := DAYS_BEFORE_MONTH !!! Z.to_nat month
                   + (if (2 <? month) && leapyear then 1 else 0) in
  let '(month, preceding) :=
    if n <? preceding then
      (month - 1,
       preceding - (DAYS_IN_MONTH !!! Z.to_nat (month - 1)
                    + (if (month - 1 =? 2) && leapyear then 1 else 0)))
    else (month, preceding) in
  (month, n - preceding + 1).

(** The datetime module's conversion of a proleptic Gregorian ordinal
    (day 1 is 0001-01-01) to year, month and day. *)
Definition ord2ymd (n : Z) : Z * Z * Z :=
  let n := n - 1 in
  let n400 := n / 146097 in let n := n mod 146097 in
  let year := n400 * 400 + 1 in
  let n100 := n / 36524 in let n := n mod 36524 in
  let n4 := n / 1461 in let n := n mod 1461 in
  let n1 := n / 365 in let n := n mod 365 in
  let year := year + n100 * 100 + n4 * 4 + n1 in
  if (n1 =? 4) || (n100 =? 4) then (year - 1, 12, 31)
  else
    let leapyear := (n1 =? 3) && (negb (n4 =? 24) || (n100 =? 3)) in
    let '(month, day) := month_day n leapyear in
    (year, month, day).

Definition digit_char (d : Z) : N := (48 + Z.to_N d)%N.
Definition two_digits (n : Z) : pystr := [digit_char (n / 10); digit_char (n mod 10)].
Definition four_digits (n : Z) : pystr :=
  [digit_char (n / 1000); digit_char (n / 100 mod 10);
   digit_char (n / 10 mod 10); digit_char (n mod 10)].

(** [strftime("%m-%d-%Y %H:%M:%S")] of a datetime whose year has four digits *)
Definition strftime (y mo d h mi s : Z) : pystr :=
  two_digits mo ++ lit "-" ++ two_digits d ++ lit "-" ++ four_digits y
  ++ lit " " ++ two_digits h ++ lit ":" ++ two_digits mi ++ lit ":" ++ two_digits s.

Definition EPOCH_ORDINAL : Z := 584389.   (* datetime(1601, 1, 1).toordinal() *)
Definition MAXORDINAL : Z := 3652059.     (* datetime.max.toordinal() *)

(** [(datetime(1601, 1, 1) + timedelta(microseconds=us)).strftime(...)] *)
Definition filetime_string (us : Z) : outcome pystr :=
  let days := us / 86400000000 in
  let seconds := us mod 86400000000 / 1000000 in
  let ordinal := EPOCH_ORDINAL + days in
  if (0 <? ordinal) && (ordinal <=? MAXORDINAL) then
    let '(y, mo, d) := ord2ymd ordinal in
    Ok (strftime y mo d (seconds / 3600) (seconds mod 3600 / 60) (seconds mod 60))
  else Raise OverflowError.

Definition parse_filetime (f : file) : outcome (pystr * file) :=
  let '(_, f) := read 4 f in
  let '(raw, f) := read 8 f in
  let filetime := hexlify raw in
  do r <- byte_swap_to_int filetime false;
  match r with
  | VInt filetime_nanoseconds =>
    let filetime_epoch := timedelta_microseconds (true_divide filetime_nanoseconds 10) in
    do s <- filetime_string filetime_epoch;
    Ok (s, f)
  | _ => Raise TypeError
  end.

(** ** parse_detection_history *)

Abbreviation dict := (gmap pystr pyval).

Inductive mode :=
| KEY_READ_MODE      (* b'\x00' *)
| VALUE_READ_MODE    (* b'\x01' *)
| NULL_DATA_MODE     (* b'\x02' *)
| NO_MODE.           (* b'\xFF', the initial LAST_READ_MODE *)

#[global] Instance mode_eq_dec : EqDecision mode.
Proof. solve_decision. Defined.

(** The local variables of [parse_detection_history] that live across the
    three section loops. *)
Record vars := Vars {
  fobj : file;
  parsed_value_dict : dict;
  CURRENT_MODE : mode;
  LAST_READ_MODE : mode;
  temp_key : pystr;
  CURRENT_EOF_SECTION_KEY : Z;
  MAGIC_VERSION_SECTION : bool;
  GENERAL_SECTION : bool;
  NEAREST_EOF_SECTION : bool
}.

Definition set_fobj (v : vars) (f : file) : vars :=
  Vars f (parsed_value_dict v) (CURRENT_MODE v) (LAST_READ_MODE v) (temp_key v)
    (CURRENT_EOF_SECTION_KEY v) (MAGIC_VERSION_SECTION v) (GENERAL_SECTION v)
    (NEAREST_EOF_SECTION v).
Definition set_dict (v : vars) (d : dict) : vars :=
  Vars (fobj v) d (CURRENT_MODE v) (LAST_READ_MODE v) (temp_key v)
    (CURRENT_EOF_SECTION_KEY v) (MAGIC_VERSION_SECTION v) (GENERAL_SECTION v)
    (NEAREST_EOF_SECTION v).
Definition set_mode (v : vars) (m : mode) : vars :=
  Vars (fobj v) (parsed_value_dict v) m (LAST_READ_MODE v) (temp_key v)
    (CURRENT_EOF_SECTION_KEY v) (MAGIC_VERSION_SECTION v) (GENERAL_SECTION v)
    (NEAREST_EOF_SECTION v).
Definition set_last (v : vars) (m : mode) : vars :=
  Vars (fobj v) (parsed_value_dict v) (CURRENT_MODE v) m (temp_key v)
    (CURRENT_EOF_SECTION_KEY v) (MAGIC_VERSION_SECTION v) (GENERAL_SECTION v)
    (NEAREST_EOF_SECTION v).
Definition set_temp_key (v : vars) (k : pystr) : vars :=
  Vars (fobj v) (parsed_value_dict v) (CURRENT_MODE v) (LAST_READ_MODE v) k
    (CURRENT_EOF_SECTION_KEY v) (MAGIC_VERSION_SECTION v) (GENERAL_SECTION v)
    (NEAREST_EOF_SECTION v).
Definition set_eof_key (v : vars) (i : Z) : vars :=
  Vars (fobj v) (parsed_value_dict v) (CURRENT_MODE v) (LAST_READ_MODE v) (temp_key v)
    i (MAGIC_VERSION_SECTION v) (GENERAL_SECTION v) (NEAREST_EOF_SECTION v).
Definition set_magic (v : vars) (b : bool) : vars :=
  Vars (fobj v) (parsed_value_dict v) (CURRENT_MODE v) (LAST_READ_MODE v) (temp_key v)
    (CURRENT_EOF_SECTION_KEY v) b (GENERAL_SECTION v) (NEAREST_EOF_SECTION v).
Definition set_general (v : vars) (b : bool) : vars :=
  Vars (fobj v) (parsed_value_dict v) (CURRENT_MODE v) (LAST_READ_MODE v) (temp_key v)
    (CURRENT_EOF_SECTION_KEY v) (MAGIC_VERSION_SECTION v) b (NEAREST_EOF_SECTION v).
Definition set_nearest_eof (v : vars) (b : bool) : vars :=
  Vars (fobj v) (parsed_value_dict v) (CURRENT_MODE v) (LAST_READ_MODE v) (temp_key v)
    (CURRENT_EOF_SECTION_KEY v) (MAGIC_VERSION_SECTION v) (GENERAL_SECTION v) b.

(** [d[k]] *)
Definition getitem (d : dict) (k : pystr) : outcome pyval :=
  match d !! k with
  | Some x => Ok x
  | None => Raise KeyError
  end.

(** [re.sub("\x00", "", d[k])] *)
Definition getitem_stripped (d : dict) (k : pystr) : outcome pystr :=
  do x <- getitem d k;
  match x with
  | VStr s => Ok (strip_nul s)
  | _ => Raise TypeError
  end.

(** [d[k] += chunk.decode('windows-1252')]: the item is fetched before the
    right-hand side is evaluated. *)
Definition iadd_decoded (d : dict) (k : pystr) (chunk : bytes) : outcome dict :=
  do x <- getitem d k;
  do s <- cp1252 chunk;
  match x with
  | VStr old => Ok (<[k := VStr (old ++ s)]> d)
  | _ => Raise TypeError
  end.

(** [l[i]] on a list, with Python's negative indices *)
Definition index (l : list pystr) (i : Z) : outcome pystr :=
  let n := Z.of_nat (length l) in
  let j := if i <? 0 then i + n else i in
  if (0 <=? j) && (j <? n) then Ok (l !!! Z.to_nat j) else Raise IndexError.

Definition EOF_SECTION_KEYS : list pystr :=
  [lit "User"; lit "SpawningProcessName"; lit "SecurityGroup"].

(** The text "file" with the section's wide character spacing *)
Definition wide_file : pystr := [102; 0; 105; 0; 108; 0; 101]%N.

(** [byte_swap_to_int(parse_unmapped_value(f))] and its [str_flag] variant *)
Definition unmapped_int (fuel : nat) (f : file) (str_flag : bool) : outcome (pyval * file) :=
  do (r, f) <- parse_unmapped_value fuel f;
  match r with
  | VBytes hexval => do x <- byte_swap_to_int hexval str_flag; Ok (x, f)
  | _ => Raise TypeError
  end.

Definition is_tracking_int (k : pystr) : bool :=
  contains (lit "ThreatTrackingThreatId") k || contains (lit "ThreatTrackingSize") k.

(** Body of [while MAGIC_VERSION_SECTION]. *)
Definition magic_body (v : vars) : outcome (flow vars Empty_set) :=
  let '(chunk, f) := read 2 (fobj v) in
  let v := set_fobj v f in
  if decide (chunk = []) then Ok (Break (set_magic v false))
  else
    match CURRENT_MODE v with
    | KEY_READ_MODE =>
      if decide (chunk = [x3a; x00]) then
        let k := strip_nul (temp_key v) in
        let v := set_temp_key v k in
        let v := set_dict v (<[k := VStr []]> (parsed_value_dict v)) in
        Ok (Continue (set_mode v VALUE_READ_MODE))
      else
        do s <- cp1252 chunk;
        let v := set_temp_key v (temp_key v ++ s) in
        if contains wide_file (temp_key v) then
          let k := strip_nul (temp_key v) in
          let v := set_temp_key v k in
          let v := set_dict v (<[k := VStr []]> (parsed_value_dict v)) in
          let v := set_mode v VALUE_READ_MODE in
          let v := set_magic v false in
          let '(_, f) := read 16 (fobj v) in
          Ok (Continue (set_fobj v f))
        else Ok (Continue v)
    | VALUE_READ_MODE =>
      if decide (chunk = [x00; x00]) then
        let '(next, f) := read 2 (fobj v) in
        let v := set_fobj v f in
        if decide (next = [x00; x00]) then
          do s <- getitem_stripped (parsed_value_dict v) (temp_key v);
          let v := set_dict v (<[temp_key v := VStr s]> (parsed_value_dict v)) in
          let v := set_temp_key v [] in
          Ok (Continue (set_mode v NULL_DATA_MODE))
        else Ok (Continue v)
      else
        do d <- iadd_decoded (parsed_value_dict v) (temp_key v) chunk;
        Ok (Continue (set_dict v d))
    | NULL_DATA_MODE =>
      do v <- (if decide (tell (fobj v) = 242) then
                 do x <- byte_swap_to_int (hexlify chunk) false;
                 Ok (set_dict v (<[lit "ThreatStatusID" := x]> (parsed_value_dict v)))
               else Ok v);
      do s <- cp1252 chunk;
      if 1 <=? Z.of_nat (length (sub_nonword s)) then
        let '(more, f) := read 2 (fobj v) in
        let chunk := chunk ++ more in
        let v := set_fobj v f in
        do s <- cp1252 chunk;
        if 2 <=? Z.of_nat (length (sub_nonword s)) then
          let v := set_temp_key v (temp_key v ++ s) in
          Ok (Continue (set_mode v KEY_READ_MODE))
        else Ok (Continue v)
      else Ok (Continue v)
    | NO_MODE => Ok (Continue v)
    end.

(** The branch of the General section that ends a key ([chunk == b'\x00\x00']
    in [KEY_READ_MODE]). *)
Definition general_end_key (fuel : nat) (v : vars) : outcome vars :=
  let k := strip_nul (temp_key v) in
  let v := set_temp_key v k in
  do v <-
    (if contains (lit "Magic.") (take 6 k) then
       Ok (set_last (set_temp_key v []) VALUE_READ_MODE)
     else if contains (lit "Time") k then
       do (s, f) <- parse_filetime (fobj v);
       let v := set_fobj v f in
       let v := set_dict v (<[k := VStr s]> (parsed_value_dict v)) in
       Ok (set_last (set_temp_key v []) VALUE_READ_MODE)
     else if is_tracking_int k then
       do (x, f) <- unmapped_int fuel (fobj v) false;
       let v := set_fobj v f in
       let v := set_dict v (<[k := x]> (parsed_value_dict v)) in
       Ok (set_last (set_temp_key v []) VALUE_READ_MODE)
     else if contains (lit "ThreatTrackingSigSeq") k then
       do (x, f) <- unmapped_int fuel (fobj v) true;
       match x with
       | VStr s =>
         let v := set_fobj v f in
         let v := set_dict v (<[k := VStr (lit "0x0000" ++ s)]> (parsed_value_dict v)) in
         Ok (set_last (set_temp_key v []) VALUE_READ_MODE)
       | _ => Raise TypeError
       end
     else
       let v := set_dict v (<[k := VStr []]> (parsed_value_dict v)) in
       Ok (set_last v KEY_READ_MODE));
  Ok (set_mode v NULL_DATA_MODE).

(** The branch of the General section that ends a value
    ([chunk == b'\x00\x00'] in [VALUE_READ_MODE]). *)
Definition general_end_value (fuel : nat) (v : vars) : outcome vars :=
  do final_value <- getitem_stripped (parsed_value_dict v) (temp_key v);
  do v <-
    (if contains (lit "Threat") (take 6 final_value)
        || contains (lit "regkey") (take 6 final_value) then
       let v := set_dict v (<[temp_key v := VStr []]> (parsed_value_dict v)) in
       let v := set_dict v (<[final_value := VStr []]> (parsed_value_dict v)) in
       let v := set_temp_key v final_value in
       let v := set_last v KEY_READ_MODE in
       if is_tracking_int (temp_key v) then
         do (x, f) <- unmapped_int fuel (fobj v) false;
         let v := set_fobj v f in
         let v := set_dict v (<[temp_key v := x]> (parsed_value_dict v)) in
         Ok (set_last (set_temp_key v []) VALUE_READ_MODE)
       else Ok v
     else
       let v := set_dict v (<[temp_key v := VStr final_value]> (parsed_value_dict v)) in
       let v := set_last v VALUE_READ_MODE in
       Ok (set_temp_key v []));
  Ok (set_mode v NULL_DATA_MODE).

(** Body of [while GENERAL_SECTION]. *)
Definition general_body (fuel : nat) (v : vars) : outcome (flow vars Empty_set) :=
  let '(chunk, f) := read 2 (fobj v) in
  let v := set_fobj v f in
  if decide (chunk = []) then Ok (Break (set_general v false))
  else if decide (CURRENT_MODE v = NULL_DATA_MODE) then
    do s <- cp1252 chunk;
    if 1 <=? Z.of_nat (length (sub_nonword s)) then
      let '(more, f) := read 2 (fobj v) in
      let chunk := chunk ++ more in
      let v := set_fobj v f in
      do s <- cp1252 chunk;
      if 2 <=? Z.of_nat (length (sub_nonword s)) then
        if decide (LAST_READ_MODE v = KEY_READ_MODE) then
          do d <- iadd_decoded (parsed_value_dict v) (temp_key v) chunk;
          Ok (Continue (set_mode (set_dict v d) VALUE_READ_MODE))
        else
          let v := set_temp_key v (temp_key v ++ s) in
          Ok (Continue (set_mode v KEY_READ_MODE))
      else Ok (Continue v)
    else if decide (chunk = [x0a; x00] ∨ chunk = [x00; x0a]) then
      let '(_, f) := read 2 (fobj v) in
      let '(chunk, f) := read 4 f in
      let v := set_fobj v f in
      if decide (chunk = [x15; x00; x00; x00] ∨ chunk = [x00; x15; x00; x00]) then
        Ok (Continue v)
      else
        let '(_, f) := read 4 (fobj v) in
        Ok (Continue (set_general (set_fobj v f) false))
    else Ok (Continue v)
  else
    if decide (chunk = [x00; x00]) then
      match CURRENT_MODE v with
      | KEY_READ_MODE => do v <- general_end_key fuel v; Ok (Continue v)
      | VALUE_READ_MODE => do v <- general_end_value fuel v; Ok (Continue v)
      | _ => Ok (Continue v)
      end
    else
      match CURRENT_MODE v with
      | KEY_READ_MODE =>
        do s <- cp1252 chunk;
        Ok (Continue (set_temp_key v (temp_key v ++ s)))
      | VALUE_READ_MODE =>
        do d <- iadd_decoded (parsed_value_dict v) (temp_key v) chunk;
        Ok (Continue (set_dict v d))
      | _ => Ok (Continue v)
      end.

(** The guarded part of the Trailer section's NULL_DATA_MODE branch: the
    statements inside [try].  A [UnicodeDecodeError] raised by one of the two
    [decode] calls is caught by the handler, and the loop goes on with what
    had been read so far. *)
Definition eof_null_try (v : vars) (chunk : bytes) : outcome vars :=
  match cp1252 chunk with
  | Ok s =>
    if 1 <=? Z.of_nat (length (sub_nonword s)) then
      let '(more, f) := read 2 (fobj v) in
      let chunk := chunk ++ more in
      let v := set_fobj v f in
      match cp1252 chunk with
      | Ok s =>
        if (2 <=? Z.of_nat (length (sub_trailer None s)))
           && bool_decide (x00 ∈ chunk) then
          let v := set_eof_key v (CURRENT_EOF_SECTION_KEY v + 1) in
          do k <- index EOF_SECTION_KEYS (CURRENT_EOF_SECTION_KEY v);
          let v := set_dict v (<[k := VStr s]> (parsed_value_dict v)) in
          Ok (set_mode v VALUE_READ_MODE)
        else Ok v
      | _ => Ok v
      end
    else Ok v
  | _ => Ok v
  end.

(** Body of [while NEAREST_EOF_SECTION]. *)
Definition eof_body (v : vars) : outcome (flow vars Empty_set) :=
  let '(chunk, f) := read 2 (fobj v) in
  let v := set_fobj v f in
  if decide (chunk = []) then Ok (Break (set_nearest_eof v false))
  else
    match CURRENT_MODE v with
    | NULL_DATA_MODE =>
      if decide (chunk = [x0a; x00] ∨ chunk = [x00; x0a]) then
        let '(_, f) := read 10 (fobj v) in
        Ok (Continue (set_fobj v f))
      else do v <- eof_null_try v chunk; Ok (Continue v)
    | VALUE_READ_MODE =>
      do k <- index EOF_SECTION_KEYS (CURRENT_EOF_SECTION_KEY v);
      if decide (chunk = [x00; x00]) then
        do s <- getitem_stripped (parsed_value_dict v) k;
        let v := set_dict v (<[k := VStr s]> (parsed_value_dict v)) in
        Ok (Continue (set_mode v NULL_DATA_MODE))
      else
        do d <- iadd_decoded (parsed_value_dict v) k chunk;
        Ok (Continue (set_dict v d))
    | _ => Ok (Continue v)
    end.

Definition run_section (fuel : nat) (cond : vars → bool)
    (body : vars → outcome (flow vars Empty_set)) (v : vars) : outcome vars :=
  do r <- while fuel cond body v;
  match r with
  | inl v => Ok v
  | inr e => match e with end
  end.

Definition magic_section (fuel : nat) : vars → outcome vars :=
  run_section fuel MAGIC_VERSION_SECTION magic_body.
Definition general_section (fuel : nat) : vars → outcome vars :=
  run_section fuel GENERAL_SECTION (general_body fuel).
Definition eof_section (fuel : nat) : vars → outcome vars :=
  run_section fuel NEAREST_EOF_SECTION eof_body.

(** [parse_detection_history], on the contents of the file at [filepath].
    The result is the dictionary handed to [json.dump]. *)
Definition parse_detection_history (fuel : nat) (contents : bytes) : outcome dict :=
  let f := File contents 0 in
  do (guid, f) <- parse_header_and_guid f;
  let d : dict := {[ lit "GUID" := VStr guid ]} in
  let '(_, f) := read 8 f in
  let v := Vars f d KEY_READ_MODE NO_MODE [] (-1) true true true in
  do v <- magic_section fuel v;
  do v <- general_section fuel v;
  do v <- eof_section fuel v;
  Ok (parsed_value_dict v).

(** * Reference notions used in the statements *)

(** The unsigned integer whose little-endian encoding is [raw]. *)
Fixpoint le_value (raw : bytes) : Z :=
  match raw with
  | [] => 0
  | b :: t => byte_val b + 256 * le_value t
  end.

(** The little-endian encoding of [n] on [len] bytes. *)
Fixpoint to_le_bytes (len : nat) (n : Z) : bytes :=
  match len with
  | O => []
  | S len' => byte_of_N (Z.to_N (n mod 256)) :: to_le_bytes len' (n / 256)
  end.

(** The value of a big-endian sequence of hexadecimal digits. *)
Fixpoint be_digits (ds : list Z) : Z :=
  match ds with
  | [] => 0
  | d :: t => d * 16 ^ Z.of_nat (length t) + be_digits t
  end.

Definition nibbles_of (b : byte) : list Z := [byte_val b / 16; byte_val b mod 16].

(** The text of a [bytes] object that holds ASCII characters only. *)
Definition ascii_str (data : bytes) : pystr := map Byte.to_N data.

Definition is_lower_hex (c : N) : bool :=
  is_digit c || ((97 <=? c)%N && (c <=? 102)%N).

(** [s] is [n] lowercase hexadecimal digits followed by [t]. *)
Fixpoint hex_run (n : nat) (s : pystr) : option pystr :=
  match n with
  | O => Some s
  | S n' =>
    match s with
    | c :: t => if is_lower_hex c then hex_run n' t else None
    | [] => None
    end
  end.

(** The canonical text of an identifier: lowercase hexadecimal digits in
    groups of 8, 4, 4, 4 and 12, separated by dashes (code point 45). *)
Definition is_canonical_guid (s : pystr) : bool :=
  match hex_run 8 s with
  | Some (45%N :: s1) =>
    match hex_run 4 s1 with
    | Some (45%N :: s2) =>
      match hex_run 4 s2 with
      | Some (45%N :: s3) =>
        match hex_run 4 s3 with
        | Some (45%N :: s4) =>
          match hex_run 12 s4 with
          | Some [] => true
          | _ => false
          end
        | _ => false
        end
      | _ => false
      end
    | _ => false
    end
  | _ => false
  end.

(** The variables with which a loop body hands control back to its loop. *)
Definition flow_vars (fl : flow vars Empty_set) : vars :=
  match fl with
  | Continue v => v
  | Break v => v
  | Return e => match e with end
  end.

(** A synthetic artifact: valid header, identifier region, the wide text
    "file" that closes the Magic/Version section at offset 56 and sends the
    General section to offset 72, zero chunks, and the chunk [05 00] that
    ends at offset 242. *)
Definition artifact_general_242 : bytes :=
  magic_header ++ repeat x00 42
  ++ [x66; x00; x69; x00; x6c; x00; x65; x00] ++ repeat x00 16
  ++ repeat x00 168 ++ [x05; x00].

(** ASCII text in the wide spacing of the artifact: each character is
    followed by a zero byte. *)
Fixpoint wide_text (s : string) : bytes :=
  match s with
  | EmptyString => []
  | String c s' => byte_of_N (N_of_ascii c) :: x00 :: wide_text s'
  end.

(** The start of a synthetic artifact: valid header, identifier region, and
    the wide text "file", which closes the Magic/Version section; the General
    section starts 16 bytes later, at offset 72, in VALUE_READ_MODE. *)
Definition artifact_prefix : bytes :=
  magic_header ++ repeat x00 42 ++ wide_text "file" ++ repeat x00 16.

(** A tracking value: the three zero bytes, the bytes [01 02 03], a caution
    byte and a zero byte. *)
Definition tracking_bytes : bytes := [x00; x00; x00; x01; x02; x03; x32; x00].

(** The name arrives as the value text of the pending field "file". *)
Definition artifact_name_as_value (name : string) : bytes :=
  artifact_prefix ++ wide_text name ++ [x00; x00] ++ tracking_bytes.

(** The name arrives as a key: the pending field "file" is closed first. *)
Definition artifact_name_as_key (name : string) : bytes :=
  artifact_prefix ++ [x00; x00] ++ wide_text name ++ [x00; x00] ++ tracking_bytes.

(** The value that the decoder records under the key [k] for the artifact
    [contents], if any. *)
Definition decoded_field (contents : bytes) (k : pystr) : outcome (option pyval) :=
  do d <- parse_detection_history (length contents) contents;
  Ok (d !! k).

(** The parse mode in which a turn of a section loop leaves the decoder. *)
Definition mode_after (o : outcome (flow vars Empty_set)) : option mode :=
  match o with
  | Ok fl => Some (CURRENT_MODE (flow_vars fl))
  | _ => None
  end.

(** The decoder between two fields, about to read [window], in the General
    section and in the Trailer section. *)
Definition scanning_general (window : bytes) : vars :=
  Vars (File window 300) ∅ NULL_DATA_MODE VALUE_READ_MODE [] (-1) false true true.
Definition scanning_trailer (window : bytes) : vars :=
  Vars (File window 300) ∅ NULL_DATA_MODE VALUE_READ_MODE [] (-1) false false true.

(** The proleptic Gregorian calendar. *)
Definition is_leap (y : Z) : bool :=
  (y mod 4 =? 0) && (negb (y mod 100 =? 0) || (y mod 400 =? 0)).

Definition days_before_year (y : Z) : Z :=
  (y - 1) * 365 + (y - 1) / 4 - (y - 1) / 100 + (y - 1) / 400.

Definition days_in_month (leap : bool) (m : Z) : Z :=
  if m =? 2 then (if leap then 29 else 28)
  else if (m =? 4) || (m =? 6) || (m =? 9) || (m =? 11) then 30 else 31.

Fixpoint days_before_month_upto (leap : bool) (m : nat) : Z :=
  match m with
  | O => 0
  | S m' => days_before_month_upto leap m' + days_in_month leap (Z.of_nat m)
  end.

(** The number of days from 0001-01-01 to the date, counting both. *)
Definition ymd2ord (y m d : Z) : Z :=
  days_before_year y + days_before_month_upto (is_leap y) (Z.to_nat (m - 1)) + d.

(** The number of whole seconds from 1601-01-01 00:00:00 to a date and time
    of day. *)
Definition seconds_since_1601 (y mo d h mi s : Z) : Z :=
  (ymd2ord y mo d - ymd2ord 1601 1 1) * 86400 + h * 3600 + mi * 60 + s.

(** Reading back a number written with [n] decimal digits. *)
Fixpoint read_digits (n : nat) (acc : Z) (s : pystr) : option (Z * pystr) :=
  match n with
  | O => Some (acc, s)
  | S n' =>
    match s with
    | c :: t => if is_digit c then read_digits n' (acc * 10 + (Z.of_N c - 48)) t else None
    | [] => None
    end
  end.

Definition expect (c : N) (s : pystr) : option pystr :=
  match s with
  | c' :: t => if (c =? c')%N then Some t else None
  | [] => None
  end.

(** The fields (year, month, day, hour, minute, second) of a text of the
    form MM-DD-YYYY HH:MM:SS. *)
Definition timestamp_fields (s : pystr) : option (Z * Z * Z * Z * Z * Z) :=
  '(mo, s) ← read_digits 2 0 s; s ← expect 45 s;
  '(d, s) ← read_digits 2 0 s; s ← expect 45 s;
  '(y, s) ← read_digits 4 0 s; s ← expect 32 s;
  '(h, s) ← read_digits 2 0 s; s ← expect 58 s;
  '(mi, s) ← read_digits 2 0 s; s ← expect 58 s;
  '(sec, s) ← read_digits 2 0 s;
  match s with
  | [] => Some (y, mo, d, h, mi, sec)
  | _ => None
  end.

(** The first number of microseconds that takes [datetime(1601, 1, 1)] past
    [datetime.max]. *)
Definition MAX_MICROSECONDS : Z := (MAXORDINAL - EPOCH_ORDINAL + 1) * 86400000000.

(** The check that [month_day] is right for the [k]-th day of a year. *)
Definition month_day_ok (leap : bool) (k : nat) : bool :=
  let '(m, d) := month_day (Z.of_nat k) leap in
  (1 <=? m) && (m <=? 12) && (1 <=? d) && (d <=? days_in_month leap m)
  && (days_before_month_upto leap (Z.to_nat (m - 1)) + d =? Z.of_nat k + 1).

(** The whole microseconds that [parse_filetime] obtains from the eight
    bytes of a tick count: [timedelta(microseconds=float(ticks/10))]. *)
Definition filetime_microseconds (raw : bytes) : Z :=
  timedelta_microseconds (true_divide (le_value raw) 10).

(** What one turn of the Trailer loop keeps true: keys are only added from
    the positional list, and the positional index only grows, up to 2. *)
Definition eof_inv (D : gset pystr) (i0 : Z) (v : vars) : Prop :=
  dom (parsed_value_dict v) ⊆ D ∪ list_to_set EOF_SECTION_KEYS
  ∧ i0 ≤ CURRENT_EOF_SECTION_KEY v ≤ Z.max i0 2.

(** * Further notions used in the statements *)

(** A hexadecimal digit of either case: the class [[0-9a-fA-F]]. *)
Definition is_hex_char (c : N) : bool :=
  is_digit c || ((97 <=? c)%N && (c <=? 102)%N) || ((65 <=? c)%N && (c <=? 70)%N).

Definition is_hex_byte (b : byte) : bool := is_hex_char (Byte.to_N b).

(** The number that the text [s] denotes in base 16, if it is made of
    hexadecimal digits. *)
Definition hex_text_value (s : pystr) : option Z :=
  foldl (λ acc c, a ← acc; match int16 c with Ok d => Some (a * 16 + d) | _ => None end)
        (Some 0) s.

(** [b] is one of the bytes of [caution_sequences]. *)
Definition is_caution (b : byte) : bool := bool_decide ([b] ∈ caution_sequences).

(** The file object [f'] is [f] after some bytes have been read from it. *)
Definition advanced (f f' : file) : Prop :=
  ∃ c, pending f = c ++ pending f' ∧ tell f' = tell f + Z.of_nat (length c).

(** The part of [parse_unmapped_value] that follows the first loop. *)
Definition collect_value (fuel : nat) (f : file) : outcome (pyval * file) :=
  let '(unmapped_val, f) := read 3 f in
  let '(chunk, f) := read 1 f in
  do r <- while fuel (λ _, true) (collect_body fuel) (unmapped_val, chunk, f);
  match r with
  | inr ret => Ok ret
  | inl (_, _, f) => Ok (VInt 0, f)
  end.

(** The state of the second loop of the scanner: the value accumulated so
    far is up to three initial bytes followed by bytes that are not caution
    bytes, and an initial run shorter than three bytes means that the stream
    is exhausted. *)
Definition collecting (st : bytes * bytes * file) : Prop :=
  let '(acc, chunk, f) := st in
  ∃ first tail, acc = first ++ tail ∧ (length first ≤ 3)%nat
    ∧ Forall (λ y, is_caution y = false) tail ∧ (length chunk ≤ 1)%nat
    ∧ ((length first < 3)%nat → pending f = [] ∧ chunk = []).

(** One turn of a section loop that starts by reading [chunk]: the cursor
    has moved forward from where it stood after that read, no key has been
    removed, and the loop goes on only if the chunk was not empty. *)
Definition turn_ok (v : vars) (fl : flow vars Empty_set) : Prop :=
  ∃ chunk f1, read 2 (fobj v) = (chunk, f1)
    ∧ advanced f1 (fobj (flow_vars fl))
    ∧ dom (parsed_value_dict v) ⊆ dom (parsed_value_dict (flow_vars fl))
    ∧ (∀ v', fl = Continue v' → chunk ≠ []).

(** What a section pass keeps from the variables [v0] it starts with. *)
Definition pass_ok (v0 v : vars) : Prop :=
  advanced (fobj v0) (fobj v) ∧ dom (parsed_value_dict v0) ⊆ dom (parsed_value_dict v).

(** The bytes that the windows-1252 codec does not define. *)
Definition undecodable (b : byte) : bool := bool_decide (b ∈ [x81; x8d; x8f; x90; x9d]).

(** An ASCII character other than NUL. *)
Definition ascii_byte (b : byte) : bool :=
  (0 <? Byte.to_N b)%N && (Byte.to_N b <? 128)%N.

(** An ASCII letter or digit. *)
Definition alnum_byte (b : byte) : bool :=
  is_digit (Byte.to_N b) || is_ascii_letter (Byte.to_N b).

(** Text in the wide spacing of the artifact, as bytes and as decoded text. *)
Definition wide (t : bytes) : bytes := flat_map (λ b, [b; x00]) t.
Definition wide_str (t : bytes) : pystr := flat_map (λ b, [Byte.to_N b; 0%N]) t.



(** * The file-name filter of [main] *)

(** The fragment of [re] patterns that [main] uses: a character class, a
    literal character, concatenation and [{n}] repetition.  Such a pattern
    matches texts of one length only, so [re.match] has a single way through
    it and there is nothing to backtrack over. *)
Inductive regex : Type :=
  | Class (p : N → bool)
  | Char (c : N)
  | Cat (r1 r2 : regex)
  | Times (n : nat) (r : regex).

(** [re.match(r, s)]: the pattern is tried at the start of [s] only; the
    result is what is left of [s] after the match, [None] when there is no
    match. *)
Fixpoint re_match (r : regex) (s : pystr) : option pystr :=
  match r with
  | Class p =>
    match s with
    | c :: t => if p c then Some t else None
    | [] => None
    end
  | Char c =>
    match s with
    | c' :: t => if (c =? c')%N then Some t else None
    | [] => None
    end
  | Cat r1 r2 =>
    match re_match r1 s with
    | Some t => re_match r2 t
    | None => None
    end
  | Times n r =>
    (fix times (n : nat) (s : pystr) : option pystr :=
       match n with
       | O => Some s
       | S n =>
         match re_match r s with
         | Some t => times n t
         | None => None
         end
       end) n s
  end.

(** [r'[0-9a-fA-F]{8}(-[0-9a-fA-F]{4}){3}-[0-9a-fA-F]{12}'] *)
Definition NAME_PATTERN : regex :=
  Cat (Times 8 (Class is_hex_char))
    (Cat (Times 3 (Cat (Char 45) (Times 4 (Class is_hex_char))))
       (Cat (Char 45) (Times 12 (Class is_hex_char)))).

(** Whether the directory walk of [main] appends the file called [name] to
    [list_files]. *)
Definition selected (greedy : bool) (name : pystr) : bool :=
  if negb (contains (lit ".") name) && greedy then true
  else if negb (contains (lit ".") name)
          && bool_decide (is_Some (re_match NAME_PATTERN name)) then true
  else false.

(** [s] is [n] hexadecimal digits of either case. *)
Definition hex_group (n : nat) (s : pystr) : Prop :=
  length s = n ∧ Forall (λ c, is_hex_char c = true) s.

(** * Properties *)

(** ** The file object *)

Lemma read_app (n : nat) (a rest : bytes) (pos : Z) :
  length a = n →
  read n (File (a ++ rest) pos) = (a, File rest (pos + Z.of_nat n)).
Proof.
  intros <-. unfold read; simpl.
  rewrite take_app_length, drop_app_length. reflexivity.
Qed.

Lemma read_eof (n : nat) (pos : Z) : read n (File [] pos) = ([], File [] pos).
Proof.
  unfold read; simpl. rewrite take_nil, drop_nil. simpl.
  rewrite Z.add_0_r. reflexivity.
Qed.

(** ** hexlify and byte_swap_to_int *)

Lemma pairs_hexlify (raw : bytes) :
  pairs (hexlify raw)
  = map (λ b, [hex_digit (Byte.to_N b / 16); hex_digit (Byte.to_N b mod 16)]) raw.
Proof. induction raw as [|b t IH]; simpl; [reflexivity | now rewrite <- IH]. Qed.

Lemma swap_hexlify (raw : bytes) :
  concat (reverse (pairs (hexlify raw))) = hexlify (reverse raw).
Proof.
  rewrite pairs_hexlify. unfold hexlify.
  rewrite flat_map_concat_map. f_equal.
  induction raw as [|b t IH]; [reflexivity|].
  simpl. rewrite !reverse_cons, map_app, IH. reflexivity.
Qed.

Lemma hex_digit_ascii (b : byte) :
  (Byte.to_N (hex_digit (Byte.to_N b / 16)) <? 128)%N = true
  ∧ (Byte.to_N (hex_digit (Byte.to_N b mod 16)) <? 128)%N = true.
Proof. destruct b; split; reflexivity. Qed.

Lemma hex_digit_lower (b : byte) :
  is_lower_hex (Byte.to_N (hex_digit (Byte.to_N b / 16))) = true
  ∧ is_lower_hex (Byte.to_N (hex_digit (Byte.to_N b mod 16))) = true.
Proof. destruct b; split; reflexivity. Qed.

Lemma decode_utf8_hexlify (raw : bytes) (fuel : nat) :
  (length (hexlify raw) ≤ fuel)%nat →
  decode_utf8 fuel (hexlify raw) = Ok (ascii_str (hexlify raw)).
Proof.
  revert fuel. induction raw as [|b t IH]; intros fuel Hf.
  - destruct fuel; reflexivity.
  - destruct (hex_digit_ascii b) as [Hhi Hlo].
    change (hexlify (b :: t))
      with (hex_digit (Byte.to_N b / 16) :: hex_digit (Byte.to_N b mod 16) :: hexlify t) in *.
    simpl in Hf.
    destruct fuel as [|[|fuel]]; [lia | lia |].
    cbn [decode_utf8]. rewrite Hhi, Hlo, IH by lia. reflexivity.
Qed.

Lemma utf8_hexlify (raw : bytes) : utf8 (hexlify raw) = Ok (ascii_str (hexlify raw)).
Proof. apply decode_utf8_hexlify. reflexivity. Qed.

Lemma nibbles_hexlify (raw : bytes) :
  nibbles (hexlify raw) = Ok (flat_map nibbles_of raw).
Proof.
  induction raw as [|b t IH]; [reflexivity|].
  change (hexlify (b :: t))
    with (hex_digit (Byte.to_N b / 16) :: hex_digit (Byte.to_N b mod 16) :: hexlify t).
  cbn [nibbles]. rewrite IH.
  destruct b; reflexivity.
Qed.

Lemma weigh_suffix (suf pre : list Z) (acc : Z) :
  weigh (pre ++ suf) (length suf) acc = acc + be_digits suf.
Proof.
  revert pre acc. induction suf as [|d t IH]; intros pre acc.
  - simpl. lia.
  - cbn [length weigh be_digits].
    replace (Z.abs (Z.of_nat (length (pre ++ d :: t)) - 1 - Z.of_nat (length t)))
      with (Z.of_nat (length pre)).
    2:{ rewrite length_app. simpl. lia. }
    rewrite Nat2Z.id.
    replace (nth (length pre) (pre ++ d :: t) 0) with d.
    2:{ rewrite app_nth2 by lia. now rewrite Nat.sub_diag. }
    replace (pre ++ d :: t) with ((pre ++ [d]) ++ t) by now rewrite <- app_assoc.
    rewrite IH. lia.
Qed.

Lemma weigh_all (ds : list Z) : weigh ds (length ds) 0 = be_digits ds.
Proof. apply (weigh_suffix ds [] 0). Qed.

Lemma be_digits_app (a b : list Z) :
  be_digits (a ++ b) = be_digits a * 16 ^ Z.of_nat (length b) + be_digits b.
Proof.
  induction a as [|d t IH]; simpl; [lia|].
  rewrite IH, length_app, Nat2Z.inj_add, Z.pow_add_r by lia. lia.
Qed.

Lemma be_digits_reverse (raw : bytes) :
  be_digits (flat_map nibbles_of (reverse raw)) = le_value raw.
Proof.
  induction raw as [|b t IH]; [reflexivity|].
  rewrite reverse_cons, flat_map_app, be_digits_app, IH.
  cbn [flat_map nibbles_of app length be_digits le_value].
  change (16 ^ Z.of_nat 2) with 256. change (16 ^ Z.of_nat 1) with 16.
  change (16 ^ Z.of_nat 0) with 1.
  pose proof (Z.div_mod (byte_val b) 16). lia.
Qed.

Lemma byte_val_range (b : byte) : 0 ≤ byte_val b < 256.
Proof.
  unfold byte_val. pose proof (Byte.to_N_bounded b). lia.
Qed.

Lemma byte_of_val (b : byte) : byte_of_N (Z.to_N (byte_val b)) = b.
Proof.
  unfold byte_val, byte_of_N. rewrite N2Z.id, Byte.of_to_N. reflexivity.
Qed.

Lemma le_value_range (raw : bytes) : 0 ≤ le_value raw < 256 ^ Z.of_nat (length raw).
Proof.
  induction raw as [|b t IH]; [simpl; lia|].
  cbn [le_value length]. rewrite Nat2Z.inj_succ, Z.pow_succ_r by lia.
  pose proof (byte_val_range b). lia.
Qed.

Lemma to_le_bytes_value (raw : bytes) : to_le_bytes (length raw) (le_value raw) = raw.
Proof.
  induction raw as [|b t IH]; [reflexivity|].
  cbn [length to_le_bytes le_value].
  pose proof (byte_val_range b).
  replace ((byte_val b + 256 * le_value t) mod 256) with (byte_val b).
  2:{ apply Z.mod_unique with (q := le_value t); lia. }
  replace ((byte_val b + 256 * le_value t) / 256) with (le_value t).
  2:{ apply Z.div_unique with (r := byte_val b); lia. }
  rewrite byte_of_val, IH. reflexivity.
Qed.

Lemma byte_swap_to_int_hexlify (raw : bytes) :
  byte_swap_to_int (hexlify raw) false = Ok (VInt (le_value raw)).
Proof.
  unfold byte_swap_to_int. rewrite swap_hexlify, nibbles_hexlify. simpl.
  rewrite weigh_all, be_digits_reverse. reflexivity.
Qed.

(** C7.  For every 8-byte input [raw], [byte_swap_to_int] applied to the hex
    representation of [raw] returns an unsigned 64-bit integer, namely the
    one whose little-endian encoding on 8 bytes is [raw]: encoding the result
    again gives back the input. *)
Theorem byte_swap_to_int_roundtrip (raw : bytes) :
  length raw = 8%nat →
  ∃ n, byte_swap_to_int (hexlify raw) false = Ok (VInt n)
       ∧ 0 ≤ n < 2 ^ 64
       ∧ n = le_value raw
       ∧ to_le_bytes 8 n = raw.
Proof.
  intros Hlen. exists (le_value raw).
  split; [apply byte_swap_to_int_hexlify|].
  split; [|split; [reflexivity|]].
  - pose proof (le_value_range raw) as H. rewrite Hlen in H. exact H.
  - rewrite <- Hlen. apply to_le_bytes_value.
Qed.

Lemma byte_swap_to_int_roundtrip_witness :
  ∃ n, byte_swap_to_int (hexlify [x80; x96; x98; x00; x00; x00; x00; x00]) false
       = Ok (VInt n)
       ∧ 0 ≤ n < 2 ^ 64
       ∧ n = le_value [x80; x96; x98; x00; x00; x00; x00; x00]
       ∧ to_le_bytes 8 n = [x80; x96; x98; x00; x00; x00; x00; x00].
Proof.
  apply (byte_swap_to_int_roundtrip [x80; x96; x98; x00; x00; x00; x00; x00]).
  reflexivity.
Defined.

(** ** Loops *)

Lemma while_stuck {S R} (cond : S → bool) (body : S → outcome (flow S R)) (s : S) :
  cond s = true → body s = Ok (Continue s) →
  ∀ fuel, while fuel cond body s = OutOfFuel.
Proof.
  intros Hc Hb fuel. induction fuel as [|fuel IH]; [reflexivity|].
  simpl. rewrite Hc, Hb. exact IH.
Qed.

Lemma while_left {S R} (body : S → outcome (flow S R)) (fuel : nat) (s s' : S)
    (cond : S → bool) :
  while fuel cond body s = Ok (inl s') →
  cond s' = false ∨ ∃ s0, body s0 = Ok (Break s').
Proof.
  revert s. induction fuel as [|fuel IH]; intros s; simpl; [discriminate|].
  destruct (cond s) eqn:Hc.
  - destruct (body s) as [[s1|s1|r]| |] eqn:Hb; simpl; try discriminate.
    + apply IH.
    + intros [= <-]. right. exists s. exact Hb.
  - intros [= <-]. left. exact Hc.
Qed.

Lemma while_returned {S R} (body : S → outcome (flow S R)) (fuel : nat) (s : S)
    (r : R) (cond : S → bool) :
  while fuel cond body s = Ok (inr r) → ∃ s0, body s0 = Ok (Return r).
Proof.
  revert s. induction fuel as [|fuel IH]; intros s; simpl; [discriminate|].
  destruct (cond s); [|discriminate].
  destruct (body s) as [[s1|s1|r1]| |] eqn:Hb; simpl; try discriminate.
  - apply IH.
  - intros [= <-]. exists s. exact Hb.
Qed.

Lemma while_no_raise {S R} (body : S → outcome (flow S R)) (cond : S → bool)
    (P : pyexc → Prop) :
  (∀ s e, body s = Raise e → P e) →
  ∀ fuel s e, while fuel cond body s = Raise e → P e.
Proof.
  intros Hb fuel. induction fuel as [|fuel IH]; intros s e; simpl; [discriminate|].
  destruct (cond s); [|discriminate].
  destruct (body s) as [[s1|s1|r1]| |] eqn:Hs; simpl; try discriminate.
  - apply IH.
  - intros [= <-]. apply (Hb s). exact Hs.
Qed.

(** ** parse_unmapped_value *)

Lemma seek_zero_run_flow (st : bytes * file) :
  (∃ st', seek_zero_run st = Ok (Continue st'))
  ∨ (∃ st', seek_zero_run st = Ok (Break st')).
Proof.
  destruct st as [chunk f]. unfold seek_zero_run.
  repeat (case_decide || destruct (read 1 _)); eauto.
Qed.

Lemma caution_body_returned (st : bytes * bytes * file) (ret : pyval * file) :
  caution_body st = Ok (Return ret) → ∃ unmapped_val, ret.1 = VBytes (hexlify unmapped_val).
Proof.
  destruct st as [[unmapped_val chunk] f]. unfold caution_body.
  destruct (read 1 f) as [next f']. case_decide; [|discriminate].
  intros [= <-]. exists unmapped_val. reflexivity.
Qed.

Lemma caution_body_flow (st : bytes * bytes * file) :
  (∃ st', caution_body st = Ok (Continue st'))
  ∨ (∃ ret, caution_body st = Ok (Return ret)).
Proof.
  destruct st as [[unmapped_val chunk] f]. unfold caution_body.
  destruct (read 1 f) as [next f']. case_decide; eauto.
Qed.

Lemma collect_body_cases (fuel : nat) (st : bytes * bytes * file)
    (fl : flow (bytes * bytes * file) (pyval * file)) :
  collect_body fuel st = Ok fl →
  (∃ st', fl = Continue st')
  ∨ (∃ ret unmapped_val, fl = Return ret ∧ ret.1 = VBytes (hexlify unmapped_val)).
Proof.
  unfold collect_body.
  destruct (while fuel _ caution_body st) as [[[[u c] f]|ret]| |] eqn:Hw;
    simpl; try discriminate.
  - destruct (read 1 f) as [c' f']. intros [= <-]. left. eauto.
  - intros [= <-]. right.
    apply while_returned in Hw as [s0 Hs0].
    apply caution_body_returned in Hs0 as [u Hu]. eauto.
Qed.

Lemma collect_body_no_raise (fuel : nat) (st : bytes * bytes * file) (e : pyexc) :
  collect_body fuel st = Raise e → False.
Proof.
  unfold collect_body.
  destruct (while fuel _ caution_body st) as [[[[u c] f]|ret]|e1|] eqn:Hw;
    simpl; try discriminate.
  intros _. revert Hw. apply (while_no_raise caution_body _ (λ _, False)).
  intros s e' He'. destruct (caution_body_flow s) as [[? H]|[? H]]; congruence.
Qed.

(** C1.  On a stream made of three zero bytes, any three bytes [a b c], the
    caution byte 0x32 and a zero byte (whatever follows them), the scanner
    returns, as soon as each loop may take one turn, the hex encoding of
    [a b c]; it has then consumed exactly these eight bytes. *)
Theorem parse_unmapped_value_caution_zero (a b c : byte) (rest : bytes) (pos : Z)
    (fuel : nat) :
  parse_unmapped_value (S fuel) (File ([x00; x00; x00; a; b; c; x32; x00] ++ rest) pos)
  = Ok (VBytes (hexlify [a; b; c]), File rest (pos + 1 + 1 + 1 + 3 + 1 + 1))
  ∧ length (hexlify [a; b; c]) = 6%nat.
Proof. split; reflexivity. Qed.

(** C10.  Whenever the scanner returns, the value returned is the hex
    encoding of a byte run, produced by the [return] inside the caution-byte
    loop; in particular it is never the integer 0 of the trailing
    [return 0]. *)
Theorem parse_unmapped_value_returns_hex (fuel : nat) (f f' : file) (r : pyval) :
  parse_unmapped_value fuel f = Ok (r, f') →
  (∃ unmapped_val, r = VBytes (hexlify unmapped_val)) ∧ r ≠ VInt 0.
Proof.
  intros H.
  assert (∃ unmapped_val, r = VBytes (hexlify unmapped_val)) as [u ->];
    [|split; [eauto | discriminate]].
  revert H. unfold parse_unmapped_value.
  destruct (read 1 f) as [chunk f1].
  destruct (while fuel _ seek_zero_run (chunk, f1)) as [[[c2 f2]|ret]| |] eqn:Hw1;
    simpl; try discriminate.
  - destruct (read 3 f2) as [unmapped_val f3]. destruct (read 1 f3) as [c4 f4].
    destruct (while fuel _ (collect_body fuel) _) as [[[[u c] f5]|ret]| |] eqn:Hw2;
      simpl; try discriminate.
    + apply while_left in Hw2 as [Hc|[s0 Hs0]]; [discriminate|].
      apply collect_body_cases in Hs0 as [[? ?]|(? & ? & ? & ?)]; discriminate.
    + intros [= ->].
      apply while_returned in Hw2 as [s0 Hs0].
      apply collect_body_cases in Hs0 as [[? ?]|(ret & u & Hret & Hu)]; [discriminate|].
      injection Hret as <-. exists u. exact Hu.
  - apply while_returned in Hw1 as [s0 Hs0].
    destruct (seek_zero_run_flow s0) as [[? H']|[? H']]; congruence.
Qed.

Lemma parse_unmapped_value_returns_hex_witness :
  (∃ unmapped_val, VBytes (hexlify [x41; x42; x43]) = VBytes (hexlify unmapped_val))
  ∧ VBytes (hexlify [x41; x42; x43]) ≠ VInt 0.
Proof.
  apply (parse_unmapped_value_returns_hex 1
           (File [x00; x00; x00; x41; x42; x43; x32; x00] 0) (File [] 8)).
  reflexivity.
Defined.

Lemma parse_unmapped_value_no_raise (fuel : nat) (f : file) (e : pyexc) :
  parse_unmapped_value fuel f ≠ Raise e.
Proof.
  unfold parse_unmapped_value.
  destruct (read 1 f) as [chunk f1].
  destruct (while fuel _ seek_zero_run (chunk, f1)) as [[[c2 f2]|ret]|e1|] eqn:Hw1;
    simpl; try discriminate.
  - destruct (read 3 f2) as [unmapped_val f3]. destruct (read 1 f3) as [c4 f4].
    destruct (while fuel _ (collect_body fuel) _) as [[[[u c] f5]|ret]|e2|] eqn:Hw2;
      simpl; try discriminate.
    exfalso. revert Hw2. apply (while_no_raise _ _ (λ _, False)).
    intros s e'. apply collect_body_no_raise.
  - exfalso. revert Hw1. apply (while_no_raise _ _ (λ _, False)).
    intros s e' He'. destruct (seek_zero_run_flow s) as [[? H']|[? H']]; congruence.
Qed.

(** C2.  At the end of the input the scanner raises nothing: no input makes
    it raise, and on an exhausted stream (empty, or ending right after the
    three initial value bytes) no amount of fuel makes it return either. *)
Theorem parse_unmapped_value_eof_hangs :
  (∀ fuel f e, parse_unmapped_value fuel f ≠ Raise e)
  ∧ (∀ fuel pos, parse_unmapped_value fuel (File [] pos) = OutOfFuel)
  ∧ (∀ fuel pos,
       parse_unmapped_value fuel (File [x00; x00; x00; x41; x42; x43] pos) = OutOfFuel).
Proof.
  split; [|split].
  - apply parse_unmapped_value_no_raise.
  - intros fuel pos. unfold parse_unmapped_value. rewrite read_eof.
    rewrite while_stuck; [reflexivity | reflexivity |].
    unfold seek_zero_run. simpl. rewrite Z.add_0_r. reflexivity.
  - intros fuel pos. destruct fuel as [|fuel]; [reflexivity|].
    unfold parse_unmapped_value.
    destruct (read 1 (File [x00; x00; x00; x41; x42; x43] pos)) as [chunk f1] eqn:Hr.
    injection Hr as <- <-.
    destruct (while (S fuel) _ seek_zero_run _) as [r| |] eqn:Hw; [|discriminate..].
    injection Hw as <-. cbn [bind]. simpl.
    rewrite while_stuck; [reflexivity | reflexivity |].
    unfold collect_body. simpl. rewrite Z.add_0_r. reflexivity.
Qed.

(** ** parse_header_and_guid *)

Lemma hex_run_hexlify (raw : bytes) (t : pystr) :
  hex_run (2 * length raw) (ascii_str (hexlify raw) ++ t) = Some t.
Proof.
  induction raw as [|b raw IH]; [reflexivity|].
  destruct (hex_digit_lower b) as [Hhi Hlo].
  replace (2 * length (b :: raw))%nat with (S (S (2 * length raw))) by (simpl; lia).
  change (ascii_str (hexlify (b :: raw)) ++ t)
    with (Byte.to_N (hex_digit (Byte.to_N b / 16))
          :: Byte.to_N (hex_digit (Byte.to_N b mod 16))
          :: (ascii_str (hexlify raw) ++ t)).
  cbn [hex_run]. rewrite Hhi, Hlo. exact IH.
Qed.

Lemma length_hexlify (raw : bytes) : length (hexlify raw) = (2 * length raw)%nat.
Proof. induction raw as [|b raw IH]; simpl; [reflexivity | rewrite IH; lia]. Qed.

Lemma flip_first_three (h0 h1 h2 h3 h4 : bytes) :
  foldl flip_octet [h0; h1; h2; h3; h4] [0%nat; 1%nat; 2%nat]
  = [concat (reverse (pairs h0)); concat (reverse (pairs h1));
     concat (reverse (pairs h2)); h3; h4].
Proof. reflexivity. Qed.

Lemma parse_header_and_guid_groups (skip g0 g1 g2 g3 g4 rest : bytes) (pos : Z) :
  length skip = 18%nat → length g0 = 4%nat → length g1 = 2%nat →
  length g2 = 2%nat → length g3 = 2%nat → length g4 = 6%nat →
  parse_header_and_guid
    (File (magic_header ++ skip ++ g0 ++ g1 ++ g2 ++ g3 ++ g4 ++ rest) pos)
  = Ok (ascii_str (hexlify (reverse g0)) ++ lit "-"
        ++ ascii_str (hexlify (reverse g1)) ++ lit "-"
        ++ ascii_str (hexlify (reverse g2)) ++ lit "-"
        ++ ascii_str (hexlify g3) ++ lit "-" ++ ascii_str (hexlify g4),
        File rest (pos + 6 + 18 + 4 + 2 + 2 + 2 + 6)).
Proof.
  intros Hs H0 H1 H2 H3 H4. unfold parse_header_and_guid.
  rewrite (read_app 6 magic_header) by reflexivity.
  destruct (decide (magic_header ≠ magic_header)) as [Hne|_]; [now destruct Hne|].
  rewrite (read_app 18 skip), (read_app 4 g0), (read_app 2 g1), (read_app 2 g2),
    (read_app 2 g3), (read_app 6 g4) by assumption.
  rewrite flip_first_three, !swap_hexlify.
  cbn [lookup_total list_lookup_total].
  rewrite !utf8_hexlify. reflexivity.
Qed.

Lemma hex_run_group (n : nat) (raw : bytes) (t : pystr) :
  (2 * length raw)%nat = n → hex_run n (ascii_str (hexlify raw) ++ t) = Some t.
Proof. intros <-. apply hex_run_hexlify. Qed.

Lemma length_ascii_hexlify (raw : bytes) :
  length (ascii_str (hexlify raw)) = (2 * length raw)%nat.
Proof. unfold ascii_str. rewrite length_map. apply length_hexlify. Qed.

(** C9.  After a valid header and the 18 skipped bytes, the identifier is read
    as groups of 4, 2, 2, 2 and 6 bytes; each group is hex-encoded, the byte
    order is reversed within the first three groups only, and the five groups
    are joined with dashes.  The result has 36 characters: lowercase
    hexadecimal digits grouped 8-4-4-4-12. *)
Theorem parse_header_and_guid_canonical (skip g0 g1 g2 g3 g4 rest : bytes) (pos : Z) :
  length skip = 18%nat → length g0 = 4%nat → length g1 = 2%nat →
  length g2 = 2%nat → length g3 = 2%nat → length g4 = 6%nat →
  ∃ guid,
    parse_header_and_guid
      (File (magic_header ++ skip ++ g0 ++ g1 ++ g2 ++ g3 ++ g4 ++ rest) pos)
    = Ok (guid, File rest (pos + 40))
    ∧ guid = ascii_str (hexlify (reverse g0)) ++ lit "-"
             ++ ascii_str (hexlify (reverse g1)) ++ lit "-"
             ++ ascii_str (hexlify (reverse g2)) ++ lit "-"
             ++ ascii_str (hexlify g3) ++ lit "-" ++ ascii_str (hexlify g4)
    ∧ length guid = 36%nat
    ∧ is_canonical_guid guid = true.
Proof.
  intros Hs H0 H1 H2 H3 H4. eexists. split; [|split; [reflexivity|split]].
  - rewrite parse_header_and_guid_groups by assumption.
    do 2 f_equal. f_equal. lia.
  - rewrite !length_app, !length_ascii_hexlify, !length_reverse, H0, H1, H2, H3, H4.
    reflexivity.
  - unfold is_canonical_guid. change (lit "-") with [45%N].
    rewrite hex_run_group by now rewrite length_reverse, H0.
    cbn [app]. rewrite hex_run_group by now rewrite length_reverse, H1.
    cbn [app]. rewrite hex_run_group by now rewrite length_reverse, H2.
    cbn [app]. rewrite hex_run_group by now rewrite H3.
    cbn [app]. rewrite <- (app_nil_r (ascii_str (hexlify g4))).
    rewrite hex_run_group by now rewrite H4.
    reflexivity.
Qed.

Lemma parse_header_and_guid_canonical_witness :
  ∃ guid,
    parse_header_and_guid
      (File (magic_header ++ repeat x00 18 ++ [x01; x02; x03; x04] ++ [x05; x06]
             ++ [x07; x08] ++ [x09; x0a] ++ [x0b; x0c; x0d; x0e; x0f; x10]
             ++ [xff]) 0)
    = Ok (guid, File [xff] (0 + 40))
    ∧ guid = ascii_str (hexlify (reverse [x01; x02; x03; x04])) ++ lit "-"
             ++ ascii_str (hexlify (reverse [x05; x06])) ++ lit "-"
             ++ ascii_str (hexlify (reverse [x07; x08])) ++ lit "-"
             ++ ascii_str (hexlify [x09; x0a]) ++ lit "-"
             ++ ascii_str (hexlify [x0b; x0c; x0d; x0e; x0f; x10])
    ∧ length guid = 36%nat
    ∧ is_canonical_guid guid = true.
Proof.
  apply (parse_header_and_guid_canonical (repeat x00 18) [x01; x02; x03; x04]
           [x05; x06] [x07; x08] [x09; x0a] [x0b; x0c; x0d; x0e; x0f; x10] [xff] 0);
    reflexivity.
Defined.

(** ** Which exceptions the decoder raises

    [IOError] is raised by the header check and by nothing else. *)

Create HintDb no_io discriminated.

Ltac raise_cases :=
  repeat match goal with
    | |- Raise _ = Raise _ → _ => intros [= <-]
    | |- Ok _ = Raise _ → _ => discriminate
    | |- OutOfFuel = Raise _ → _ => discriminate
    | |- bind ?m _ = Raise _ → _ => destruct m as [?| |] eqn:?; cbn [bind]
    | |- (let '(_, _) := ?x in _) = Raise _ → _ => destruct x as [? ?] eqn:?
    | |- (if ?c then _ else _) = Raise _ → _ => destruct c eqn:?
    | |- match ?x with _ => _ end = Raise _ → _ => destruct x eqn:?
    | H : match _ with _ => _ end = Raise _ |- _ => revert H
    | H : bind _ _ = Raise _ |- _ => revert H
    end;
  try discriminate; eauto with no_io.

Lemma cp1252_raise (data : bytes) (e : pyexc) : cp1252 data = Raise e → e ≠ IOError.
Proof.
  revert e. induction data as [|b t IH]; intros e; simpl; [discriminate|].
  destruct (cp1252_char b); [|intros [= <-]; discriminate].
  destruct (cp1252 t); simpl; try discriminate. apply IH.
Qed.
#[global] Hint Resolve cp1252_raise : no_io.

Lemma decode_utf8_raise (fuel : nat) (data : bytes) (e : pyexc) :
  decode_utf8 fuel data = Raise e → e ≠ IOError.
Proof.
  revert data e. induction fuel as [|fuel IH]; intros data e; simpl; [discriminate|].
  raise_cases.
Qed.
#[global] Hint Resolve decode_utf8_raise : no_io.

Lemma utf8_raise (data : bytes) (e : pyexc) : utf8 data = Raise e → e ≠ IOError.
Proof. apply decode_utf8_raise. Qed.
#[global] Hint Resolve utf8_raise : no_io.

Lemma int16_raise (c : N) (e : pyexc) : int16 c = Raise e → e ≠ IOError.
Proof. unfold int16. raise_cases. Qed.
#[global] Hint Resolve int16_raise : no_io.

Lemma nibbles_raise (hexval : bytes) (e : pyexc) : nibbles hexval = Raise e → e ≠ IOError.
Proof.
  revert e. induction hexval as [|b t IH]; intros e; cbn [nibbles]; [discriminate|].
  raise_cases.
Qed.
#[global] Hint Resolve nibbles_raise : no_io.

Lemma byte_swap_to_int_raise (hexval : bytes) (str_flag : bool) (e : pyexc) :
  byte_swap_to_int hexval str_flag = Raise e → e ≠ IOError.
Proof. unfold byte_swap_to_int. raise_cases. Qed.
#[global] Hint Resolve byte_swap_to_int_raise : no_io.

Lemma getitem_raise (d : dict) (k : pystr) (e : pyexc) : getitem d k = Raise e → e ≠ IOError.
Proof. unfold getitem. raise_cases. Qed.
#[global] Hint Resolve getitem_raise : no_io.

Lemma getitem_stripped_raise (d : dict) (k : pystr) (e : pyexc) :
  getitem_stripped d k = Raise e → e ≠ IOError.
Proof. unfold getitem_stripped. raise_cases. Qed.
#[global] Hint Resolve getitem_stripped_raise : no_io.

Lemma iadd_decoded_raise (d : dict) (k : pystr) (chunk : bytes) (e : pyexc) :
  iadd_decoded d k chunk = Raise e → e ≠ IOError.
Proof. unfold iadd_decoded. raise_cases. Qed.
#[global] Hint Resolve iadd_decoded_raise : no_io.

Lemma index_raise (l : list pystr) (i : Z) (e : pyexc) : index l i = Raise e → e ≠ IOError.
Proof. unfold index. raise_cases. Qed.
#[global] Hint Resolve index_raise : no_io.

Lemma filetime_string_raise (us : Z) (e : pyexc) : filetime_string us = Raise e → e ≠ IOError.
Proof. unfold filetime_string. raise_cases. Qed.
#[global] Hint Resolve filetime_string_raise : no_io.

Lemma parse_filetime_raise (f : file) (e : pyexc) : parse_filetime f = Raise e → e ≠ IOError.
Proof. unfold parse_filetime. raise_cases. Qed.
#[global] Hint Resolve parse_filetime_raise : no_io.

Lemma unmapped_int_raise (fuel : nat) (f : file) (str_flag : bool) (e : pyexc) :
  unmapped_int fuel f str_flag = Raise e → e ≠ IOError.
Proof.
  unfold unmapped_int.
  destruct (parse_unmapped_value fuel f) as [[r f']|e'|] eqn:Hp; cbn [bind].
  - raise_cases.
  - now apply parse_unmapped_value_no_raise in Hp.
  - discriminate.
Qed.
#[global] Hint Resolve unmapped_int_raise : no_io.

Lemma magic_body_raise (v : vars) (e : pyexc) : magic_body v = Raise e → e ≠ IOError.
Proof. unfold magic_body. raise_cases. Qed.

Lemma general_end_key_raise (fuel : nat) (v : vars) (e : pyexc) :
  general_end_key fuel v = Raise e → e ≠ IOError.
Proof. unfold general_end_key. raise_cases. Qed.
#[global] Hint Resolve general_end_key_raise : no_io.

Lemma general_end_value_raise (fuel : nat) (v : vars) (e : pyexc) :
  general_end_value fuel v = Raise e → e ≠ IOError.
Proof. unfold general_end_value. raise_cases. Qed.
#[global] Hint Resolve general_end_value_raise : no_io.

Lemma general_body_raise (fuel : nat) (v : vars) (e : pyexc) :
  general_body fuel v = Raise e → e ≠ IOError.
Proof. unfold general_body. raise_cases. Qed.

Lemma eof_null_try_raise (v : vars) (chunk : bytes) (e : pyexc) :
  eof_null_try v chunk = Raise e → e ≠ IOError.
Proof. unfold eof_null_try. raise_cases. Qed.
#[global] Hint Resolve eof_null_try_raise : no_io.

Lemma eof_body_raise (v : vars) (e : pyexc) : eof_body v = Raise e → e ≠ IOError.
Proof. unfold eof_body. raise_cases. Qed.

Lemma run_section_raise (fuel : nat) (cond : vars → bool)
    (body : vars → outcome (flow vars Empty_set)) (v : vars) (e : pyexc) :
  (∀ s e, body s = Raise e → e ≠ IOError) →
  run_section fuel cond body v = Raise e → e ≠ IOError.
Proof.
  intros Hb. unfold run_section.
  destruct (while fuel cond body v) as [[?|[]]|e'|] eqn:Hw; cbn [bind]; try discriminate.
  intros [= <-]. revert Hw. apply (while_no_raise body cond (λ e, e ≠ IOError)), Hb.
Qed.

Lemma magic_section_raise (fuel : nat) (v : vars) (e : pyexc) :
  magic_section fuel v = Raise e → e ≠ IOError.
Proof. apply run_section_raise, magic_body_raise. Qed.

Lemma general_section_raise (fuel : nat) (v : vars) (e : pyexc) :
  general_section fuel v = Raise e → e ≠ IOError.
Proof. apply run_section_raise, general_body_raise. Qed.

Lemma eof_section_raise (fuel : nat) (v : vars) (e : pyexc) :
  eof_section fuel v = Raise e → e ≠ IOError.
Proof. apply run_section_raise, eof_body_raise. Qed.

#[global] Hint Resolve magic_section_raise general_section_raise eof_section_raise : no_io.

Lemma parse_header_and_guid_bad (f : file) :
  take 6 (pending f) ≠ magic_header → parse_header_and_guid f = Raise IOError.
Proof.
  intros Hne. unfold parse_header_and_guid, read.
  destruct (decide (take 6 (pending f) ≠ magic_header)); [reflexivity | contradiction].
Qed.

Lemma parse_header_and_guid_good (f : file) :
  take 6 (pending f) = magic_header →
  ∃ guid f', parse_header_and_guid f = Ok (guid, f').
Proof.
  intros Heq. unfold parse_header_and_guid.
  destruct (read 6 f) as [header f0] eqn:H0.
  assert (header = magic_header) as -> by (injection H0 as <- _; exact Heq).
  destruct (decide (magic_header ≠ magic_header)) as [Hne|_]; [now destruct Hne|].
  cbn [snd].
  destruct (read 18 f0) as [? f1]. destruct (read 4 f1) as [g0 f2].
  destruct (read 2 f2) as [g1 f3]. destruct (read 2 f3) as [g2 f4].
  destruct (read 2 f4) as [g3 f5]. destruct (read 6 f5) as [g4 f6].
  rewrite flip_first_three, !swap_hexlify.
  cbn [lookup_total list_lookup_total snd].
  rewrite !utf8_hexlify. cbn [bind]. eexists _, _. reflexivity.
Qed.

(** C5.  A buffer whose first six bytes are not [08 00 00 00 08 00] fails
    header validation with [IOError], and so does the decoding of the whole
    record, which yields no dictionary.  A buffer that starts with these six
    bytes passes the validation, the identifier is returned, and whatever the
    rest of the decoding does it does not fail with the header error. *)
Theorem header_validation (contents : bytes) :
  (take 6 contents ≠ magic_header →
     parse_header_and_guid (File contents 0) = Raise IOError
     ∧ ∀ fuel, parse_detection_history fuel contents = Raise IOError)
  ∧ (take 6 contents = magic_header →
     (∃ guid f, parse_header_and_guid (File contents 0) = Ok (guid, f))
     ∧ ∀ fuel, parse_detection_history fuel contents ≠ Raise IOError).
Proof.
  split; intros Hh.
  - pose proof (parse_header_and_guid_bad (File contents 0) Hh) as Hbad.
    split; [exact Hbad|]. intros fuel.
    unfold parse_detection_history. rewrite Hbad. reflexivity.
  - destruct (parse_header_and_guid_good (File contents 0) Hh) as (guid & f' & Hgood).
    split; [eauto|]. intros fuel Hraise.
    assert (∀ e, parse_detection_history fuel contents = Raise e → e ≠ IOError) as Hne.
    { intros e. unfold parse_detection_history. rewrite Hgood. cbn [bind].
      raise_cases. }
    now apply Hne in Hraise.
Qed.

Lemma header_validation_witness :
  (parse_header_and_guid (File [x08; x00; x00; x00; x08; x01; x00] 0) = Raise IOError
   ∧ ∀ fuel, parse_detection_history fuel [x08; x00; x00; x00; x08; x01; x00]
             = Raise IOError)
  ∧ ((∃ guid f, parse_header_and_guid (File (magic_header ++ [x41]) 0) = Ok (guid, f))
     ∧ ∀ fuel, parse_detection_history fuel (magic_header ++ [x41]) ≠ Raise IOError).
Proof.
  split.
  - apply (header_validation [x08; x00; x00; x00; x08; x01; x00]). discriminate.
  - apply (header_validation (magic_header ++ [x41])). reflexivity.
Defined.

(** ** The fixed offset 242 *)

Ltac simpl_vars :=
  cbn [fobj parsed_value_dict CURRENT_MODE LAST_READ_MODE temp_key
       CURRENT_EOF_SECTION_KEY MAGIC_VERSION_SECTION GENERAL_SECTION
       NEAREST_EOF_SECTION set_fobj set_dict set_mode set_last set_temp_key
       set_eof_key set_magic set_general set_nearest_eof] in *.

(** C3, as stated, fails.  In the General section a 2-byte chunk read in
    NULL_DATA_MODE that ends at offset 242 is not recorded: here the General
    pass starts at offset 72, reaches offset 240 in NULL_DATA_MODE, reads
    [05 00], and the decoded record has no [ThreatStatusID]. *)
Lemma general_section_ignores_offset_242 :
  let v := Vars (File [x05; x00] 240) {[ lit "GUID" := VStr [] ]}
             NULL_DATA_MODE VALUE_READ_MODE [] (-1) false true true in
  (∃ v', general_body 1 v = Ok (Continue v')
         ∧ tell (fobj v') = 242
         ∧ parsed_value_dict v' !! lit "ThreatStatusID" = None)
  ∧ decoded_field artifact_general_242 (lit "ThreatStatusID") = Ok None
  ∧ ¬ (∀ fuel v v',
         CURRENT_MODE v = NULL_DATA_MODE →
         length (read 2 (fobj v)).1 = 2%nat →
         tell (read 2 (fobj v)).2 = 242 →
         general_body fuel v = Ok (Continue v') →
         parsed_value_dict v' !! lit "ThreatStatusID"
         = Some (VInt (le_value (read 2 (fobj v)).1))).
Proof.
  split; [|split].
  - eexists. split; [reflexivity|]. split; vm_compute; reflexivity.
  - vm_compute. reflexivity.
  - intros H.
    specialize (H 1%nat
      (Vars (File [x05; x00] 240) {[ lit "GUID" := VStr [] ]}
         NULL_DATA_MODE VALUE_READ_MODE [] (-1) false true true)
      _ eq_refl eq_refl eq_refl eq_refl).
    vm_compute in H. discriminate H.
Qed.

Lemma magic_body_null_dict (v : vars) (chunk : bytes) (f' : file)
    (fl : flow vars Empty_set) :
  CURRENT_MODE v = NULL_DATA_MODE →
  read 2 (fobj v) = (chunk, f') →
  chunk ≠ [] →
  magic_body v = Ok fl →
  parsed_value_dict (flow_vars fl)
  = if decide (tell f' = 242)
    then <[lit "ThreatStatusID" := VInt (le_value chunk)]> (parsed_value_dict v)
    else parsed_value_dict v.
Proof.
  intros Hmode Hread Hne. unfold magic_body. rewrite Hread.
  destruct (decide (chunk = [])) as [|_]; [contradiction|].
  simpl_vars. rewrite Hmode, byte_swap_to_int_hexlify.
  clear Hread.
  destruct (decide (tell f' = 242)); cbn [bind];
    (destruct (cp1252 chunk) as [s| |]; cbn [bind]; try discriminate;
     destruct (1 <=? Z.of_nat (length (sub_nonword s)));
       [|intros [= <-]; reflexivity];
     simpl_vars; destruct (read 2 f') as [more f2];
     destruct (cp1252 (chunk ++ more)) as [s4| |]; cbn [bind]; try discriminate;
     destruct (2 <=? Z.of_nat (length (sub_nonword s4)));
     intros [= <-]; reflexivity).
Qed.

(** C3, amended.  The offset check belongs to the Magic/Version pass: when a
    chunk read there in NULL_DATA_MODE ends at offset 242 and the turn of the
    loop completes, the chunk, decoded as a little-endian integer, is recorded
    under [ThreatStatusID]. *)
Theorem magic_body_offset_242 (v : vars) (chunk : bytes) (f' : file)
    (fl : flow vars Empty_set) :
  CURRENT_MODE v = NULL_DATA_MODE →
  read 2 (fobj v) = (chunk, f') →
  chunk ≠ [] →
  tell f' = 242 →
  magic_body v = Ok fl →
  parsed_value_dict (flow_vars fl) !! lit "ThreatStatusID"
  = Some (VInt (le_value chunk)).
Proof.
  intros Hmode Hread Hne Htell Hstep.
  rewrite (magic_body_null_dict v chunk f' fl Hmode Hread Hne Hstep).
  destruct (decide (tell f' = 242)); [|contradiction].
  apply lookup_insert_eq.
Qed.

Lemma magic_body_offset_242_witness :
  parsed_value_dict
    (flow_vars (Continue
       (Vars (File [x41] 242)
          (<[lit "ThreatStatusID" := VInt 261]> {[ lit "GUID" := VStr [] ]})
          NULL_DATA_MODE NO_MODE [] (-1) true true true)))
    !! lit "ThreatStatusID"
  = Some (VInt (le_value [x05; x01])).
Proof.
  apply (magic_body_offset_242
           (Vars (File [x05; x01; x41] 240) {[ lit "GUID" := VStr [] ]}
              NULL_DATA_MODE NO_MODE [] (-1) true true true)
           [x05; x01] (File [x41] 242)).
  - reflexivity.
  - reflexivity.
  - discriminate.
  - reflexivity.
  - reflexivity.
Defined.

(** ** Re-keying of a value that should have been a key *)

(** C4.  The decoder on artifacts whose General section starts with a name
    as the value text of the pending field "file".  The text [ThreatFoo] is
    re-keyed as the claim says, and [ThreatTrackingSize] is decoded by the
    scanner.  [ThreatTrackingSigSeq] is re-keyed with an empty value and the
    scanner is not run, although the same name arriving as a key is decoded
    by the scanner. *)
Theorem rekeyed_sigseq_not_decoded :
  decoded_field (artifact_name_as_value "ThreatFoo") (lit "ThreatFoo")
  = Ok (Some (VStr []))
  ∧ decoded_field (artifact_name_as_value "ThreatFoo") (lit "file")
    = Ok (Some (VStr []))
  ∧ decoded_field (artifact_name_as_value "ThreatTrackingSize") (lit "ThreatTrackingSize")
    = Ok (Some (VInt 197121))
  ∧ decoded_field (artifact_name_as_key "ThreatTrackingSigSeq") (lit "ThreatTrackingSigSeq")
    = Ok (Some (VStr (lit "0x0000030201")))
  ∧ decoded_field (artifact_name_as_value "ThreatTrackingSigSeq") (lit "ThreatTrackingSigSeq")
    = Ok (Some (VStr [])).
Proof. repeat split; vm_compute; reflexivity. Qed.

(** ** The Trailer section *)

Ltac ok_cases :=
  repeat match goal with
    | |- Ok _ = Ok _ → _ => intros [= <-]
    | |- Raise _ = Ok _ → _ => discriminate
    | |- OutOfFuel = Ok _ → _ => discriminate
    | |- bind ?m _ = Ok _ → _ => destruct m as [?|?|] eqn:?; cbn [bind]
    | |- (let '(_, _) := ?x in _) = Ok _ → _ => destruct x as [? ?] eqn:?
    | |- (if ?c then _ else _) = Ok _ → _ => destruct c eqn:?
    | |- match ?x with _ => _ end = Ok _ → _ => destruct x eqn:?
    end.

Lemma while_invariant {S R} (I : S → Prop) (cond : S → bool)
    (body : S → outcome (flow S R)) :
  (∀ s s', I s → body s = Ok (Continue s') ∨ body s = Ok (Break s') → I s') →
  ∀ fuel s s', I s → while fuel cond body s = Ok (inl s') → I s'.
Proof.
  intros Hb fuel. induction fuel as [|fuel IH]; intros s s' Hs; simpl; [discriminate|].
  destruct (cond s); [|intros [= <-]; exact Hs].
  destruct (body s) as [[s1|s1|r]| |] eqn:Hbs; simpl; try discriminate.
  - apply IH. apply (Hb s); auto.
  - intros [= <-]. apply (Hb s); auto.
Qed.

Lemma index_Ok (l : list pystr) (i : Z) (k : pystr) :
  index l i = Ok k → k ∈ l ∧ - Z.of_nat (length l) ≤ i < Z.of_nat (length l).
Proof.
  unfold index. cbv zeta.
  destruct (i <? 0) eqn:Hneg; [apply Z.ltb_lt in Hneg | apply Z.ltb_ge in Hneg];
    (destruct (_ && _) eqn:Hr; [|discriminate]; intros [= <-];
     apply andb_true_iff in Hr as [H1 H2];
     apply Z.leb_le in H1; apply Z.ltb_lt in H2;
     split; [apply list_elem_of_lookup_total_2|]; try lia).

Qed.

Lemma iadd_decoded_dom (d d' : dict) (k : pystr) (chunk : bytes) :
  iadd_decoded d k chunk = Ok d' → dom d' = {[k]} ∪ dom d.
Proof.
  unfold iadd_decoded. ok_cases. apply dom_insert_L.
Qed.

Lemma positional_key_dom (D : gset pystr) (d : dict) (k : pystr) :
  k ∈ EOF_SECTION_KEYS →
  dom d ⊆ D ∪ list_to_set EOF_SECTION_KEYS →
  {[k]} ∪ dom d ⊆ D ∪ list_to_set EOF_SECTION_KEYS.
Proof.
  intros Hk Hd. apply union_subseteq. split; [|exact Hd].
  apply singleton_subseteq_l, elem_of_union_r, elem_of_list_to_set, Hk.
Qed.

Lemma eof_null_try_inv (D : gset pystr) (i0 : Z) (v v' : vars) (chunk : bytes) :
  eof_inv D i0 v → eof_null_try v chunk = Ok v' → eof_inv D i0 v'.
Proof.
  intros [Hd Hi]. unfold eof_null_try, eof_inv.
  ok_cases; simpl_vars; try (split; assumption).
  match goal with H : index _ _ = Ok _ |- _ => apply index_Ok in H as [Hk Hr] end.
  simpl in Hr. split; [|lia].
  rewrite dom_insert_L. now apply positional_key_dom.
Qed.

Lemma eof_body_inv (D : gset pystr) (i0 : Z) (v v' : vars) :
  eof_inv D i0 v →
  eof_body v = Ok (Continue v') ∨ eof_body v = Ok (Break v') → eof_inv D i0 v'.
Proof.
  intros Hinv H.
  assert (∃ fl, eof_body v = Ok fl ∧ flow_vars fl = v') as (fl & Hfl & <-)
    by (destruct H as [H|H]; eauto).
  clear H. revert Hfl. unfold eof_body. destruct Hinv as [Hd Hi].
  ok_cases; cbn [flow_vars]; try (eapply eof_null_try_inv; [|eassumption]);
    unfold eof_inv; simpl_vars; try (split; assumption).
  - match goal with H : index _ _ = Ok _ |- _ => apply index_Ok in H as [Hk Hr] end.
    split; [|assumption]. rewrite dom_insert_L. now apply positional_key_dom.
  - match goal with H : index _ _ = Ok _ |- _ => apply index_Ok in H as [Hk Hr] end.
    match goal with H : iadd_decoded _ _ _ = Ok _ |- _ => apply iadd_decoded_dom in H end.
    split; [|assumption].
    match goal with H : dom _ = _ |- _ => rewrite H end.
    now apply positional_key_dom.
Qed.

Lemma eof_section_inv (fuel : nat) (v v' : vars) :
  eof_section fuel v = Ok v' →
  eof_inv (dom (parsed_value_dict v)) (CURRENT_EOF_SECTION_KEY v) v'.
Proof.
  unfold eof_section, run_section.
  destruct (while fuel _ eof_body v) as [[v1|[]]| |] eqn:Hw; cbn [bind]; try discriminate.
  intros [= <-]. revert Hw.
  apply (while_invariant
           (eof_inv (dom (parsed_value_dict v)) (CURRENT_EOF_SECTION_KEY v))).
  - intros s s'. apply eof_body_inv.
  - split; [apply union_subseteq_l | lia].
Qed.

(** C6, as stated, fails: the confirmation on the 4-byte window is not the
    General section's.  The window "ABCD" is confirmed in the General section
    and not in the Trailer section, which also wants a zero byte; the window
    "A", 0, " ", 0 is confirmed in the Trailer section, where a space counts,
    and not in the General section. *)
Lemma eof_lookahead_differs_from_general :
  mode_after (general_body 1 (scanning_general [x41; x42; x43; x44])) = Some KEY_READ_MODE
  ∧ mode_after (eof_body (scanning_trailer [x41; x42; x43; x44])) = Some NULL_DATA_MODE
  ∧ mode_after (general_body 1 (scanning_general [x41; x00; x20; x00])) = Some NULL_DATA_MODE
  ∧ mode_after (eof_body (scanning_trailer [x41; x00; x20; x00])) = Some VALUE_READ_MODE
  ∧ ¬ (∀ window, mode_after (eof_body (scanning_trailer window)) = Some VALUE_READ_MODE
                 ↔ mode_after (general_body 1 (scanning_general window))
                   = Some KEY_READ_MODE).
Proof.
  repeat split; try (vm_compute; reflexivity).
  intros H. specialize (H [x41; x42; x43; x44]). destruct H as [_ H].
  specialize (H eq_refl). vm_compute in H. discriminate H.
Qed.

Lemma eof_body_confirmed (v : vars) (chunk more : bytes) (f1 f2 : file)
    (s2 s4 k : pystr) :
  CURRENT_MODE v = NULL_DATA_MODE →
  read 2 (fobj v) = (chunk, f1) → chunk ≠ [] →
  chunk ≠ [x0a; x00] → chunk ≠ [x00; x0a] →
  cp1252 chunk = Ok s2 → 1 ≤ Z.of_nat (length (sub_nonword s2)) →
  read 2 f1 = (more, f2) →
  cp1252 (chunk ++ more) = Ok s4 →
  2 ≤ Z.of_nat (length (sub_trailer None s4)) → x00 ∈ chunk ++ more →
  index EOF_SECTION_KEYS (CURRENT_EOF_SECTION_KEY v + 1) = Ok k →
  eof_body v
  = Ok (Continue
          (Vars f2 (<[k := VStr s4]> (parsed_value_dict v)) VALUE_READ_MODE
             (LAST_READ_MODE v) (temp_key v) (CURRENT_EOF_SECTION_KEY v + 1)
             (MAGIC_VERSION_SECTION v) (GENERAL_SECTION v) (NEAREST_EOF_SECTION v))).
Proof.
  intros Hmode Hr1 Hne Hlf1 Hlf2 Hd2 Hw Hr2 Hd4 Ht Hz Hk.
  unfold eof_body. rewrite Hr1.
  destruct (decide (chunk = [])) as [|_]; [contradiction|].
  simpl_vars. rewrite Hmode.
  destruct (decide (chunk = [x0a; x00] ∨ chunk = [x00; x0a])) as [[|]|_];
    [contradiction..|].
  unfold eof_null_try. rewrite Hd2.
  apply Z.leb_le in Hw. rewrite Hw. simpl_vars. rewrite Hr2, Hd4.
  apply Z.leb_le in Ht. rewrite Ht.
  rewrite (bool_decide_eq_true_2 _ Hz). cbn [andb]. simpl_vars.
  rewrite Hk. reflexivity.
Qed.

(** C6, amended.  In NULL_DATA_MODE a chunk of the Trailer section that is
    not a line-feed marker and holds an alphanumeric character is extended to
    a 4-byte window; the window is confirmed by the Trailer's own rule: two
    characters are left by the Trailer's substitution and the window holds a
    zero byte.  On confirmation the positional index advances by one, the
    window's text is stored under the key at the new index, and the mode
    becomes VALUE_READ_MODE.  The keys come in the order User,
    SpawningProcessName, SecurityGroup, and a whole Trailer pass adds no key
    but these three and leaves the index at 2 at most. *)
Theorem eof_section_positional_fields :
  (∀ v chunk more f1 f2 s2 s4 k,
     CURRENT_MODE v = NULL_DATA_MODE →
     read 2 (fobj v) = (chunk, f1) → chunk ≠ [] →
     chunk ≠ [x0a; x00] → chunk ≠ [x00; x0a] →
     cp1252 chunk = Ok s2 → 1 ≤ Z.of_nat (length (sub_nonword s2)) →
     read 2 f1 = (more, f2) →
     cp1252 (chunk ++ more) = Ok s4 →
     2 ≤ Z.of_nat (length (sub_trailer None s4)) → x00 ∈ chunk ++ more →
     index EOF_SECTION_KEYS (CURRENT_EOF_SECTION_KEY v + 1) = Ok k →
     eof_body v
     = Ok (Continue
             (Vars f2 (<[k := VStr s4]> (parsed_value_dict v)) VALUE_READ_MODE
                (LAST_READ_MODE v) (temp_key v) (CURRENT_EOF_SECTION_KEY v + 1)
                (MAGIC_VERSION_SECTION v) (GENERAL_SECTION v)
                (NEAREST_EOF_SECTION v))))
  ∧ (index EOF_SECTION_KEYS 0 = Ok (lit "User")
     ∧ index EOF_SECTION_KEYS 1 = Ok (lit "SpawningProcessName")
     ∧ index EOF_SECTION_KEYS 2 = Ok (lit "SecurityGroup"))
  ∧ (∀ fuel v v',
       eof_section fuel v = Ok v' →
       dom (parsed_value_dict v')
         ⊆ dom (parsed_value_dict v) ∪ list_to_set EOF_SECTION_KEYS
       ∧ CURRENT_EOF_SECTION_KEY v ≤ CURRENT_EOF_SECTION_KEY v'
         ≤ Z.max (CURRENT_EOF_SECTION_KEY v) 2).
Proof.
  split; [|split].
  - intros v chunk more f1 f2 s2 s4 k. apply eof_body_confirmed.
  - repeat split.
  - intros fuel v v'. apply eof_section_inv.
Qed.

Lemma eof_section_positional_fields_witness :
  eof_body (scanning_trailer [x41; x00; x20; x00; x42])
  = Ok (Continue
          (Vars (File [x42] 304) (<[lit "User" := VStr [65; 0; 32; 0]%N]> ∅)
             VALUE_READ_MODE VALUE_READ_MODE [] (-1 + 1) false false true))
  ∧ (dom (parsed_value_dict
            (Vars (File [] 305) (<[lit "User" := VStr [65; 0; 32; 0; 66]%N]> ∅)
               VALUE_READ_MODE VALUE_READ_MODE [] 0 false false false))
       ⊆ dom (parsed_value_dict (scanning_trailer [x41; x00; x20; x00; x42]))
         ∪ list_to_set EOF_SECTION_KEYS
     ∧ -1 ≤ 0 ≤ Z.max (-1) 2).
Proof.
  split.
  - apply (proj1 eof_section_positional_fields
             (scanning_trailer [x41; x00; x20; x00; x42])
             [x41; x00] [x20; x00] (File [x20; x00; x42] 302) (File [x42] 304)
             [65; 0]%N [65; 0; 32; 0]%N (lit "User")).
    + reflexivity.
    + reflexivity.
    + discriminate.
    + discriminate.
    + discriminate.
    + reflexivity.
    + vm_compute. discriminate.
    + reflexivity.
    + reflexivity.
    + vm_compute. discriminate.
    + apply list_elem_of_In. simpl. auto.
    + reflexivity.
  - apply (proj2 (proj2 eof_section_positional_fields) 5%nat
             (scanning_trailer [x41; x00; x20; x00; x42])).
    vm_compute. reflexivity.
Defined.

(** ** parse_filetime *)

Lemma month_day_table (leap : bool) :
  forallb (month_day_ok leap) (seq 0 (if leap then 366 else 365)) = true.
Proof. destruct leap; vm_compute; reflexivity. Qed.

Lemma month_day_spec (leap : bool) (n : Z) :
  0 ≤ n < (if leap then 366 else 365) →
  ∃ m d, month_day n leap = (m, d)
         ∧ 1 ≤ m ≤ 12 ∧ 1 ≤ d ≤ days_in_month leap m
         ∧ days_before_month_upto leap (Z.to_nat (m - 1)) + d = n + 1.
Proof.
  intros Hn.
  pose proof (month_day_table leap) as Ht.
  rewrite forallb_forall in Ht.
  specialize (Ht (Z.to_nat n)).
  assert (In (Z.to_nat n) (seq 0 (if leap then 366 else 365))) as Hin.
  { apply in_seq. destruct leap; lia. }
  specialize (Ht Hin). unfold month_day_ok in Ht.
  rewrite Z2Nat.id in Ht by lia.
  destruct (month_day n leap) as [m d]. exists m, d.
  rewrite !andb_true_iff in Ht. destruct Ht as [[[[H1 H2] H3] H4] H5].
  split; [reflexivity|]. lia.
Qed.

Lemma ord2ymd_spec (n : Z) :
  1 ≤ n ≤ MAXORDINAL →
  ∃ y m d, ord2ymd n = (y, m, d)
           ∧ 1 ≤ y ≤ 9999 ∧ (EPOCH_ORDINAL ≤ n → 1601 ≤ y)
           ∧ 1 ≤ m ≤ 12 ∧ 1 ≤ d ≤ days_in_month (is_leap y) m
           ∧ ymd2ord y m d = n.
Proof.
  intros Hn. unfold ord2ymd, MAXORDINAL, EPOCH_ORDINAL in *. cbv zeta.
  set (a := (n - 1) / 146097). set (r400 := (n - 1) mod 146097).
  set (b := r400 / 36524). set (r100 := r400 mod 36524).
  set (c := r100 / 1461). set (r4 := r100 mod 1461).
  set (e := r4 / 365). set (r1 := r4 mod 365).
  assert (n - 1 = 146097 * a + r400 ∧ 0 ≤ r400 < 146097) as [E400 B400]
    by (subst a r400; split; [apply Z.div_mod | apply Z.mod_pos_bound]; lia).
  assert (r400 = 36524 * b + r100 ∧ 0 ≤ r100 < 36524) as [E100 B100]
    by (subst b r100; split; [apply Z.div_mod | apply Z.mod_pos_bound]; lia).
  assert (r100 = 1461 * c + r4 ∧ 0 ≤ r4 < 1461) as [E4 B4]
    by (subst c r4; split; [apply Z.div_mod | apply Z.mod_pos_bound]; lia).
  assert (r4 = 365 * e + r1 ∧ 0 ≤ r1 < 365) as [E1 B1]
    by (subst e r1; split; [apply Z.div_mod | apply Z.mod_pos_bound]; lia).
  clearbody a r400 b r100 c r4 e r1.
  assert (0 ≤ a ≤ 24 ∧ 0 ≤ b ≤ 4 ∧ 0 ≤ c ≤ 24 ∧ 0 ≤ e ≤ 4) as (Ba & Bb & Bc & Be) by lia.
  destruct ((e =? 4) || (b =? 4)) eqn:Hspecial.
  - exists (a * 400 + 1 + b * 100 + c * 4 + e - 1), 12, 31.
    split; [reflexivity|].
    assert (is_leap (a * 400 + 1 + b * 100 + c * 4 + e - 1) = true) as Hleap.
    { unfold is_leap. apply orb_true_iff in Hspecial.
      rewrite !andb_true_iff, orb_true_iff, negb_true_iff, !Z.eqb_eq, Z.eqb_neq.
      destruct Hspecial as [H|H]; apply Z.eqb_eq in H;
        Z.div_mod_to_equations; lia. }
    rewrite Hleap. unfold ymd2ord. rewrite Hleap.
    split; [lia|]. split; [lia|]. split; [lia|]. split; [vm_compute; split; discriminate|].
    change (days_before_month_upto true (Z.to_nat (12 - 1))) with 335.
    change (days_in_month true 12) with 31.
    unfold days_before_year.
    apply orb_true_iff in Hspecial. destruct Hspecial as [H|H]; apply Z.eqb_eq in H;
      Z.div_mod_to_equations; lia.
  - apply orb_false_iff in Hspecial as [He Hb].
    apply Z.eqb_neq in He, Hb.
    set (leap := (e =? 3) && (negb (c =? 24) || (b =? 3))).
    assert (is_leap (a * 400 + 1 + b * 100 + c * 4 + e) = leap) as Hleap.
    { unfold is_leap, leap.
      destruct (e =? 3) eqn:H3; [apply Z.eqb_eq in H3 | apply Z.eqb_neq in H3];
      destruct (c =? 24) eqn:H24; [apply Z.eqb_eq in H24 | apply Z.eqb_neq in H24 | apply Z.eqb_eq in H24 | apply Z.eqb_neq in H24];
      destruct (b =? 3) eqn:Hb3; [apply Z.eqb_eq in Hb3 | apply Z.eqb_neq in Hb3 | apply Z.eqb_eq in Hb3 | apply Z.eqb_neq in Hb3 | apply Z.eqb_eq in Hb3 | apply Z.eqb_neq in Hb3 | apply Z.eqb_eq in Hb3 | apply Z.eqb_neq in Hb3];
      cbn [andb orb negb];
      rewrite ?andb_true_iff, ?andb_false_iff, ?orb_true_iff, ?orb_false_iff,
        ?negb_true_iff, ?negb_false_iff, ?Z.eqb_eq, ?Z.eqb_neq;
      Z.div_mod_to_equations; lia. }
    destruct (month_day_spec leap r1) as (m & d & Hmd & Hm & Hd & Hsum).
    { destruct leap; lia. }
    rewrite Hmd. exists (a * 400 + 1 + b * 100 + c * 4 + e), m, d.
    split; [reflexivity|]. rewrite Hleap.
    split; [lia|]. split; [lia|]. split; [exact Hm|]. split; [exact Hd|].
    unfold ymd2ord. rewrite Hleap. unfold days_before_year.
    Z.div_mod_to_equations; lia.
Qed.

Lemma round_half_even_bound (num den : Z) :
  0 ≤ num → 0 < den →
  0 ≤ round_half_even num den ∧ 2 * Z.abs (round_half_even num den * den - num) ≤ den.
Proof.
  intros Hn Hd. unfold round_half_even.
  pose proof (Z.div_mod num den) as E. pose proof (Z.mod_pos_bound num den Hd) as B.
  assert (0 ≤ num / den) as Q by (apply Z.div_pos; lia).
  set (q := num / den) in *. set (r := num mod den) in *.
  assert (num = q * den + r) as E' by lia. clearbody q r. clear E.
  destruct (2 * r <? den) eqn:H1; [apply Z.ltb_lt in H1 | apply Z.ltb_ge in H1].
  - split; [lia|]. replace (q * den - num) with (- r) by lia. lia.
  - destruct (den <? 2 * r) eqn:H2; [apply Z.ltb_lt in H2 | apply Z.ltb_ge in H2].
    + split; [lia|]. replace ((q + 1) * den - num) with (den - r) by lia. lia.
    + destruct (Z.even q).
      * split; [lia|]. replace (q * den - num) with (- r) by lia. lia.
      * split; [lia|]. replace ((q + 1) * den - num) with (den - r) by lia. lia.
Qed.

Lemma timedelta_microseconds_near (ticks : Z) :
  0 ≤ ticks < 2 ^ 64 →
  0 ≤ timedelta_microseconds (true_divide ticks 10)
  ∧ Z.abs (10 * timedelta_microseconds (true_divide ticks 10) - ticks) ≤ 1280.
Proof.
  intros Ht. unfold true_divide.
  destruct (ticks <=? 0) eqn:H0; [apply Z.leb_le in H0 | apply Z.leb_gt in H0].
  { assert (ticks = 0) as -> by lia. simpl. lia. }
  change (Z.log2 10) with 3.
  assert (Z.log2 ticks ≤ 63) as Hlog.
  { assert (Z.log2 ticks < 64); [|lia]. apply Z.log2_lt_pow2; lia. }
  pose proof (Z.log2_nonneg ticks) as Hlog0.
  set (k := Z.log2 ticks - 3) in *.
  set (lg := if (if 0 <=? k then 10 * 2 ^ k <=? ticks else 10 <=? ticks * 2 ^ (- k))
             then k else k - 1).
  assert (lg ≤ 60) as Hlg by (subst lg; destruct (if 0 <=? k then _ else _); lia).
  clearbody lg.
  destruct (0 <=? lg - 52) eqn:He; [apply Z.leb_le in He | apply Z.leb_gt in He].
  - cbn [timedelta_microseconds]. apply Z.leb_le in He as He'. rewrite He'.
    assert (1 ≤ 2 ^ (lg - 52) ≤ 2 ^ 8) as HP.
    { split; [apply (Z.pow_le_mono_r 2 0); lia | apply Z.pow_le_mono_r; lia]. }
    change (2 ^ 8) with 256 in HP.
    set (P := 2 ^ (lg - 52)) in *. clearbody P.
    destruct (round_half_even_bound ticks (10 * P)) as [Hm Hb]; [lia..|].
    set (m := round_half_even ticks (10 * P)) in *. clearbody m.
    split; [nia|]. replace (10 * (m * P) - ticks) with (m * (10 * P) - ticks) by lia. lia.
  - cbn [timedelta_microseconds]. apply Z.leb_gt in He as He'. rewrite He'.
    assert (1 ≤ 2 ^ (- (lg - 52))) as HQ by (apply (Z.pow_le_mono_r 2 0); lia).
    set (Q := 2 ^ (- (lg - 52))) in *. clearbody Q.
    destruct (round_half_even_bound (ticks * Q) 10) as [Hm Hb]; [nia | lia |].
    set (m := round_half_even (ticks * Q) 10) in *. clearbody m.
    destruct (round_half_even_bound m Q) as [Hu Hc]; [lia..|].
    set (us := round_half_even m Q) in *. clearbody us.
    split; [exact Hu|]. nia.
Qed.

Lemma digit_char_digit (d : Z) :
  0 ≤ d ≤ 9 → is_digit (digit_char d) = true ∧ Z.of_N (digit_char d) - 48 = d.
Proof.
  intros Hd. unfold is_digit, digit_char.
  split; [apply andb_true_iff; split; apply N.leb_le; lia | lia].
Qed.

Lemma read_two_digits (n : Z) (t : pystr) :
  0 ≤ n < 100 → read_digits 2 0 (two_digits n ++ t) = Some (n, t).
Proof.
  intros Hn. unfold two_digits. cbn [app read_digits].
  destruct (digit_char_digit (n / 10)) as [-> ->]; [Z.div_mod_to_equations; lia|].
  destruct (digit_char_digit (n mod 10)) as [-> ->]; [Z.div_mod_to_equations; lia|].
  do 2 f_equal. Z.div_mod_to_equations; lia.
Qed.

Lemma read_four_digits (n : Z) (t : pystr) :
  0 ≤ n < 10000 → read_digits 4 0 (four_digits n ++ t) = Some (n, t).
Proof.
  intros Hn. unfold four_digits. cbn [app read_digits].
  destruct (digit_char_digit (n / 1000)) as [-> ->]; [Z.div_mod_to_equations; lia|].
  destruct (digit_char_digit (n / 100 mod 10)) as [-> ->]; [Z.div_mod_to_equations; lia|].
  destruct (digit_char_digit (n / 10 mod 10)) as [-> ->]; [Z.div_mod_to_equations; lia|].
  destruct (digit_char_digit (n mod 10)) as [-> ->]; [Z.div_mod_to_equations; lia|].
  do 2 f_equal. Z.div_mod_to_equations; lia.
Qed.

Lemma timestamp_fields_strftime (y mo d h mi s : Z) :
  0 ≤ y < 10000 → 0 ≤ mo < 100 → 0 ≤ d < 100 →
  0 ≤ h < 100 → 0 ≤ mi < 100 → 0 ≤ s < 100 →
  timestamp_fields (strftime y mo d h mi s) = Some (y, mo, d, h, mi, s)
  ∧ length (strftime y mo d h mi s) = 19%nat.
Proof.
  intros Hy Hmo Hd Hh Hmi Hs. split; [|reflexivity].
  unfold timestamp_fields, strftime.
  change (lit "-") with [45%N]. change (lit " ") with [32%N]. change (lit ":") with [58%N].
  rewrite read_two_digits by assumption. cbn [mbind option_bind expect app N.eqb Pos.eqb].
  rewrite read_two_digits by assumption. cbn [mbind option_bind expect app N.eqb Pos.eqb].
  rewrite read_four_digits by assumption. cbn [mbind option_bind expect app N.eqb Pos.eqb].
  rewrite read_two_digits by assumption. cbn [mbind option_bind expect app N.eqb Pos.eqb].
  rewrite read_two_digits by assumption. cbn [mbind option_bind expect app N.eqb Pos.eqb].
  rewrite <- (app_nil_r (two_digits s)).
  rewrite read_two_digits by assumption. reflexivity.
Qed.

Lemma days_in_month_bound (leap : bool) (m : Z) : days_in_month leap m ≤ 31.
Proof.
  unfold days_in_month. destruct (m =? 2); [destruct leap; lia|].
  destruct (_ || _); lia.
Qed.

Lemma filetime_string_fields (us : Z) :
  0 ≤ us < MAX_MICROSECONDS →
  ∃ y mo d h mi s,
    filetime_string us = Ok (strftime y mo d h mi s)
    ∧ timestamp_fields (strftime y mo d h mi s) = Some (y, mo, d, h, mi, s)
    ∧ length (strftime y mo d h mi s) = 19%nat
    ∧ 1601 ≤ y ≤ 9999 ∧ 1 ≤ mo ≤ 12 ∧ 1 ≤ d ≤ days_in_month (is_leap y) mo
    ∧ 0 ≤ h < 24 ∧ 0 ≤ mi < 60 ∧ 0 ≤ s < 60
    ∧ seconds_since_1601 y mo d h mi s = us / 1000000.
Proof.
  intros Hus. unfold MAX_MICROSECONDS, MAXORDINAL, EPOCH_ORDINAL in Hus.
  unfold filetime_string.
  set (days := us / 86400000000). set (secs := us mod 86400000000 / 1000000).
  assert (0 ≤ days ≤ 3067670 ∧ 0 ≤ secs < 86400
          ∧ days * 86400 + secs = us / 1000000) as (Hdays & Hsecs & Hsum)
    by (subst days secs; Z.div_mod_to_equations; lia).
  clearbody days secs.
  destruct (ord2ymd_spec (EPOCH_ORDINAL + days)) as (y & mo & d & Hymd & Hy & Hy' & Hmo & Hd & Hord);
    [unfold EPOCH_ORDINAL, MAXORDINAL; lia|].
  assert ((0 <? EPOCH_ORDINAL + days) && (EPOCH_ORDINAL + days <=? MAXORDINAL) = true) as ->.
  { apply andb_true_iff. unfold EPOCH_ORDINAL, MAXORDINAL. split; [apply Z.ltb_lt | apply Z.leb_le]; lia. }
  rewrite Hymd.
  exists y, mo, d, (secs / 3600), (secs mod 3600 / 60), (secs mod 60).
  specialize (Hy' ltac:(lia)).
  pose proof (days_in_month_bound (is_leap y) mo) as Hdim.
  split; [reflexivity|].
  assert (0 ≤ secs / 3600 < 24 ∧ 0 ≤ secs mod 3600 / 60 < 60 ∧ 0 ≤ secs mod 60 < 60
          ∧ secs / 3600 * 3600 + secs mod 3600 / 60 * 60 + secs mod 60 = secs)
    as (Hh & Hmi & Hs & Hhms) by (Z.div_mod_to_equations; lia).
  destruct (timestamp_fields_strftime y mo d (secs / 3600) (secs mod 3600 / 60) (secs mod 60))
    as [Hf Hl]; [lia..|].
  split; [exact Hf|]. split; [exact Hl|].
  repeat (split; [lia|]).
  unfold seconds_since_1601. rewrite Hord.
  change (ymd2ord 1601 1 1) with EPOCH_ORDINAL. lia.
Qed.

Lemma parse_filetime_reads (skip raw rest : bytes) (pos : Z) :
  length skip = 4%nat → length raw = 8%nat →
  parse_filetime (File (skip ++ raw ++ rest) pos)
  = do s <- filetime_string (filetime_microseconds raw);
    Ok (s, File rest (pos + 12)).
Proof.
  intros Hs Hr. unfold parse_filetime.
  rewrite (read_app 4 skip), (read_app 8 raw) by assumption.
  rewrite byte_swap_to_int_hexlify. cbn [bind].
  unfold filetime_microseconds.
  destruct (filetime_string _); cbn [bind]; [|reflexivity..].
  do 3 f_equal. lia.
Qed.

(** C8, as stated, fails: twelve bytes are not enough for a timestamp to come
    out.  The tick count [2^64 - 1] lies beyond [datetime.max], and the
    addition to the epoch raises [OverflowError]. *)
Lemma parse_filetime_overflow :
  length (repeat x00 4 ++ repeat xff 8) = 12%nat
  ∧ parse_filetime (File (repeat x00 4 ++ repeat xff 8) 0) = Raise OverflowError.
Proof. split; vm_compute; reflexivity. Qed.

(** C8, amended.  With at least 12 bytes left, [parse_filetime] skips 4
    bytes, reads the next 8 as a little-endian count of 100-nanosecond ticks
    since 1601-01-01 00:00:00 and converts it to whole microseconds (at most
    1280 ticks away from the count).  When that instant is within the range
    of [datetime], the result is a text of 19 characters of the form
    MM-DD-YYYY HH:MM:SS whose fields are a date and a time of day, namely
    those of the instant truncated to the second.  A count of 0 gives
    01-01-1601 00:00:00 and a count of 10,000,000 gives 01-01-1601 00:00:01. *)
Theorem parse_filetime_timestamp (skip raw rest : bytes) (pos : Z) :
  length skip = 4%nat → length raw = 8%nat →
  filetime_microseconds raw < MAX_MICROSECONDS →
  Z.abs (10 * filetime_microseconds raw - le_value raw) ≤ 1280
  ∧ ∃ text y mo d h mi s,
      parse_filetime (File (skip ++ raw ++ rest) pos) = Ok (text, File rest (pos + 12))
      ∧ length text = 19%nat
      ∧ timestamp_fields text = Some (y, mo, d, h, mi, s)
      ∧ 1601 ≤ y ≤ 9999 ∧ 1 ≤ mo ≤ 12 ∧ 1 ≤ d ≤ days_in_month (is_leap y) mo
      ∧ 0 ≤ h < 24 ∧ 0 ≤ mi < 60 ∧ 0 ≤ s < 60
      ∧ seconds_since_1601 y mo d h mi s = filetime_microseconds raw / 1000000
      ∧ (le_value raw = 0 → text = lit "01-01-1601 00:00:00")
      ∧ (le_value raw = 10000000 → text = lit "01-01-1601 00:00:01").
Proof.
  intros Hs Hr Hmax.
  pose proof (le_value_range raw) as Hticks. rewrite Hr in Hticks.
  change (256 ^ Z.of_nat 8) with (2 ^ 64) in Hticks.
  destruct (timedelta_microseconds_near (le_value raw) Hticks) as [Hpos Hnear].
  fold (filetime_microseconds raw) in Hpos, Hnear.
  split; [exact Hnear|].
  destruct (filetime_string_fields (filetime_microseconds raw))
    as (y & mo & d & h & mi & s & Hstr & Hf & Hl & Hy & Hmo & Hd & Hh & Hmi & Hsec & Hsum);
    [lia|].
  exists (strftime y mo d h mi s), y, mo, d, h, mi, s.
  split; [rewrite parse_filetime_reads, Hstr by assumption; reflexivity|].
  repeat (split; [assumption|]).
  unfold filetime_microseconds in Hstr.
  split; intros Hv; rewrite Hv in Hstr.
  - assert (filetime_string (timedelta_microseconds (true_divide 0 10))
            = Ok (lit "01-01-1601 00:00:00")) as E by (vm_compute; reflexivity).
    congruence.
  - assert (filetime_string (timedelta_microseconds (true_divide 10000000 10))
            = Ok (lit "01-01-1601 00:00:01")) as E by (vm_compute; reflexivity).
    congruence.
Qed.

Lemma parse_filetime_timestamp_witness :
  Z.abs (10 * filetime_microseconds [x80; x96; x98; x00; x00; x00; x00; x00]
         - le_value [x80; x96; x98; x00; x00; x00; x00; x00]) ≤ 1280
  ∧ ∃ text y mo d h mi s,
      parse_filetime
        (File ([x00; x00; x00; x00] ++ [x80; x96; x98; x00; x00; x00; x00; x00] ++ [x41]) 100)
      = Ok (text, File [x41] (100 + 12))
      ∧ length text = 19%nat
      ∧ timestamp_fields text = Some (y, mo, d, h, mi, s)
      ∧ 1601 ≤ y ≤ 9999 ∧ 1 ≤ mo ≤ 12 ∧ 1 ≤ d ≤ days_in_month (is_leap y) mo
      ∧ 0 ≤ h < 24 ∧ 0 ≤ mi < 60 ∧ 0 ≤ s < 60
      ∧ seconds_since_1601 y mo d h mi s
        = filetime_microseconds [x80; x96; x98; x00; x00; x00; x00; x00] / 1000000
      ∧ (le_value [x80; x96; x98; x00; x00; x00; x00; x00] = 0
         → text = lit "01-01-1601 00:00:00")
      ∧ (le_value [x80; x96; x98; x00; x00; x00; x00; x00] = 10000000
         → text = lit "01-01-1601 00:00:01").
Proof.
  apply (parse_filetime_timestamp [x00; x00; x00; x00]
           [x80; x96; x98; x00; x00; x00; x00; x00] [x41] 100).
  - reflexivity.
  - reflexivity.
  - vm_compute. reflexivity.
Defined.


(** * Further properties *)

Lemma utf8_single (b : byte) :
  utf8 [b] = if (Byte.to_N b <? 128)%N then Ok [Byte.to_N b] else Raise UnicodeDecodeError.
Proof. destruct b; reflexivity. Qed.

Lemma int16_hex_byte (b : byte) :
  is_hex_byte b = true →
  (Byte.to_N b <? 128)%N = true ∧ ∃ d, int16 (Byte.to_N b) = Ok d ∧ 0 ≤ d < 16.
Proof.
  destruct b; try discriminate; intros _;
    (split; [reflexivity | eexists; split; [reflexivity | simpl; lia]]).
Qed.

Lemma int16_not_hex_byte (b : byte) :
  is_hex_byte b = false → int16 (Byte.to_N b) = Raise ValueError.
Proof. destruct b; try discriminate; reflexivity. Qed.

Lemma nibbles_hex (hexval : bytes) :
  Forall (λ b, is_hex_byte b = true) hexval →
  ∃ ds, nibbles hexval = Ok ds ∧ length ds = length hexval
        ∧ Forall (λ d, 0 ≤ d < 16) ds.
Proof.
  induction 1 as [|b t Hb Ht (ds & IH & Hl & Hd)].
  - exists []. repeat split. constructor.
  - destruct (int16_hex_byte b Hb) as (Ha & d & Hi & Hr).
    exists (d :: ds). cbn [nibbles].
    rewrite utf8_single, Ha. cbn [bind]. rewrite Hi. cbn [bind]. rewrite IH. cbn [bind].
    split; [reflexivity|]. split; [simpl; lia|]. constructor; assumption.
Qed.

Lemma nibbles_not_hex (hexval : bytes) :
  ¬ Forall (λ b, is_hex_byte b = true) hexval →
  nibbles hexval = Raise ValueError ∨ nibbles hexval = Raise UnicodeDecodeError.
Proof.
  induction hexval as [|b t IH]; intros Hn.
  - destruct Hn. constructor.
  - cbn [nibbles]. rewrite utf8_single.
    destruct (is_hex_byte b) eqn:Hb.
    + destruct (int16_hex_byte b Hb) as (Ha & d & Hi & _).
      rewrite Ha. cbn [bind]. rewrite Hi. cbn [bind].
      destruct IH as [E|E]; [intros Hf; apply Hn; constructor; assumption| |];
        rewrite E; auto.
    + destruct (_ <? _)%N; cbn [bind]; [|auto].
      rewrite (int16_not_hex_byte b Hb). auto.
Qed.

Lemma concat_pairs_two (hexval : bytes) :
  concat (pairs hexval) = hexval ∧ ∀ a, concat (pairs (a :: hexval)) = a :: hexval.
Proof.
  induction hexval as [|b t [IH1 IH2]]; [split; reflexivity|].
  split; [apply IH2|]. intros a. cbn [pairs concat app]. now rewrite IH1.
Qed.

Lemma concat_pairs (hexval : bytes) : concat (pairs hexval) = hexval.
Proof. apply concat_pairs_two. Qed.

Lemma swapped_perm (hexval : bytes) : concat (reverse (pairs hexval)) ≡ₚ hexval.
Proof.
  rewrite <- (concat_pairs hexval) at 2.
  generalize (pairs hexval). intros l. induction l as [|x l IH]; [reflexivity|].
  rewrite reverse_cons, concat_app. cbn [concat]. rewrite app_nil_r, IH.
  apply Permutation_app_comm.
Qed.

Lemma be_digits_range (ds : list Z) :
  Forall (λ d, 0 ≤ d < 16) ds → 0 ≤ be_digits ds < 16 ^ Z.of_nat (length ds).
Proof.
  induction 1 as [|d t Hd Ht IH]; [simpl; lia|].
  cbn [be_digits length]. rewrite Nat2Z.inj_succ, Z.pow_succ_r by lia.
  assert (0 < 16 ^ Z.of_nat (length t)) by (apply Z.pow_pos_nonneg; lia). nia.
Qed.

(** X1.  [byte_swap_to_int] without [str_flag] accepts hexadecimal digits
    and nothing else: when every byte of its argument is an ASCII hexadecimal
    digit, of either case, it returns an integer [n] with [0 <= n < 16^len],
    whatever the length; when some byte is not, it raises [ValueError] or
    [UnicodeDecodeError]. *)
Theorem byte_swap_to_int_hex_digits_only (hexval : bytes) :
  (Forall (λ b, is_hex_byte b = true) hexval →
     ∃ n, byte_swap_to_int hexval false = Ok (VInt n)
          ∧ 0 ≤ n < 16 ^ Z.of_nat (length hexval))
  ∧ (¬ Forall (λ b, is_hex_byte b = true) hexval →
     byte_swap_to_int hexval false = Raise ValueError
     ∨ byte_swap_to_int hexval false = Raise UnicodeDecodeError).
Proof.
  unfold byte_swap_to_int. pose proof (swapped_perm hexval) as Hp.
  split; intros H.
  - destruct (nibbles_hex (concat (reverse (pairs hexval)))) as (ds & Hn & Hl & Hd).
    { rewrite Hp. exact H. }
    rewrite Hn. cbn [bind]. eexists. split; [reflexivity|].
    rewrite weigh_all. rewrite <- (Permutation_length Hp), <- Hl.
    apply be_digits_range, Hd.
  - destruct (nibbles_not_hex (concat (reverse (pairs hexval)))) as [E|E].
    { rewrite Hp. exact H. }
    all: rewrite E; auto.
Qed.

Lemma byte_swap_to_int_hex_digits_only_witness :
  (∃ n, byte_swap_to_int [x31; x66] false = Ok (VInt n)
        ∧ 0 ≤ n < 16 ^ Z.of_nat (length [x31; x66]))
  ∧ (byte_swap_to_int [x67] false = Raise ValueError
     ∨ byte_swap_to_int [x67] false = Raise UnicodeDecodeError).
Proof.
  split.
  - apply (proj1 (byte_swap_to_int_hex_digits_only [x31; x66])).
    repeat constructor.
  - apply (proj2 (byte_swap_to_int_hex_digits_only [x67])).
    intros H. apply Forall_cons_1 in H as [H _]. discriminate H.
Defined.

Lemma int16_hex_digit (b : byte) :
  int16 (Byte.to_N (hex_digit (Byte.to_N b / 16))) = Ok (byte_val b / 16)
  ∧ int16 (Byte.to_N (hex_digit (Byte.to_N b mod 16))) = Ok (byte_val b mod 16).
Proof. destruct b; split; reflexivity. Qed.

Lemma hex_text_value_hexlify (raw : bytes) (a : Z) :
  foldl (λ acc c, a ← acc; match int16 c with Ok d => Some (a * 16 + d) | _ => None end)
    (Some a) (ascii_str (hexlify raw))
  = Some (foldl (λ a b, a * 256 + byte_val b) a raw).
Proof.
  revert a. induction raw as [|b t IH]; intros a; [reflexivity|].
  change (ascii_str (hexlify (b :: t)))
    with (Byte.to_N (hex_digit (Byte.to_N b / 16))
          :: Byte.to_N (hex_digit (Byte.to_N b mod 16)) :: ascii_str (hexlify t)).
  cbn [foldl]. destruct (int16_hex_digit b) as [-> ->]. cbn [mbind option_bind].
  rewrite IH. do 2 f_equal. pose proof (Z.div_mod (byte_val b) 16). lia.
Qed.

Lemma foldl_reverse_le_value (raw : bytes) :
  foldl (λ a b, a * 256 + byte_val b) 0 (reverse raw) = le_value raw.
Proof.
  induction raw as [|b t IH]; [reflexivity|].
  rewrite reverse_cons, foldl_app. cbn [foldl le_value]. rewrite IH. lia.
Qed.

(** X2.  On the hex representation of a byte string [raw] of any length,
    [byte_swap_to_int] with [str_flag] returns the hex text of the bytes of
    [raw] in reverse order, of twice the length of [raw]; without the flag it
    returns the integer that this text denotes in base 16, which is below
    [256^len] and whose little-endian encoding on [len] bytes is [raw]. *)
Theorem byte_swap_to_int_both_flags (raw : bytes) :
  ∃ text n,
    byte_swap_to_int (hexlify raw) true = Ok (VStr text)
    ∧ byte_swap_to_int (hexlify raw) false = Ok (VInt n)
    ∧ text = ascii_str (hexlify (reverse raw))
    ∧ length text = (2 * length raw)%nat
    ∧ hex_text_value text = Some n
    ∧ 0 ≤ n < 256 ^ Z.of_nat (length raw)
    ∧ to_le_bytes (length raw) n = raw.
Proof.
  exists (ascii_str (hexlify (reverse raw))), (le_value raw).
  split; [|split; [|split; [reflexivity|split; [|split; [|split]]]]].
  - unfold byte_swap_to_int. rewrite swap_hexlify, utf8_hexlify. reflexivity.
  - apply byte_swap_to_int_hexlify.
  - rewrite length_ascii_hexlify, length_reverse. reflexivity.
  - unfold hex_text_value. rewrite hex_text_value_hexlify, foldl_reverse_le_value.
    reflexivity.
  - apply le_value_range.
  - apply to_le_bytes_value.
Qed.

Lemma parse_header_and_guid_reads (rest : bytes) (pos : Z) :
  parse_header_and_guid (File (magic_header ++ rest) pos)
  = Ok (ascii_str (hexlify (reverse (take 4 (drop 18 rest)))) ++ lit "-"
        ++ ascii_str (hexlify (reverse (take 2 (drop 22 rest)))) ++ lit "-"
        ++ ascii_str (hexlify (reverse (take 2 (drop 24 rest)))) ++ lit "-"
        ++ ascii_str (hexlify (take 2 (drop 26 rest))) ++ lit "-"
        ++ ascii_str (hexlify (take 6 (drop 28 rest))),
        File (drop 34 rest) (pos + 6 + Z.of_nat (min 34 (length rest)))).
Proof.
  unfold parse_header_and_guid.
  rewrite (read_app 6 magic_header) by reflexivity.
  destruct (decide (magic_header ≠ magic_header)) as [Hne|_]; [now destruct Hne|].
  unfold read. cbn [pending tell].
  rewrite flip_first_three, !swap_hexlify.
  cbn [lookup_total list_lookup_total].
  rewrite !utf8_hexlify. cbn [bind].
  rewrite !drop_drop. cbn [Nat.add].
  do 2 f_equal. f_equal.
  rewrite !length_take, !length_drop. lia.
Qed.

(** X3.  After a valid header [parse_header_and_guid] does not fail,
    however short the rest of the stream is: a read past the end returns what
    is left, so the identifier is made of the bytes that are present, always
    has its four dashes, and has [4 + 2 * min 16 (len - 18)] characters, where
    [len] bytes follow the header; the cursor moves by [6 + min 34 len]. *)
Theorem parse_header_and_guid_truncated (rest : bytes) (pos : Z) :
  ∃ guid,
    parse_header_and_guid (File (magic_header ++ rest) pos)
    = Ok (guid, File (drop 34 rest) (pos + 6 + Z.of_nat (min 34 (length rest))))
    ∧ guid = ascii_str (hexlify (reverse (take 4 (drop 18 rest)))) ++ lit "-"
             ++ ascii_str (hexlify (reverse (take 2 (drop 22 rest)))) ++ lit "-"
             ++ ascii_str (hexlify (reverse (take 2 (drop 24 rest)))) ++ lit "-"
             ++ ascii_str (hexlify (take 2 (drop 26 rest))) ++ lit "-"
             ++ ascii_str (hexlify (take 6 (drop 28 rest)))
    ∧ length guid = (4 + 2 * min 16 (length rest - 18))%nat.
Proof.
  eexists. split; [apply parse_header_and_guid_reads|split; [reflexivity|]].
  rewrite !length_app, !length_ascii_hexlify, !length_reverse, !length_take,
    !length_drop. change (length (lit "-")) with 1%nat. lia.
Qed.

(** X4.  [parse_filetime] never fails for lack of input.  On any stream it
    takes the bytes at offsets 4 to 12 of what is left, as many as there are,
    as a little-endian count of ticks, and moves the cursor by [min 12 len].
    When the instant is within the range of [datetime] the result is a text
    of 19 characters, and an empty stream gives 01-01-1601 00:00:00; when it
    is not, [OverflowError] is raised. *)
Theorem parse_filetime_total (f : file) :
  let raw := take 8 (drop 4 (pending f)) in
  (filetime_microseconds raw < MAX_MICROSECONDS →
     ∃ text, parse_filetime f
             = Ok (text, File (drop 12 (pending f))
                           (tell f + Z.of_nat (min 12 (length (pending f)))))
             ∧ length text = 19%nat
             ∧ (pending f = [] → text = lit "01-01-1601 00:00:00"))
  ∧ (MAX_MICROSECONDS ≤ filetime_microseconds raw →
     parse_filetime f = Raise OverflowError).
Proof.
  intros raw.
  assert (parse_filetime f
          = do s <- filetime_string (filetime_microseconds raw);
            Ok (s, File (drop 12 (pending f))
                     (tell f + Z.of_nat (min 12 (length (pending f)))))) as E.
  { unfold parse_filetime, read. cbn [pending tell].
    rewrite byte_swap_to_int_hexlify. cbn [bind]. fold raw.
    unfold filetime_microseconds.
    destruct (filetime_string _); cbn [bind]; [|reflexivity..].
    rewrite drop_drop. do 3 f_equal.
    subst raw. rewrite ?length_take, ?length_drop. lia. }
  assert (0 ≤ le_value raw < 2 ^ 64) as Hticks.
  { pose proof (le_value_range raw) as H.
    assert (length raw ≤ 8)%nat by (subst raw; rewrite length_take; lia).
    assert (256 ^ Z.of_nat (length raw) ≤ 256 ^ 8) by (apply Z.pow_le_mono_r; lia).
    change (256 ^ 8) with (2 ^ 64) in *. lia. }
  destruct (timedelta_microseconds_near (le_value raw) Hticks) as [Hpos _].
  fold (filetime_microseconds raw) in Hpos.
  split; intros H.
  - destruct (filetime_string_fields (filetime_microseconds raw))
      as (y & mo & d & h & mi & s & Hstr & _ & Hl & _); [lia|].
    exists (strftime y mo d h mi s). rewrite E, Hstr. cbn [bind].
    split; [reflexivity|]. split; [exact Hl|].
    intros Hnil. subst raw. rewrite Hnil in Hstr.
    assert (filetime_string (filetime_microseconds (take 8 (drop 4 [])))
            = Ok (lit "01-01-1601 00:00:00")) as E0 by (vm_compute; reflexivity).
    congruence.
  - rewrite E. unfold filetime_string.
    assert (MAXORDINAL < EPOCH_ORDINAL + filetime_microseconds raw / 86400000000) as Hd.
    { unfold MAX_MICROSECONDS, MAXORDINAL, EPOCH_ORDINAL in *.
      Z.div_mod_to_equations; lia. }
    apply Z.leb_gt in Hd. rewrite Hd, andb_false_r. reflexivity.
Qed.

Lemma parse_filetime_total_witness :
  let f := File [x00; x00; x00; x00; x80; x96; x98; x00; x00; x00; x00; x00; x07] 0 in
  let g := File (repeat x00 4 ++ repeat xff 8) 0 in
  (∃ text, parse_filetime f
           = Ok (text, File (drop 12 (pending f))
                         (tell f + Z.of_nat (min 12 (length (pending f)))))
           ∧ length text = 19%nat
           ∧ (pending f = [] → text = lit "01-01-1601 00:00:00"))
  ∧ parse_filetime g = Raise OverflowError.
Proof.
  intros f g. split.
  - apply (proj1 (parse_filetime_total f)). vm_compute. reflexivity.
  - apply (proj2 (parse_filetime_total g)). vm_compute. discriminate.
Defined.

Lemma parse_unmapped_value_unfold (fuel : nat) (f : file) :
  parse_unmapped_value fuel f
  = do r <- while fuel (λ _, true) seek_zero_run (read 1 f);
    match r with
    | inr ret => Ok ret
    | inl (_, f) => collect_value fuel f
    end.
Proof. unfold parse_unmapped_value, collect_value. destruct (read 1 f). reflexivity. Qed.

Lemma while_fuel_mono {S R} (cond : S → bool) (body body' : S → outcome (flow S R)) :
  (∀ s fl, body s = Ok fl → body' s = Ok fl) →
  ∀ fuel fuel' s r, (fuel ≤ fuel')%nat →
    while fuel cond body s = Ok r → while fuel' cond body' s = Ok r.
Proof.
  intros Hb fuel. induction fuel as [|fuel IH]; intros fuel' s r Hle; [discriminate|].
  destruct fuel' as [|fuel']; [lia|]. cbn [while].
  destruct (cond s); [|auto].
  destruct (body s) as [fl| |] eqn:E; cbn [bind]; try discriminate.
  rewrite (Hb s fl E). cbn [bind].
  destruct fl; auto. apply IH. lia.
Qed.

Lemma collect_body_fuel_mono (fuel fuel' : nat) (st : bytes * bytes * file)
    (fl : flow (bytes * bytes * file) (pyval * file)) :
  (fuel ≤ fuel')%nat → collect_body fuel st = Ok fl → collect_body fuel' st = Ok fl.
Proof.
  intros Hle. unfold collect_body.
  destruct (while fuel _ caution_body st) as [r| |] eqn:E; cbn [bind]; try discriminate.
  rewrite (while_fuel_mono _ caution_body caution_body (λ _ _ H, H) fuel fuel' st r Hle E).
  auto.
Qed.

Lemma collect_value_fuel_mono (fuel fuel' : nat) (f : file) (r : pyval * file) :
  (fuel ≤ fuel')%nat → collect_value fuel f = Ok r → collect_value fuel' f = Ok r.
Proof.
  intros Hle. unfold collect_value.
  destruct (read 3 f) as [u f1]. destruct (read 1 f1) as [c f2].
  destruct (while fuel _ (collect_body fuel) _) as [res| |] eqn:E; cbn [bind];
    try discriminate.
  rewrite (while_fuel_mono _ (collect_body fuel) (collect_body fuel')
             (λ s fl, collect_body_fuel_mono fuel fuel' s fl Hle) fuel fuel' _ res Hle E).
  auto.
Qed.

Lemma parse_unmapped_value_fuel_mono (fuel fuel' : nat) (f : file) (r : pyval * file) :
  (fuel ≤ fuel')%nat →
  parse_unmapped_value fuel f = Ok r → parse_unmapped_value fuel' f = Ok r.
Proof.
  intros Hle. rewrite !parse_unmapped_value_unfold.
  destruct (while fuel _ seek_zero_run _) as [res| |] eqn:E; cbn [bind]; try discriminate.
  rewrite (while_fuel_mono _ seek_zero_run seek_zero_run (λ _ _ H, H) fuel fuel' _ res Hle E).
  cbn [bind]. destruct res as [[c f1]|ret]; [|auto].
  apply collect_value_fuel_mono, Hle.
Qed.

Lemma parse_unmapped_value_skip_one (b : byte) (rest : bytes) (pos : Z) (fuel : nat)
    (r : pyval * file) :
  b ≠ x00 →
  parse_unmapped_value fuel (File rest (pos + 1)) = Ok r →
  parse_unmapped_value (S fuel) (File (b :: rest) pos) = Ok r.
Proof.
  intros Hb H. rewrite parse_unmapped_value_unfold in *.
  change (read 1 (File (b :: rest) pos)) with ([b], File rest (pos + 1)).
  cbn [while].
  assert (seek_zero_run ([b], File rest (pos + 1))
          = Ok (Continue (read 1 (File rest (pos + 1))))) as ->.
  { unfold seek_zero_run.
    destruct (decide ([b] = [x00])) as [[= ->]|_]; [contradiction|].
    destruct (read 1 _). reflexivity. }
  cbn [bind].
  destruct (while fuel _ seek_zero_run _) as [res| |]; cbn [bind] in *; try discriminate.
  destruct res as [[c2 f2]|ret]; [|auto].
  revert H. apply collect_value_fuel_mono. lia.
Qed.

(** X5.  [parse_unmapped_value] skips what precedes the marker: putting
    bytes other than zero in front of a stream does not change the value
    returned nor the place where the cursor is left; the first loop takes one
    more turn per byte. *)
Theorem parse_unmapped_value_skips_prefix (prefix stream : bytes) (pos : Z) (fuel : nat)
    (r : pyval * file) :
  Forall (λ b, b ≠ x00) prefix →
  parse_unmapped_value fuel (File stream (pos + Z.of_nat (length prefix))) = Ok r →
  parse_unmapped_value (length prefix + fuel) (File (prefix ++ stream) pos) = Ok r.
Proof.
  intros Hp. revert pos. induction Hp as [|b p Hb Hp IH]; intros pos H.
  - cbn [length app Nat.add]. simpl in H. rewrite Z.add_0_r in H. exact H.
  - cbn [length app Nat.add]. apply parse_unmapped_value_skip_one; [exact Hb|].
    apply IH. rewrite <- H. do 2 f_equal. cbn [length]. lia.
Qed.

Lemma parse_unmapped_value_skips_prefix_witness :
  parse_unmapped_value (length [x41; x42] + 5)
    (File ([x41; x42] ++ [x00; x00; x00; x01; x02; x03; x41; x00; x00; x07]) 0)
  = Ok (VBytes (hexlify [x01; x02; x03; x41]), File [x07] 11).
Proof.
  apply (parse_unmapped_value_skips_prefix [x41; x42]
           [x00; x00; x00; x01; x02; x03; x41; x00; x00; x07] 0 5).
  - repeat constructor; discriminate.
  - vm_compute. reflexivity.
Defined.

Lemma while_unfold {S R} (n : nat) (cond : S → bool) (body : S → outcome (flow S R))
    (s : S) :
  while (Datatypes.S n) cond body s
  = if cond s then
      do fl <- body s;
      match fl with
      | Continue s' => while n cond body s'
      | Break s' => Ok (inl s')
      | Return r => Ok (inr r)
      end
    else Ok (inl s).
Proof. reflexivity. Qed.

Lemma collect_body_plain (F : nat) (acc : bytes) (y : byte) (f : file) :
  is_caution y = false →
  collect_body (S F) (acc, [y], f)
  = Ok (Continue (acc ++ [y], (read 1 f).1, (read 1 f).2)).
Proof.
  intros Hy. unfold collect_body. rewrite while_unfold. cbn [fst snd].
  fold (is_caution y). rewrite Hy. cbn [bind]. destruct (read 1 f). reflexivity.
Qed.

Lemma collect_body_stop (F : nat) (acc rest : bytes) (x : byte) (pos : Z) :
  is_caution x = true →
  collect_body (S F) (acc, [x], File (x00 :: rest) pos)
  = Ok (Return (VBytes (hexlify acc), File rest (pos + 1))).
Proof.
  intros Hx. unfold collect_body. rewrite while_unfold. cbn [fst snd].
  fold (is_caution x). rewrite Hx. reflexivity.
Qed.

Lemma collect_run (x : byte) (rest body : bytes) :
  is_caution x = true →
  Forall (λ y, is_caution y = false) body →
  ∀ acc pos n F,
    while (S (length body) + n) (λ _, true) (collect_body (S F))
      (acc, take 1 (body ++ x :: x00 :: rest),
       File (drop 1 (body ++ x :: x00 :: rest)) pos)
    = Ok (inr (VBytes (hexlify (acc ++ body)),
               File rest (pos + Z.of_nat (length body) + 1))).
Proof.
  intros Hx Hbody. induction Hbody as [|y body Hy Hb IH]; intros acc pos n F.
  - cbn [length app take drop Nat.add]. rewrite while_unfold, collect_body_stop by assumption.
    cbn [bind]. rewrite app_nil_r, Z.add_0_r. reflexivity.
  - cbn [length app take drop Nat.add]. rewrite take_0, drop_0.
    rewrite while_unfold, collect_body_plain by assumption. cbn [bind].
    assert (∃ z tl, body ++ x :: x00 :: rest = z :: tl) as (z & tl & E)
      by (destruct body; simpl; eauto).
    assert (read 1 (File (body ++ x :: x00 :: rest) pos)
            = (take 1 (body ++ x :: x00 :: rest),
               File (drop 1 (body ++ x :: x00 :: rest)) (pos + 1))) as ->
      by (rewrite E; reflexivity).
    cbn [fst snd].
    specialize (IH (acc ++ [y]) (pos + 1) n F). cbn [Nat.add] in IH.
    rewrite IH. rewrite <- app_assoc.
    replace (pos + 1 + Z.of_nat (length body) + 1)
      with (pos + Z.of_nat (S (length body)) + 1) by lia.
    reflexivity.
Qed.

Lemma seek_three_zeros (fuel : nat) (rest : bytes) (pos : Z) :
  while (S fuel) (λ _, true) seek_zero_run ([x00], File (x00 :: x00 :: rest) pos)
  = Ok (inl ([x00; x00; x00], File rest (pos + 1 + 1))).
Proof. reflexivity. Qed.

(** X6.  After the marker 00 00 00, [parse_unmapped_value] keeps the next
    three bytes whatever they are, then every byte [body] that is not a
    caution byte, and stops at the first caution byte that is followed by a
    zero byte: it returns the hex representation of the three bytes and
    [body], and leaves the cursor behind the zero byte. *)
Theorem parse_unmapped_value_accumulates (a b c x : byte) (body rest : bytes) (pos : Z)
    (fuel : nat) :
  Forall (λ y, is_caution y = false) body →
  is_caution x = true →
  parse_unmapped_value (S (length body) + fuel)
    (File ([x00; x00; x00; a; b; c] ++ body ++ [x; x00] ++ rest) pos)
  = Ok (VBytes (hexlify ([a; b; c] ++ body)),
        File rest (pos + 8 + Z.of_nat (length body))).
Proof.
  intros Hbody Hx. rewrite parse_unmapped_value_unfold.
  cbn [app]. change (S (length body) + fuel)%nat with (S (length body + fuel)).
  change (read 1 (File (x00 :: x00 :: x00 :: a :: b :: c :: body ++ x :: x00 :: rest) pos))
    with ([x00], File (x00 :: x00 :: a :: b :: c :: body ++ x :: x00 :: rest) (pos + 1)).
  rewrite seek_three_zeros. cbn [bind].
  unfold collect_value.
  change (read 3 (File (a :: b :: c :: body ++ x :: x00 :: rest) (pos + 1 + 1 + 1)))
    with ([a; b; c], File (body ++ x :: x00 :: rest) (pos + 1 + 1 + 1 + 3)).
  assert (∃ z tl, body ++ x :: x00 :: rest = z :: tl) as (z & tl & E)
    by (destruct body; simpl; eauto).
  assert (read 1 (File (body ++ x :: x00 :: rest) (pos + 1 + 1 + 1 + 3))
          = (take 1 (body ++ x :: x00 :: rest),
             File (drop 1 (body ++ x :: x00 :: rest)) (pos + 1 + 1 + 1 + 3 + 1))) as ->
    by (rewrite E; reflexivity).
  pose proof (collect_run x rest body Hx Hbody [a; b; c] (pos + 1 + 1 + 1 + 3 + 1)
                fuel (length body + fuel)) as Hrun.
  cbn [app Nat.add] in Hrun. rewrite Hrun. cbn [bind].
  replace (pos + 1 + 1 + 1 + 3 + 1 + Z.of_nat (length body) + 1)
    with (pos + 8 + Z.of_nat (length body)) by lia.
  reflexivity.
Qed.

Lemma parse_unmapped_value_accumulates_witness :
  parse_unmapped_value (S (length [x41; x42]) + 0)
    (File ([x00; x00; x00; x01; x02; x03] ++ [x41; x42] ++ [x32; x00] ++ [x07]) 0)
  = Ok (VBytes (hexlify ([x01; x02; x03] ++ [x41; x42])),
        File [x07] (0 + 8 + Z.of_nat (length [x41; x42]))).
Proof.
  apply (parse_unmapped_value_accumulates x01 x02 x03 x32 [x41; x42] [x07] 0 0).
  - repeat constructor.
  - reflexivity.
Defined.

Lemma while_reach {S R} (I : S → Prop) (cond : S → bool) (body : S → outcome (flow S R)) :
  (∀ s s', I s → body s = Ok (Continue s') → I s') →
  ∀ fuel s res, I s → while fuel cond body s = Ok res →
    match res with
    | inl s' => I s' ∨ ∃ s0, I s0 ∧ body s0 = Ok (Break s')
    | inr r => ∃ s0, I s0 ∧ body s0 = Ok (Return r)
    end.
Proof.
  intros Hb fuel. induction fuel as [|fuel IH]; intros s res Hs; [discriminate|].
  rewrite while_unfold. destruct (cond s) eqn:Hc.
  - destruct (body s) as [[s1|s1|r]| |] eqn:E; cbn [bind]; try discriminate.
    + apply IH. eapply Hb; eassumption.
    + intros [= <-]. right. eauto.
    + intros [= <-]. eauto.
  - intros [= <-]. left. exact Hs.
Qed.

Lemma while_exit_test {S R} (cond : S → bool) (body : S → outcome (flow S R))
    (fuel : nat) (s s' : S) :
  (∀ s0 s1, body s0 ≠ Ok (Break s1)) →
  while fuel cond body s = Ok (inl s') → cond s' = false.
Proof.
  intros Hnb H. apply while_left in H as [H|[s0 H]]; [exact H|]. now apply Hnb in H.
Qed.

Lemma read_length (n : nat) (f : file) :
  (length (read n f).1 ≤ n)%nat ∧ (pending f = [] → (read n f).1 = [] ∧ pending (read n f).2 = []).
Proof.
  unfold read. cbn [fst snd pending]. split; [rewrite length_take; lia|].
  intros ->. now rewrite take_nil, drop_nil.
Qed.

Lemma caution_body_collecting (st st' : bytes * bytes * file) :
  collecting st → caution_body st = Ok (Continue st') → collecting st'.
Proof.
  destruct st as [[acc chunk] f]. intros (first & tail & -> & H3 & Ht & Hc & He).
  unfold caution_body. destruct (read 1 f) as [next f'] eqn:Hr.
  case_decide; [discriminate|]. intros [= <-].
  pose proof (read_length 1 f) as [Hl Hnil]. rewrite Hr in Hl, Hnil. cbn [fst snd] in *.
  exists first, tail.
  split; [reflexivity|]. split; [exact H3|]. split; [exact Ht|]. split; [exact Hl|].
  intros Hlt. destruct (He Hlt) as [Hp _]. apply Hnil in Hp. tauto.
Qed.

Lemma caution_body_return (st : bytes * bytes * file) (ret : pyval * file) :
  collecting st → caution_body st = Ok (Return ret) →
  ∃ first tail, ret.1 = VBytes (hexlify (first ++ tail)) ∧ length first = 3%nat
                ∧ Forall (λ y, is_caution y = false) tail.
Proof.
  destruct st as [[acc chunk] f]. intros (first & tail & -> & H3 & Ht & Hc & He).
  unfold caution_body. destruct (read 1 f) as [next f'] eqn:Hr.
  case_decide as Hn; [|discriminate]. intros [= <-].
  exists first, tail. split; [reflexivity|]. split; [|exact Ht].
  destruct (decide (length first < 3)%nat) as [Hlt|]; [|lia].
  destruct (He Hlt) as [Hp _]. pose proof (read_length 1 f) as [_ Hnil].
  rewrite Hr in Hnil. cbn [fst] in Hnil. destruct (Hnil Hp) as [E _]. congruence.
Qed.

Lemma caution_body_no_break (s0 s1 : bytes * bytes * file) :
  caution_body s0 ≠ Ok (Break s1).
Proof.
  destruct (caution_body_flow s0) as [[? H]|[? H]]; rewrite H; discriminate.
Qed.

Lemma collect_body_collecting (F : nat) (st st' : bytes * bytes * file) :
  collecting st → collect_body F st = Ok (Continue st') → collecting st'.
Proof.
  intros Hst. unfold collect_body.
  destruct (while F _ caution_body st) as [[[[acc chunk] f]|ret]| |] eqn:Hw;
    cbn [bind]; try discriminate.
  destruct (read 1 f) as [next f'] eqn:Hr. intros [= <-].
  pose proof (while_exit_test _ _ _ _ _ caution_body_no_break Hw) as Hcond.
  cbn [fst snd] in Hcond.
  apply (while_reach collecting) in Hw; [|apply caution_body_collecting|exact Hst].
  destruct Hw as [Hw|(s0 & _ & Hbr)]; [|now apply caution_body_no_break in Hbr].
  destruct Hw as (first & tail & -> & H3 & Ht & Hc & He).
  pose proof (read_length 1 f) as [Hl Hnil]. rewrite Hr in Hl, Hnil. cbn [fst snd] in *.
  exists first, (tail ++ chunk). rewrite app_assoc.
  split; [reflexivity|]. split; [exact H3|]. split.
  - apply Forall_app. split; [exact Ht|].
    destruct chunk as [|y [|? ?]]; [constructor| |simpl in Hc; lia].
    constructor; [exact Hcond | constructor].
  - split; [exact Hl|]. intros Hlt. destruct (He Hlt) as [Hp _].
    apply Hnil in Hp. tauto.
Qed.

Lemma collect_body_return (F : nat) (st : bytes * bytes * file) (ret : pyval * file) :
  collecting st → collect_body F st = Ok (Return ret) →
  ∃ first tail, ret.1 = VBytes (hexlify (first ++ tail)) ∧ length first = 3%nat
                ∧ Forall (λ y, is_caution y = false) tail.
Proof.
  intros Hst. unfold collect_body.
  destruct (while F _ caution_body st) as [[[[acc chunk] f]|r]| |] eqn:Hw;
    cbn [bind]; try discriminate.
  intros [= <-].
  apply (while_reach collecting) in Hw; [|apply caution_body_collecting|exact Hst].
  destruct Hw as (s0 & Hs0 & Hret). eapply caution_body_return; eassumption.
Qed.

(** X7.  Whenever [parse_unmapped_value] returns, what it returns is the
    hex representation of at least three bytes: three bytes taken as they
    come, followed by bytes none of which is a caution byte. *)
Theorem parse_unmapped_value_shape (fuel : nat) (f f' : file) (r : pyval) :
  parse_unmapped_value fuel f = Ok (r, f') →
  ∃ first tail, r = VBytes (hexlify (first ++ tail))
                ∧ length first = 3%nat
                ∧ Forall (λ y, is_caution y = false) tail.
Proof.
  rewrite parse_unmapped_value_unfold.
  destruct (while fuel _ seek_zero_run _) as [[[c f1]|ret]| |] eqn:Hw1;
    cbn [bind]; try discriminate.
  - unfold collect_value. destruct (read 3 f1) as [u f2] eqn:Hr3.
    destruct (read 1 f2) as [c2 f3] eqn:Hr1.
    destruct (while fuel _ (collect_body fuel) _) as [[[[u' c'] f4]|ret]| |] eqn:Hw2;
      cbn [bind]; try discriminate.
    + apply while_left in Hw2 as [Hc|[s0 Hs0]]; [discriminate|].
      apply collect_body_cases in Hs0 as [[? ?]|(? & ? & ? & ?)]; discriminate.
    + intros [= ->].
      apply (while_reach collecting) in Hw2.
      * destruct Hw2 as (s0 & Hs0 & Hret).
        apply (collect_body_return _ _ _ Hs0) in Hret. exact Hret.
      * intros s s'. apply collect_body_collecting.
      * pose proof (read_length 3 f1) as [Hl3 Hn3]. rewrite Hr3 in Hl3, Hn3.
        pose proof (read_length 1 f2) as [Hl1 Hn1]. rewrite Hr1 in Hl1, Hn1.
        cbn [fst snd] in *.
        exists u, []. rewrite app_nil_r.
        split; [reflexivity|]. split; [exact Hl3|]. split; [constructor|].
        split; [exact Hl1|]. intros Hlt.
        assert (pending f2 = []) as Hp.
        { injection Hr3 as <- <-. cbn [pending].
          rewrite length_take in Hlt. apply drop_ge. lia. }
        apply Hn1 in Hp. tauto.
  - apply while_returned in Hw1 as [s0 Hs0].
    destruct (seek_zero_run_flow s0) as [[? H']|[? H']]; congruence.
Qed.

Lemma parse_unmapped_value_shape_witness :
  ∃ first tail,
    VBytes (hexlify [x01; x02; x03; x41]) = VBytes (hexlify (first ++ tail))
    ∧ length first = 3%nat
    ∧ Forall (λ y, is_caution y = false) tail.
Proof.
  apply (parse_unmapped_value_shape 5
           (File [x00; x00; x00; x01; x02; x03; x41; x00; x00; x07] 2) (File [x07] 11)).
  vm_compute. reflexivity.
Defined.

(** ** The cursor only moves forward *)

Lemma advanced_refl (f : file) : advanced f f.
Proof. exists []. split; [reflexivity | simpl; lia]. Qed.

Lemma advanced_trans (f1 f2 f3 : file) : advanced f1 f2 → advanced f2 f3 → advanced f1 f3.
Proof.
  intros (c1 & E1 & T1) (c2 & E2 & T2). exists (c1 ++ c2).
  rewrite E1, E2, <- app_assoc, length_app. split; [reflexivity | lia].
Qed.

Lemma read_advanced (n : nat) (f f' : file) (got : bytes) :
  read n f = (got, f') → advanced f f'.
Proof.
  unfold read. intros [= <- <-]. exists (take n (pending f)). cbn [pending tell].
  split; [now rewrite take_drop | reflexivity].
Qed.

Ltac forward :=
  repeat match goal with
    | H : read _ _ = (_, _) |- _ => apply read_advanced in H
    end;
  subst; simpl_vars;
  eauto 7 using advanced_refl, advanced_trans.

Lemma seek_zero_run_advanced (st st' : bytes * file) :
  seek_zero_run st = Ok (Continue st') ∨ seek_zero_run st = Ok (Break st') →
  advanced st.2 st'.2.
Proof.
  destruct st as [chunk f]. unfold seek_zero_run. cbn [snd].
  intros [H|H]; revert H; ok_cases; cbn [snd]; forward.
Qed.

Lemma caution_body_advanced (st : bytes * bytes * file) :
  (∀ st', caution_body st = Ok (Continue st') → advanced st.2 st'.2)
  ∧ (∀ ret, caution_body st = Ok (Return ret) → advanced st.2 ret.2).
Proof.
  destruct st as [[acc chunk] f]. unfold caution_body. cbn [snd].
  split; intros ?; ok_cases; cbn [snd]; forward.
Qed.

Lemma collect_body_advanced (F : nat) (st : bytes * bytes * file) :
  (∀ st', collect_body F st = Ok (Continue st') → advanced st.2 st'.2)
  ∧ (∀ ret, collect_body F st = Ok (Return ret) → advanced st.2 ret.2).
Proof.
  unfold collect_body.
  split; intros x;
    (destruct (while F _ caution_body st) as [[[[acc chunk] f]|ret]| |] eqn:Hw;
     cbn [bind]; try discriminate).
  - destruct (read 1 f) as [next f'] eqn:Hr. intros [= <-]. cbn [snd].
    apply (while_reach (λ s, advanced st.2 s.2)) in Hw; [| |apply advanced_refl].
    + destruct Hw as [Hw|(s0 & _ & Hbr)]; [|now apply caution_body_no_break in Hbr].
      cbn [snd] in Hw. forward.
    + intros s s' Hs Hc. apply caution_body_advanced in Hc. forward.
  - intros [= <-].
    apply (while_reach (λ s, advanced st.2 s.2)) in Hw; [| |apply advanced_refl].
    + destruct Hw as (s0 & Hs0 & Hret). apply caution_body_advanced in Hret. forward.
    + intros s s' Hs Hc. apply caution_body_advanced in Hc. forward.
Qed.

Lemma parse_unmapped_value_advanced (fuel : nat) (f f' : file) (r : pyval) :
  parse_unmapped_value fuel f = Ok (r, f') → advanced f f'.
Proof.
  rewrite parse_unmapped_value_unfold.
  destruct (read 1 f) as [c0 f0] eqn:Hr0.
  destruct (while fuel _ seek_zero_run _) as [[[c f1]|ret]| |] eqn:Hw1;
    cbn [bind]; try discriminate.
  - apply (while_reach (λ s, advanced f s.2)) in Hw1.
    2:{ intros s s' Hs Hc. eapply advanced_trans; [exact Hs|].
        apply seek_zero_run_advanced. auto. }
    2:{ cbn [snd]. forward. }
    assert (advanced f f1) as Hf1.
    { destruct Hw1 as [Hw1|(s0 & Hs0 & Hbr)]; [exact Hw1|].
      eapply advanced_trans; [exact Hs0|].
      apply (seek_zero_run_advanced s0 (c, f1)). auto. }
    unfold collect_value. destruct (read 3 f1) as [u f2] eqn:Hr3.
    destruct (read 1 f2) as [c2 f3] eqn:Hr1.
    destruct (while fuel _ (collect_body fuel) _) as [[[[u' c'] f4]|ret]| |] eqn:Hw2;
      cbn [bind]; try discriminate.
    + apply while_left in Hw2 as [Hc|[s0 Hs0]]; [discriminate|].
      apply collect_body_cases in Hs0 as [[? ?]|(? & ? & ? & ?)]; discriminate.
    + intros [= ->].
      apply (while_reach (λ s, advanced f3 s.2)) in Hw2; [| |apply advanced_refl].
      * destruct Hw2 as (s0 & Hs0 & Hret). apply collect_body_advanced in Hret.
        cbn [snd] in *. forward.
      * intros s s' Hs Hc. apply collect_body_advanced in Hc. forward.
  - apply while_returned in Hw1 as [s0 Hs0].
    destruct (seek_zero_run_flow s0) as [[? H']|[? H']]; congruence.
Qed.

Lemma parse_filetime_advanced (f f' : file) (s : pystr) :
  parse_filetime f = Ok (s, f') → advanced f f'.
Proof. unfold parse_filetime. ok_cases. forward. Qed.

Lemma parse_header_and_guid_advanced (f f' : file) (g : pystr) :
  parse_header_and_guid f = Ok (g, f') → advanced f f'.
Proof.
  unfold parse_header_and_guid.
  destruct (read 6 f) as [h f0] eqn:H0. case_decide; [discriminate|].
  destruct (read 18 f0) as [? f1] eqn:H1. destruct (read 4 f1) as [? f2] eqn:H2.
  destruct (read 2 f2) as [? f3] eqn:H3. destruct (read 2 f3) as [? f4] eqn:H4.
  destruct (read 2 f4) as [? f5] eqn:H5. destruct (read 6 f5) as [? f6] eqn:H6.
  ok_cases. subst.
  apply read_advanced in H0, H1, H2, H3, H4, H5, H6.
  repeat (eapply advanced_trans; [eassumption|]). apply advanced_refl.
Qed.

(** X8.  The three readers only consume input: when
    [parse_unmapped_value], [parse_filetime] or [parse_header_and_guid]
    returns, what is left of the stream is a suffix of what it was given, and
    the offset has grown by the number of bytes consumed. *)
Theorem parsers_only_advance (f f' : file) :
  (∀ fuel r, parse_unmapped_value fuel f = Ok (r, f') → advanced f f')
  ∧ (∀ s, parse_filetime f = Ok (s, f') → advanced f f')
  ∧ (∀ g, parse_header_and_guid f = Ok (g, f') → advanced f f').
Proof.
  split; [|split].
  - intros fuel r. apply parse_unmapped_value_advanced.
  - intros s. apply parse_filetime_advanced.
  - intros g. apply parse_header_and_guid_advanced.
Qed.

Lemma parsers_only_advance_witness :
  advanced (File [x00; x00; x00; x01; x02; x03; x41; x00; x00; x07] 2) (File [x07] 11)
  ∧ advanced
      (File [x00; x00; x00; x00; x80; x96; x98; x00; x00; x00; x00; x00; x07] 0)
      (File [x07] 12)
  ∧ advanced (File (magic_header ++ repeat x00 34 ++ [x07]) 0) (File [x07] 40).
Proof.
  split; [|split].
  - apply (proj1 (parsers_only_advance _ _) 5%nat (VBytes (hexlify [x01; x02; x03; x41]))).
    vm_compute. reflexivity.
  - apply (proj1 (proj2 (parsers_only_advance _ _)) (lit "01-01-1601 00:00:01")).
    vm_compute. reflexivity.
  - apply (proj2 (proj2 (parsers_only_advance _ _))
             (lit "00000000-0000-0000-0000-000000000000")).
    vm_compute. reflexivity.
Defined.

(** ** What every turn of a section loop keeps *)



Lemma unmapped_int_advanced (fuel : nat) (f f' : file) (flag : bool) (x : pyval) :
  unmapped_int fuel f flag = Ok (x, f') → advanced f f'.
Proof.
  unfold unmapped_int.
  destruct (parse_unmapped_value fuel f) as [[r f1]| |] eqn:E; cbn [bind]; try discriminate.
  apply parse_unmapped_value_advanced in E. ok_cases. subst. exact E.
Qed.

Lemma dom_insert_mono (d d' : dict) (k : pystr) (x : pyval) :
  dom d ⊆ dom d' → dom d ⊆ dom (<[k := x]> d').
Proof. intros H. rewrite dom_insert_L. etrans; [exact H | apply union_subseteq_r]. Qed.

Lemma iadd_decoded_mono (d d1 d' : dict) (k : pystr) (chunk : bytes) :
  iadd_decoded d1 k chunk = Ok d' → dom d ⊆ dom d1 → dom d ⊆ dom d'.
Proof.
  intros H Hd. apply iadd_decoded_dom in H. rewrite H.
  etrans; [exact Hd | apply union_subseteq_r].
Qed.

Ltac ok_all :=
  repeat (ok_cases;
          try match goal with
            | H : bind _ _ = Ok _ |- _ => revert H
            | H : (if _ then _ else _) = Ok _ |- _ => revert H
            | H : match _ with _ => _ end = Ok _ |- _ => revert H
            end).

Ltac grows :=
  repeat first
    [ assumption
    | reflexivity
    | apply dom_insert_mono
    | match goal with
      | H : iadd_decoded _ _ _ = Ok ?d |- _ ⊆ dom ?d => apply (iadd_decoded_mono _ _ _ _ _ H)
      end ].

Ltac step_facts :=
  repeat match goal with
    | H : read _ _ = (_, _) |- _ => apply read_advanced in H
    | H : parse_filetime _ = Ok (_, _) |- _ => apply parse_filetime_advanced in H
    | H : unmapped_int _ _ _ = Ok (_, _) |- _ => apply unmapped_int_advanced in H
    end.

Ltac turn :=
  unfold turn_ok;
  match goal with
  | Hr : read 2 _ = (?chunk, ?f1) |- _ =>
    exists chunk, f1; split; [exact Hr|]; clear Hr
  end;
  step_facts; subst; cbn [flow_vars]; simpl_vars;
  split; [eauto 7 using advanced_refl, advanced_trans|];
  split; [grows | try (intros ? ?; assumption); try discriminate].

Lemma magic_body_turn (v : vars) (fl : flow vars Empty_set) :
  magic_body v = Ok fl → turn_ok v fl.
Proof.
  unfold magic_body.
  destruct (read 2 (fobj v)) as [chunk f1] eqn:Hr.
  case_decide as Hc; ok_all; turn.
Qed.

Ltac kept :=
  step_facts; subst; simpl_vars;
  split; [eauto 7 using advanced_refl, advanced_trans | grows].

Lemma general_end_key_kept (fuel : nat) (v v' : vars) :
  general_end_key fuel v = Ok v' →
  advanced (fobj v) (fobj v') ∧ dom (parsed_value_dict v) ⊆ dom (parsed_value_dict v').
Proof. unfold general_end_key. ok_all; kept. Qed.

Lemma general_end_value_kept (fuel : nat) (v v' : vars) :
  general_end_value fuel v = Ok v' →
  advanced (fobj v) (fobj v') ∧ dom (parsed_value_dict v) ⊆ dom (parsed_value_dict v').
Proof. unfold general_end_value. ok_all; kept. Qed.

Lemma eof_null_try_kept (v v' : vars) (chunk : bytes) :
  eof_null_try v chunk = Ok v' →
  advanced (fobj v) (fobj v') ∧ dom (parsed_value_dict v) ⊆ dom (parsed_value_dict v').
Proof. unfold eof_null_try. ok_all; kept. Qed.

Ltac turn_with lem :=
  match goal with
  | H : _ = Ok ?v' |- turn_ok _ (Continue ?v') =>
    apply lem in H; destruct H as [? ?]
  end.

Lemma general_body_turn (fuel : nat) (v : vars) (fl : flow vars Empty_set) :
  general_body fuel v = Ok fl → turn_ok v fl.
Proof.
  unfold general_body.
  destruct (read 2 (fobj v)) as [chunk f1] eqn:Hr.
  case_decide as Hc; ok_all;
    try turn_with general_end_key_kept; try turn_with general_end_value_kept;
    simpl_vars; turn.
Qed.

Lemma eof_body_turn (v : vars) (fl : flow vars Empty_set) :
  eof_body v = Ok fl → turn_ok v fl.
Proof.
  unfold eof_body.
  destruct (read 2 (fobj v)) as [chunk f1] eqn:Hr.
  case_decide as Hc; ok_all; try turn_with eof_null_try_kept; simpl_vars; turn.
Qed.

Lemma turn_pass (v0 v : vars) (fl : flow vars Empty_set) :
  pass_ok v0 v → turn_ok v fl → pass_ok v0 (flow_vars fl).
Proof.
  intros [Ha Hd] (chunk & f1 & Hr & Ha' & Hd' & _).
  apply read_advanced in Hr. split.
  - eauto using advanced_trans.
  - etrans; eassumption.
Qed.

Lemma run_section_pass (fuel : nat) (cond : vars → bool)
    (body : vars → outcome (flow vars Empty_set)) (v v' : vars) :
  (∀ s fl, body s = Ok fl → turn_ok s fl) →
  run_section fuel cond body v = Ok v' → pass_ok v v'.
Proof.
  intros Hb. unfold run_section.
  destruct (while fuel cond body v) as [[v1|[]]| |] eqn:Hw; cbn [bind]; try discriminate.
  intros [= <-]. revert Hw. apply (while_invariant (pass_ok v)).
  - intros s s' Hs [H|H]; apply Hb in H; apply (turn_pass v s _ Hs H).
  - split; [apply advanced_refl | reflexivity].
Qed.

(** X9.  A pass of the Magic, General or Trailer loop that ends has moved
    the cursor forward only, and has removed no key from the dictionary. *)
Theorem sections_keep_cursor_and_keys (fuel : nat) (v v' : vars) :
  magic_section fuel v = Ok v' ∨ general_section fuel v = Ok v' ∨ eof_section fuel v = Ok v' →
  advanced (fobj v) (fobj v')
  ∧ tell (fobj v) ≤ tell (fobj v')
  ∧ dom (parsed_value_dict v) ⊆ dom (parsed_value_dict v').
Proof.
  intros H.
  assert (pass_ok v v') as [Ha Hd].
  { destruct H as [H|[H|H]]; revert H; apply run_section_pass.
    - apply magic_body_turn.
    - apply general_body_turn.
    - apply eof_body_turn. }
  split; [exact Ha|]. split; [|exact Hd].
  destruct Ha as (c & _ & ->). lia.
Qed.

Lemma sections_keep_cursor_and_keys_witness :
  let v := Vars (File [x41; x00] 0) ∅ KEY_READ_MODE NO_MODE [] (-1) true true true in
  let v' := Vars (File [] 2) ∅ KEY_READ_MODE NO_MODE [65%N; 0%N] (-1) false true true in
  advanced (fobj v) (fobj v')
  ∧ tell (fobj v) ≤ tell (fobj v')
  ∧ dom (parsed_value_dict v) ⊆ dom (parsed_value_dict v').
Proof.
  intros v v'. apply (sections_keep_cursor_and_keys 3 v v'). left. reflexivity.
Defined.

(** X10.  Every dictionary that [parse_detection_history] produces has the
    key GUID. *)
Theorem parse_detection_history_has_guid (fuel : nat) (contents : bytes) (d : dict) :
  parse_detection_history fuel contents = Ok d →
  ∃ x, d !! lit "GUID" = Some x.
Proof.
  unfold parse_detection_history.
  destruct (parse_header_and_guid _) as [[guid f]| |]; cbn [bind]; try discriminate.
  destruct (read 8 f) as [? f1].
  destruct (magic_section fuel _) as [v1| |] eqn:H1; cbn [bind]; try discriminate.
  destruct (general_section fuel v1) as [v2| |] eqn:H2; cbn [bind]; try discriminate.
  destruct (eof_section fuel v2) as [v3| |] eqn:H3; cbn [bind]; try discriminate.
  intros [= <-].
  apply run_section_pass in H1 as [_ D1]; [|apply magic_body_turn].
  apply run_section_pass in H2 as [_ D2]; [|apply general_body_turn].
  apply run_section_pass in H3 as [_ D3]; [|apply eof_body_turn].
  simpl_vars.
  assert (lit "GUID" ∈ dom (parsed_value_dict v3)) as Hin.
  { apply D3, D2, D1. rewrite dom_singleton_L. now apply elem_of_singleton. }
  apply elem_of_dom in Hin as [x Hx]. eauto.
Qed.

Lemma parse_detection_history_has_guid_witness :
  ∃ x, ({[ lit "GUID" := VStr (lit "00000000-0000-0000-0000-000000000000") ]} : dict)
       !! lit "GUID" = Some x.
Proof.
  apply (parse_detection_history_has_guid 41 (magic_header ++ repeat x00 34)).
  reflexivity.
Defined.

(** ** Termination *)

Ltac fuel_cases :=
  repeat match goal with
    | |- Raise _ = OutOfFuel → _ => discriminate
    | |- Ok _ = OutOfFuel → _ => discriminate
    | |- bind ?m _ = OutOfFuel → _ => destruct m as [?| |] eqn:?; cbn [bind]
    | |- (let '(_, _) := ?x in _) = OutOfFuel → _ => destruct x as [? ?] eqn:?
    | |- (if ?c then _ else _) = OutOfFuel → _ => destruct c eqn:?
    | |- match ?x with _ => _ end = OutOfFuel → _ => destruct x eqn:?
    | H : match _ with _ => _ end = OutOfFuel |- _ => revert H
    | H : bind _ _ = OutOfFuel |- _ => revert H
    end;
  try discriminate.

Create HintDb halts discriminated.

Lemma cp1252_halts (data : bytes) : cp1252 data = OutOfFuel → False.
Proof.
  induction data as [|b t IH]; simpl; [discriminate|].
  destruct (cp1252_char b); [|discriminate].
  destruct (cp1252 t); simpl; try discriminate. exact IH.
Qed.

Lemma decode_utf8_halts (fuel : nat) (data : bytes) : decode_utf8 fuel data = OutOfFuel → False.
Proof.
  revert data. induction fuel as [|fuel IH]; intros data; simpl; [discriminate|].
  fuel_cases; intros; eauto.
Qed.

Lemma utf8_halts (data : bytes) : utf8 data = OutOfFuel → False.
Proof. apply decode_utf8_halts. Qed.

Lemma int16_halts (c : N) : int16 c = OutOfFuel → False.
Proof. unfold int16. fuel_cases. Qed.

Lemma nibbles_halts (hexval : bytes) : nibbles hexval = OutOfFuel → False.
Proof.
  induction hexval as [|b t IH]; cbn [nibbles]; [discriminate|].
  fuel_cases; intros; eauto using utf8_halts, int16_halts.
Qed.

Lemma byte_swap_to_int_halts (hexval : bytes) (flag : bool) :
  byte_swap_to_int hexval flag = OutOfFuel → False.
Proof. unfold byte_swap_to_int. fuel_cases; intros; eauto using utf8_halts, nibbles_halts. Qed.

Lemma getitem_stripped_halts (d : dict) (k : pystr) : getitem_stripped d k = OutOfFuel → False.
Proof. unfold getitem_stripped, getitem. fuel_cases. Qed.

Lemma iadd_decoded_halts (d : dict) (k : pystr) (chunk : bytes) :
  iadd_decoded d k chunk = OutOfFuel → False.
Proof. unfold iadd_decoded, getitem. fuel_cases; intros; eauto using cp1252_halts. Qed.

Lemma index_halts (l : list pystr) (i : Z) : index l i = OutOfFuel → False.
Proof. unfold index. fuel_cases. Qed.

Lemma parse_filetime_halts (f : file) : parse_filetime f = OutOfFuel → False.
Proof.
  unfold parse_filetime, filetime_string.
  fuel_cases; intros; eauto using byte_swap_to_int_halts.
Qed.

#[global] Hint Resolve cp1252_halts utf8_halts byte_swap_to_int_halts getitem_stripped_halts
  iadd_decoded_halts index_halts parse_filetime_halts : halts.











(** ** Section passes *)

(** X12.  In the Magic section the text file, read in KEY_READ_MODE with
    no key pending, closes the section: the key file is recorded with an
    empty value, the next 16 bytes are skipped (fewer at the end of the
    stream), and the General section starts in VALUE_READ_MODE with file as
    the pending key. *)
Theorem magic_section_file_marker (rest : bytes) (pos : Z) (d : dict) (last : mode)
    (i : Z) (g e : bool) (fuel : nat) :
  magic_section (5 + fuel)
    (Vars (File (wide_text "file" ++ rest) pos) d KEY_READ_MODE last [] i true g e)
  = Ok (Vars (File (drop 16 rest) (pos + 8 + Z.of_nat (min 16 (length rest))))
          (<[lit "file" := VStr []]> d) VALUE_READ_MODE last (lit "file") i false g e).
Proof.
  unfold magic_section, run_section. cbn [Nat.add].
  replace (pos + 8 + Z.of_nat (min 16 (length rest)))
    with (pos + 2 + 2 + 2 + 2 + Z.of_nat (length (take 16 rest)))
    by (rewrite length_take; lia).
  reflexivity.
Qed.

Lemma cp1252_char_undecodable (b : byte) :
  cp1252_char b = None ↔ undecodable b = true.
Proof. destruct b; split; (reflexivity || discriminate). Qed.

Lemma cp1252_undecodable (data : bytes) :
  Exists (λ b, undecodable b = true) data → cp1252 data = Raise UnicodeDecodeError.
Proof.
  induction 1 as [b t Hb|b t Ht IH]; cbn [cp1252].
  - apply cp1252_char_undecodable in Hb. now rewrite Hb.
  - destruct (cp1252_char b); [|reflexivity]. now rewrite IH.
Qed.

Lemma cp1252_decodable (data : bytes) :
  Forall (λ b, undecodable b = false) data →
  ∃ s, cp1252 data = Ok s ∧ length s = length data.
Proof.
  induction 1 as [|b t Hb Ht (s & IH & Hl)]; [exists []; split; reflexivity|].
  cbn [cp1252]. destruct (cp1252_char b) as [c|] eqn:E.
  - rewrite IH. cbn [bind]. exists (c :: s). split; [reflexivity | simpl; lia].
  - apply cp1252_char_undecodable in E. congruence.
Qed.

Lemma general_body_undecodable (fuel : nat) (v : vars) (chunk : bytes) (f1 : file) :
  read 2 (fobj v) = (chunk, f1) →
  Exists (λ b, undecodable b = true) chunk →
  CURRENT_MODE v = NULL_DATA_MODE ∨ CURRENT_MODE v = KEY_READ_MODE →
  general_body fuel v = Raise UnicodeDecodeError.
Proof.
  intros Hr Hex Hmode.
  assert (chunk ≠ []) as Hne by (intros ->; inversion Hex).
  assert (chunk ≠ [x00; x00]) as Hz.
  { intros ->. apply Exists_cons in Hex as [H|H]; [discriminate|].
    apply Exists_cons in H as [H|H]; [discriminate | inversion H]. }
  pose proof (cp1252_undecodable chunk Hex) as Hd.
  unfold general_body. rewrite Hr. rewrite decide_False by exact Hne.
  simpl_vars. destruct Hmode as [Hm|Hm]; rewrite Hm.
  - rewrite decide_True by reflexivity. rewrite Hd. reflexivity.
  - rewrite decide_False by discriminate. rewrite decide_False by exact Hz.
    rewrite Hd. reflexivity.
Qed.

(** X13.  The General section has no handler for undecodable bytes: a chunk
    holding one of the bytes 81, 8D, 8F, 90, 9D, which windows-1252 does not
    define, read in NULL_DATA_MODE or KEY_READ_MODE, ends the pass with
    [UnicodeDecodeError]. *)
Theorem general_section_undecodable_fatal (fuel : nat) (v : vars) (chunk : bytes)
    (f1 : file) :
  GENERAL_SECTION v = true →
  read 2 (fobj v) = (chunk, f1) →
  Exists (λ b, undecodable b = true) chunk →
  CURRENT_MODE v = NULL_DATA_MODE ∨ CURRENT_MODE v = KEY_READ_MODE →
  general_section (S fuel) v = Raise UnicodeDecodeError.
Proof.
  intros Hg Hr Hex Hmode. unfold general_section, run_section.
  rewrite while_unfold, Hg.
  rewrite (general_body_undecodable (S fuel) v chunk f1 Hr Hex Hmode). reflexivity.
Qed.

Lemma general_section_undecodable_fatal_witness :
  general_section 1
    (Vars (File [x81; x00] 0) ∅ NULL_DATA_MODE NO_MODE [] (-1) false true true)
  = Raise UnicodeDecodeError.
Proof.
  apply (general_section_undecodable_fatal 0 _ [x81; x00] (File [] 2)).
  - reflexivity.
  - reflexivity.
  - apply Exists_cons_hd. reflexivity.
  - left. reflexivity.
Defined.

Lemma eof_body_undecodable_skipped (v : vars) (chunk : bytes) (f1 : file) :
  CURRENT_MODE v = NULL_DATA_MODE →
  read 2 (fobj v) = (chunk, f1) →
  Exists (λ b, undecodable b = true) chunk →
  eof_body v = Ok (Continue (set_fobj v f1)).
Proof.
  intros Hm Hr Hex.
  assert (chunk ≠ []) as Hne by (intros ->; inversion Hex).
  assert (¬ (chunk = [x0a; x00] ∨ chunk = [x00; x0a])) as Hlf.
  { intros [->| ->];
      (apply Exists_cons in Hex as [H|H]; [discriminate|];
       apply Exists_cons in H as [H|H]; [discriminate | inversion H]). }
  pose proof (cp1252_undecodable chunk Hex) as Hd.
  unfold eof_body. rewrite Hr. rewrite decide_False by exact Hne.
  simpl_vars. rewrite Hm. rewrite decide_False by exact Hlf.
  unfold eof_null_try. rewrite Hd. reflexivity.
Qed.

Lemma index_raise_range (i : Z) (e : pyexc) :
  index EOF_SECTION_KEYS i = Raise e → e = IndexError ∧ (3 ≤ i ∨ i < -3).
Proof.
  unfold index. cbv zeta. change (Z.of_nat (length EOF_SECTION_KEYS)) with 3.
  destruct (_ && _) eqn:Hr; [discriminate|]. intros [= <-].
  split; [reflexivity|].
  apply andb_false_iff in Hr.
  destruct (i <? 0) eqn:Hn; [apply Z.ltb_lt in Hn | apply Z.ltb_ge in Hn];
    (destruct Hr as [Hr|Hr]; [apply Z.leb_gt in Hr | apply Z.ltb_ge in Hr]; lia).
Qed.

Lemma eof_null_try_raise_index (v : vars) (chunk : bytes) (e : pyexc) :
  eof_null_try v chunk = Raise e →
  e = IndexError ∧ (2 ≤ CURRENT_EOF_SECTION_KEY v ∨ CURRENT_EOF_SECTION_KEY v < -4).
Proof.
  unfold eof_null_try.
  repeat match goal with
    | |- Ok _ = Raise _ → _ => discriminate
    | |- bind ?m _ = Raise _ → _ => destruct m as [?|?|] eqn:?; cbn [bind]
    | |- (let '(_, _) := ?x in _) = Raise _ → _ => destruct x as [? ?] eqn:?
    | |- (if ?c then _ else _) = Raise _ → _ => destruct c eqn:?
    | |- match ?x with _ => _ end = Raise _ → _ => destruct x eqn:?
    end; try discriminate.
  intros [= <-]. simpl_vars.
  match goal with H : index _ _ = Raise _ |- _ => apply index_raise_range in H as [-> H] end.
  split; [reflexivity | lia].
Qed.

(** X14.  In NULL_DATA_MODE a turn of the Trailer loop raises nothing but
    [IndexError], and that only when the positional index stands at 2 or
    more, or below -4; a chunk holding an undecodable byte is caught by the
    handler, and the turn does no more than consume the chunk. *)
Theorem eof_body_null_mode_errors (v : vars) :
  CURRENT_MODE v = NULL_DATA_MODE →
  (∀ e, eof_body v = Raise e →
        e = IndexError
        ∧ (2 ≤ CURRENT_EOF_SECTION_KEY v ∨ CURRENT_EOF_SECTION_KEY v < -4))
  ∧ (∀ chunk f1, read 2 (fobj v) = (chunk, f1) →
                 Exists (λ b, undecodable b = true) chunk →
                 eof_body v = Ok (Continue (set_fobj v f1))).
Proof.
  intros Hm. split.
  - intros e. unfold eof_body. destruct (read 2 (fobj v)) as [chunk f1].
    case_decide; [discriminate|]. simpl_vars. rewrite Hm.
    case_decide; [destruct (read 10 f1); discriminate|].
    destruct (eof_null_try _ chunk) as [?|e'|] eqn:E; cbn [bind]; try discriminate.
    intros [= <-]. apply eof_null_try_raise_index in E. simpl_vars. exact E.
  - intros chunk f1. apply eof_body_undecodable_skipped, Hm.
Qed.

Lemma eof_body_null_mode_errors_witness :
  let v := Vars (File [x41; x00; x42; x00] 0) ∅ NULL_DATA_MODE NO_MODE [] 2
             false false true in
  let w := Vars (File [x81; x00] 0) ∅ NULL_DATA_MODE NO_MODE [] (-1)
             false false true in
  (IndexError = IndexError
   ∧ (2 ≤ CURRENT_EOF_SECTION_KEY v ∨ CURRENT_EOF_SECTION_KEY v < -4))
  ∧ eof_body w = Ok (Continue (set_fobj w (File [] 2))).
Proof.
  intros v w. split.
  - apply (proj1 (eof_body_null_mode_errors v eq_refl) IndexError).
    vm_compute. reflexivity.
  - apply (proj2 (eof_body_null_mode_errors w eq_refl) [x81; x00] (File [] 2)).
    + reflexivity.
    + apply Exists_cons_hd. reflexivity.
Defined.

(** X15.  A fourth field in the Trailer section is fatal: when the
    positional index stands at 2 and a further window is confirmed, the turn
    and the whole pass raise [IndexError]. *)
Theorem eof_section_fourth_field (fuel : nat) (v : vars) (chunk more : bytes)
    (f1 f2 : file) (s2 s4 : pystr) :
  NEAREST_EOF_SECTION v = true →
  CURRENT_MODE v = NULL_DATA_MODE →
  CURRENT_EOF_SECTION_KEY v = 2 →
  read 2 (fobj v) = (chunk, f1) → chunk ≠ [] →
  chunk ≠ [x0a; x00] → chunk ≠ [x00; x0a] →
  cp1252 chunk = Ok s2 → 1 ≤ Z.of_nat (length (sub_nonword s2)) →
  read 2 f1 = (more, f2) →
  cp1252 (chunk ++ more) = Ok s4 →
  2 ≤ Z.of_nat (length (sub_trailer None s4)) → x00 ∈ chunk ++ more →
  eof_body v = Raise IndexError ∧ eof_section (S fuel) v = Raise IndexError.
Proof.
  intros Hflag Hmode Hidx Hr1 Hne Hlf1 Hlf2 Hd2 Hw Hr2 Hd4 Ht Hz.
  assert (eof_body v = Raise IndexError) as E.
  { unfold eof_body. rewrite Hr1.
    destruct (decide (chunk = [])) as [|_]; [contradiction|].
    simpl_vars. rewrite Hmode.
    destruct (decide (chunk = [x0a; x00] ∨ chunk = [x00; x0a])) as [[|]|_];
      [contradiction..|].
    unfold eof_null_try. rewrite Hd2.
    apply Z.leb_le in Hw. rewrite Hw. simpl_vars. rewrite Hr2, Hd4.
    apply Z.leb_le in Ht. rewrite Ht.
    rewrite (bool_decide_eq_true_2 _ Hz). cbn [andb]. simpl_vars.
    rewrite Hidx. reflexivity. }
  split; [exact E|].
  unfold eof_section, run_section. rewrite while_unfold, Hflag, E. reflexivity.
Qed.

Lemma eof_section_fourth_field_witness :
  let v := Vars (File [x41; x00; x42; x00] 0) ∅ NULL_DATA_MODE NO_MODE [] 2
             false false true in
  eof_body v = Raise IndexError ∧ eof_section 1 v = Raise IndexError.
Proof.
  intros v.
  apply (eof_section_fourth_field 0 v [x41; x00] [x42; x00] (File [x42; x00] 2)
           (File [] 4) [65%N; 0%N] [65%N; 0%N; 66%N; 0%N]);
    try reflexivity; try discriminate.
  apply list_elem_of_further, list_elem_of_here.
Defined.

(** ** A key and its value in the General section *)

Lemma alnum_byte_facts (b : byte) :
  alnum_byte b = true →
  cp1252_char b = Some (Byte.to_N b) ∧ is_word (Byte.to_N b) = true
  ∧ b ≠ x00 ∧ b ≠ x0a ∧ Byte.to_N b ≠ 0%N.
Proof. destruct b; try discriminate; intros _; repeat split; discriminate. Qed.

Lemma ascii_byte_facts (b : byte) :
  ascii_byte b = true →
  cp1252_char b = Some (Byte.to_N b) ∧ b ≠ x00 ∧ Byte.to_N b ≠ 0%N.
Proof. destruct b; try discriminate; intros _; repeat split; discriminate. Qed.

Lemma alnum_ascii (b : byte) : alnum_byte b = true → ascii_byte b = true.
Proof. destruct b; try discriminate; reflexivity. Qed.

Lemma cp1252_wide (t rest : bytes) (s : pystr) :
  Forall (λ b, ascii_byte b = true) t →
  cp1252 rest = Ok s → cp1252 (wide t ++ rest) = Ok (wide_str t ++ s).
Proof.
  intros Ht Hr. induction Ht as [|b t Hb Ht IH]; [exact Hr|].
  destruct (ascii_byte_facts b Hb) as (Hc & _).
  cbn [wide wide_str flat_map app cp1252]. rewrite Hc. cbn [bind].
  change (cp1252_char x00) with (Some 0%N).
  fold (wide t). fold (wide_str t). rewrite IH. reflexivity.
Qed.

Lemma sub_nonword_wide (t : bytes) :
  Forall (λ b, alnum_byte b = true) t →
  length (sub_nonword (wide_str t)) = length t.
Proof.
  induction 1 as [|b t Hb Ht IH]; [reflexivity|].
  destruct (alnum_byte_facts b Hb) as (_ & Hw & _).
  cbn [wide_str flat_map app]. unfold sub_nonword in *.
  rewrite filter_cons_True by exact Hw.
  rewrite filter_cons_False by discriminate.
  fold (wide_str t). cbn [length]. now rewrite IH.
Qed.

Lemma strip_nul_wide (t : bytes) :
  Forall (λ b, ascii_byte b = true) t → strip_nul (wide_str t) = ascii_str t.
Proof.
  induction 1 as [|b t Hb Ht IH]; [reflexivity|].
  destruct (ascii_byte_facts b Hb) as (_ & _ & Hn).
  cbn [wide_str flat_map app ascii_str map]. unfold strip_nul in *.
  rewrite filter_cons_True by exact Hn.
  rewrite filter_cons_False by (intros H; now apply H).
  fold (wide_str t). now rewrite IH.
Qed.

Lemma strip_nul_app (a b : pystr) : strip_nul (a ++ b) = strip_nul a ++ strip_nul b.
Proof. apply filter_app. Qed.

Lemma strip_nul_idem (s : pystr) : strip_nul (strip_nul s) = strip_nul s.
Proof.
  unfold strip_nul. induction s as [|c s IH]; [reflexivity|].
  destruct (decide (c ≠ 0%N)).
  - rewrite !filter_cons_True by assumption. now rewrite IH.
  - rewrite filter_cons_False by assumption. exact IH.
Qed.

Lemma read_wide_one (b : byte) (rest : bytes) (pos : Z) :
  read 2 (File (wide [b] ++ rest) pos) = ([b; x00], File rest (pos + 2)).
Proof. reflexivity. Qed.

(** One turn in KEY_READ_MODE on a wide character. *)
Lemma general_body_key_char (F : nat) (v : vars) (b : byte) (rest : bytes) (pos : Z) :
  ascii_byte b = true →
  CURRENT_MODE v = KEY_READ_MODE →
  fobj v = File (b :: x00 :: rest) pos →
  general_body F v
  = Ok (Continue (set_temp_key (set_fobj v (File rest (pos + 2)))
                    (temp_key v ++ [Byte.to_N b; 0%N]))).
Proof.
  intros Hb Hm Hf. destruct (ascii_byte_facts b Hb) as (Hc & Hz & _).
  unfold general_body. rewrite Hf.
  change (read 2 (File (b :: x00 :: rest) pos)) with ([b; x00], File rest (pos + 2)).
  simpl_vars. rewrite decide_False by discriminate. rewrite Hm.
  rewrite decide_False by discriminate.
  rewrite decide_False by (intros [= ?]; contradiction).
  cbn [cp1252]. rewrite Hc. reflexivity.
Qed.


Lemma general_key_run (t : bytes) :
  Forall (λ b, ascii_byte b = true) t →
  ∀ F n rest pos d last tk i mg e,
    while (length t + n) GENERAL_SECTION (general_body F)
      (Vars (File (wide t ++ rest) pos) d KEY_READ_MODE last tk i mg true e)
    = while n GENERAL_SECTION (general_body F)
        (Vars (File rest (pos + 2 * Z.of_nat (length t))) d KEY_READ_MODE last
           (tk ++ wide_str t) i mg true e).
Proof.
  induction 1 as [|b t Hb Ht IH]; intros F n rest pos d last tk i mg e.
  - cbn [length wide wide_str flat_map app Nat.add]. rewrite app_nil_r.
    replace (pos + 2 * Z.of_nat 0) with pos by lia. reflexivity.
  - cbn [length Nat.add]. rewrite while_unfold. cbn [GENERAL_SECTION].
    erewrite (general_body_key_char F _ b (wide t ++ rest) pos);
      [|exact Hb|reflexivity|reflexivity].
    cbn [bind]. unfold set_temp_key, set_fobj. simpl_vars. rewrite IH.
    cbn [wide_str flat_map]. fold (wide_str t). rewrite <- app_assoc.
    replace (pos + 2 + 2 * Z.of_nat (length t)) with (pos + 2 * Z.of_nat (S (length t)))
      by lia.
    reflexivity.
Qed.


(** The turn that finds the first two characters of a field in
    NULL_DATA_MODE. *)
Lemma general_body_lookahead (F : nat) (b1 b2 : byte) (rest : bytes) (pos : Z) (d : dict)
    (last : mode) (tk : pystr) (i : Z) (mg e : bool) :
  alnum_byte b1 = true → alnum_byte b2 = true →
  general_body F
    (Vars (File (wide [b1; b2] ++ rest) pos) d NULL_DATA_MODE last tk i mg true e)
  = if decide (last = KEY_READ_MODE) then
      do d' <- iadd_decoded d tk [b1; x00; b2; x00];
      Ok (Continue (Vars (File rest (pos + 4)) d' VALUE_READ_MODE last tk i mg true e))
    else
      Ok (Continue (Vars (File rest (pos + 4)) d KEY_READ_MODE last
                      (tk ++ wide_str [b1; b2]) i mg true e)).
Proof.
  intros H1 H2.
  pose proof (cp1252_wide [b1] [] []
                (Forall_cons_2 _ _ _ (alnum_ascii _ H1) (Forall_nil_2 _)) eq_refl) as D2.
  pose proof (cp1252_wide [b1; b2] [] []
                (Forall_cons_2 _ _ _ (alnum_ascii _ H1)
                   (Forall_cons_2 _ _ _ (alnum_ascii _ H2) (Forall_nil_2 _))) eq_refl)
    as D4.
  pose proof (sub_nonword_wide [b1] (Forall_cons_2 _ _ _ H1 (Forall_nil_2 _))) as W2.
  pose proof (sub_nonword_wide [b1; b2]
                (Forall_cons_2 _ _ _ H1 (Forall_cons_2 _ _ _ H2 (Forall_nil_2 _)))) as W4.
  cbn [wide wide_str flat_map app length] in D2, D4, W2, W4.
  unfold general_body. cbn [fobj].
  change (read 2 (File (wide [b1; b2] ++ rest) pos))
    with ([b1; x00], File (b2 :: x00 :: rest) (pos + 2)).
  simpl_vars. rewrite decide_False by discriminate.
  rewrite decide_True by reflexivity.
  rewrite D2. cbn [bind]. rewrite W2.
  cbn [Z.of_nat Z.leb Z.compare Pos.compare Pos.compare_cont Pos.of_succ_nat].
  change (read 2 (File (b2 :: x00 :: rest) (pos + 2)))
    with ([b2; x00], File rest (pos + 2 + 2)).
  simpl_vars. cbn [app]. rewrite D4. cbn [bind]. rewrite W4.
  cbn [Z.of_nat Z.leb Z.compare Pos.compare Pos.compare_cont Pos.of_succ_nat Pos.succ].
  replace (pos + 2 + 2) with (pos + 4) by lia.
  destruct (decide (last = KEY_READ_MODE)); reflexivity.
Qed.



(** Zero padding between fields is passed over in NULL_DATA_MODE. *)
Lemma general_padding_run (p : nat) :
  ∀ F n rest pos d last tk i mg e,
    while (p + n) GENERAL_SECTION (general_body F)
      (Vars (File (replicate (2 * p) x00 ++ rest) pos) d NULL_DATA_MODE last tk i mg true e)
    = while n GENERAL_SECTION (general_body F)
        (Vars (File rest (pos + 2 * Z.of_nat p)) d NULL_DATA_MODE last tk i mg true e).
Proof.
  induction p as [|p IH]; intros F n rest pos d last tk i mg e.
  - cbn [Nat.mul replicate app Nat.add].
    replace (pos + 2 * Z.of_nat 0) with pos by lia. reflexivity.
  - replace (2 * S p)%nat with (S (S (2 * p))) by lia.
    cbn [replicate app Nat.add]. rewrite while_unfold. cbn [GENERAL_SECTION].
    unfold general_body at 1. cbn [fobj].
    change (read 2 (File (x00 :: x00 :: replicate (2 * p) x00 ++ rest) pos))
      with ([x00; x00], File (replicate (2 * p) x00 ++ rest) (pos + 2)).
    unfold set_fobj. simpl_vars.
    rewrite decide_False by discriminate. rewrite decide_True by reflexivity.
    change (cp1252 [x00; x00]) with (Ok [0%N; 0%N] : outcome pystr). cbn [bind].
    change (1 <=? Z.of_nat (length (sub_nonword [0%N; 0%N]))) with false.
    cbn match. rewrite decide_False by (intros [?|?]; discriminate).
    cbn [bind]. rewrite IH.
    replace (pos + 2 + 2 * Z.of_nat p) with (pos + 2 * Z.of_nat (S p)) by lia.
    reflexivity.
Qed.

(** From NULL_DATA_MODE to the end of a key: the padding, the two characters
    found by the lookahead and the rest of the key. *)
Lemma general_key_read (F n p : nat) (k rest : bytes) (pos : Z) (d : dict) (last : mode)
    (i : Z) (mg e : bool) :
  Forall (λ b, ascii_byte b = true) k → Forall (λ b, alnum_byte b = true) (take 2 k) →
  (2 ≤ length k)%nat → last ≠ KEY_READ_MODE →
  while (p + (length k - 1) + n) GENERAL_SECTION (general_body F)
    (Vars (File (replicate (2 * p) x00 ++ wide k ++ rest) pos) d NULL_DATA_MODE last []
       i mg true e)
  = while n GENERAL_SECTION (general_body F)
      (Vars (File rest (pos + 2 * Z.of_nat (p + length k))) d KEY_READ_MODE last
         (wide_str k) i mg true e).
Proof.
  intros Hk H2 Lk Hlast.
  destruct k as [|b1 [|b2 k']]; cbn [length] in Lk; try lia. clear Lk.
  cbn [take] in H2.
  apply Forall_cons_1 in H2 as [Hb1 H2]. apply Forall_cons_1 in H2 as [Hb2 _].
  apply Forall_cons_1 in Hk as [_ Hk]. apply Forall_cons_1 in Hk as [_ Hk].
  cbn [length].
  replace (p + (S (S (length k')) - 1) + n)%nat with (p + S (length k' + n))%nat by lia.
  rewrite general_padding_run.
  rewrite while_unfold. cbn [GENERAL_SECTION].
  erewrite (general_body_lookahead F b1 b2 (wide k' ++ rest)); [|exact Hb1|exact Hb2].
  rewrite decide_False by exact Hlast. cbn [bind]. rewrite app_nil_l.
  rewrite general_key_run by exact Hk.
  change (wide_str [b1; b2] ++ wide_str k') with (wide_str (b1 :: b2 :: k')).
  replace (pos + 2 * Z.of_nat p + 4 + 2 * Z.of_nat (length k'))
    with (pos + 2 * Z.of_nat (p + S (S (length k')))) by lia.
  reflexivity.
Qed.




(** ** Keys of the General section whose value is binary *)

(** The turn that ends a key holding "Time". *)
Lemma general_body_end_key_time (F : nat) (rest : bytes) (pos : Z) (d : dict)
    (last : mode) (tk : pystr) (i : Z) (mg e : bool) :
  contains (lit "Magic.") (take 6 (strip_nul tk)) = false →
  contains (lit "Time") (strip_nul tk) = true →
  general_body F
    (Vars (File (x00 :: x00 :: rest) pos) d KEY_READ_MODE last tk i mg true e)
  = do (s, f) <- parse_filetime (File rest (pos + 2));
    Ok (Continue (Vars f (<[strip_nul tk := VStr s]> d) NULL_DATA_MODE VALUE_READ_MODE
                    [] i mg true e)).
Proof.
  intros H1 H2. unfold general_body. cbn [fobj].
  change (read 2 (File (x00 :: x00 :: rest) pos)) with ([x00; x00], File rest (pos + 2)).
  unfold set_fobj. simpl_vars.
  rewrite decide_False by discriminate. rewrite decide_False by discriminate.
  rewrite decide_True by reflexivity.
  unfold general_end_key, set_temp_key. simpl_vars. rewrite H1, H2.
  destruct (parse_filetime _) as [[s f]|?|]; reflexivity.
Qed.

(** The turn that ends the key of a tracking field. *)
Lemma general_body_end_key_tracking (F : nat) (rest : bytes) (pos : Z) (d : dict)
    (last : mode) (tk : pystr) (i : Z) (mg e : bool) :
  contains (lit "Magic.") (take 6 (strip_nul tk)) = false →
  contains (lit "Time") (strip_nul tk) = false →
  is_tracking_int (strip_nul tk) || contains (lit "ThreatTrackingSigSeq") (strip_nul tk)
  = true →
  general_body F
    (Vars (File (x00 :: x00 :: rest) pos) d KEY_READ_MODE last tk i mg true e)
  = do (r, f) <- parse_unmapped_value F (File rest (pos + 2));
    match r with
    | VBytes hexval =>
      if is_tracking_int (strip_nul tk) then
        do x <- byte_swap_to_int hexval false;
        Ok (Continue (Vars f (<[strip_nul tk := x]> d) NULL_DATA_MODE VALUE_READ_MODE
                        [] i mg true e))
      else
        do x <- byte_swap_to_int hexval true;
        match x with
        | VStr s =>
          Ok (Continue (Vars f (<[strip_nul tk := VStr (lit "0x0000" ++ s)]> d)
                          NULL_DATA_MODE VALUE_READ_MODE [] i mg true e))
        | _ => Raise TypeError
        end
    | _ => Raise TypeError
    end.
Proof.
  intros H1 H2 H3. unfold general_body. cbn [fobj].
  change (read 2 (File (x00 :: x00 :: rest) pos)) with ([x00; x00], File rest (pos + 2)).
  unfold set_fobj. simpl_vars.
  rewrite decide_False by discriminate. rewrite decide_False by discriminate.
  rewrite decide_True by reflexivity.
  unfold general_end_key, set_temp_key. simpl_vars. rewrite H1, H2.
  unfold unmapped_int.
  destruct (is_tracking_int _) eqn:H4.
  - destruct (parse_unmapped_value _ _) as [[r f]|?|]; cbn [bind]; try reflexivity.
    destruct r; try reflexivity.
    destruct (byte_swap_to_int _ false); reflexivity.
  - cbn [orb] in H3. rewrite H3.
    destruct (parse_unmapped_value _ _) as [[r f]|?|]; cbn [bind]; try reflexivity.
    destruct r; try reflexivity.
    destruct (byte_swap_to_int _ true) as [x|?|]; cbn [bind]; try reflexivity.
    destruct x; reflexivity.
Qed.

(** X17.  A key of the General section that holds Time (and does not start
    with Magic.) gets a timestamp as its value: when the key ends,
    [parse_filetime] is run on what follows the two zero bytes, the text it
    returns is recorded under the key, and the loop goes on behind the bytes
    it has read, in NULL_DATA_MODE with no pending key; an exception of
    [parse_filetime] ends the pass. *)
Theorem general_section_time_key (F n p : nat) (k rest : bytes) (pos : Z) (d : dict)
    (last : mode) (i : Z) (mg e : bool) :
  Forall (λ b, ascii_byte b = true) k → Forall (λ b, alnum_byte b = true) (take 2 k) →
  (2 ≤ length k)%nat → last ≠ KEY_READ_MODE →
  contains (lit "Magic.") (take 6 (ascii_str k)) = false →
  contains (lit "Time") (ascii_str k) = true →
  while (p + length k + n) GENERAL_SECTION (general_body F)
    (Vars (File (replicate (2 * p) x00 ++ wide k ++ [x00; x00] ++ rest) pos) d
       NULL_DATA_MODE last [] i mg true e)
  = do (text, f) <- parse_filetime (File rest (pos + 2 * Z.of_nat (p + length k + 1)));
    while n GENERAL_SECTION (general_body F)
      (Vars f (<[ascii_str k := VStr text]> d) NULL_DATA_MODE VALUE_READ_MODE [] i mg
         true e).
Proof.
  intros Hk Hk2 Lk Hlast Hm Ht.
  replace (p + length k + n)%nat with (p + (length k - 1) + S n)%nat by lia.
  rewrite general_key_read by assumption.
  rewrite while_unfold. cbn [GENERAL_SECTION app].
  rewrite general_body_end_key_time by (rewrite strip_nul_wide by exact Hk; assumption).
  rewrite strip_nul_wide by exact Hk.
  replace (pos + 2 * Z.of_nat (p + length k) + 2)
    with (pos + 2 * Z.of_nat (p + length k + 1)) by lia.
  destruct (parse_filetime _) as [[s f]|?|]; reflexivity.
Qed.

Lemma general_section_time_key_witness :
  let k := [x54; x69; x6d; x65] in
  let rest := [x00; x00; x00; x00; x80; x96; x98; x00; x00; x00; x00; x00] in
  while (0 + length k + 1) GENERAL_SECTION (general_body 0)
    (Vars (File (replicate (2 * 0) x00 ++ wide k ++ [x00; x00] ++ rest) 0) ∅
       NULL_DATA_MODE NO_MODE [] (-1) false true true)
  = Ok (inl (Vars (File [] 22) (<[lit "Time" := VStr (lit "01-01-1601 00:00:01")]> ∅)
               NULL_DATA_MODE VALUE_READ_MODE [] (-1) false false true)).
Proof.
  intros k rest.
  rewrite (general_section_time_key 0 1 0 k rest 0 ∅ NO_MODE (-1) false true).
  - vm_compute. reflexivity.
  - repeat constructor.
  - repeat constructor.
  - simpl. lia.
  - discriminate.
  - reflexivity.
  - reflexivity.
Defined.

(** X18.  The key of a tracking field in the General section
    (ThreatTrackingThreatId, ThreatTrackingSize, ThreatTrackingSigSeq, not
    holding Time nor starting with Magic.) gets the value found by the
    scanner: when the key ends, [parse_unmapped_value] is run on what follows
    the two zero bytes, and the bytes it returns are recorded under the key
    as the integer they encode in little-endian order, or for
    ThreatTrackingSigSeq as the text 0x0000 followed by their hex digits in
    reverse byte order; the loop goes on where the scanner stopped, in
    NULL_DATA_MODE with no pending key. *)
Theorem general_section_tracking_key (F n p : nat) (k rest raw : bytes) (pos : Z)
    (d : dict) (last : mode) (i : Z) (mg e : bool) (f' : file) :
  Forall (λ b, ascii_byte b = true) k → Forall (λ b, alnum_byte b = true) (take 2 k) →
  (2 ≤ length k)%nat → last ≠ KEY_READ_MODE →
  contains (lit "Magic.") (take 6 (ascii_str k)) = false →
  contains (lit "Time") (ascii_str k) = false →
  is_tracking_int (ascii_str k) || contains (lit "ThreatTrackingSigSeq") (ascii_str k)
  = true →
  parse_unmapped_value F (File rest (pos + 2 * Z.of_nat (p + length k + 1)))
  = Ok (VBytes (hexlify raw), f') →
  while (p + length k + n) GENERAL_SECTION (general_body F)
    (Vars (File (replicate (2 * p) x00 ++ wide k ++ [x00; x00] ++ rest) pos) d
       NULL_DATA_MODE last [] i mg true e)
  = while n GENERAL_SECTION (general_body F)
      (Vars f'
         (<[ascii_str k :=
              if is_tracking_int (ascii_str k) then VInt (le_value raw)
              else VStr (lit "0x0000" ++ ascii_str (hexlify (reverse raw)))]> d)
         NULL_DATA_MODE VALUE_READ_MODE [] i mg true e).
Proof.
  intros Hk Hk2 Lk Hlast Hm Ht Hs Hscan.
  replace (p + length k + n)%nat with (p + (length k - 1) + S n)%nat by lia.
  rewrite general_key_read by assumption.
  rewrite while_unfold. cbn [GENERAL_SECTION app].
  rewrite general_body_end_key_tracking
    by (rewrite strip_nul_wide by exact Hk; assumption).
  rewrite strip_nul_wide by exact Hk.
  replace (pos + 2 * Z.of_nat (p + length k) + 2)
    with (pos + 2 * Z.of_nat (p + length k + 1)) by lia.
  rewrite Hscan. cbn [bind].
  destruct (is_tracking_int _).
  - rewrite byte_swap_to_int_hexlify. reflexivity.
  - unfold byte_swap_to_int. rewrite swap_hexlify, utf8_hexlify. reflexivity.
Qed.

Lemma general_section_tracking_key_witness :
  let k := [x54; x68; x72; x65; x61; x74; x54; x72; x61; x63; x6b; x69; x6e; x67; x53;
            x69; x7a; x65] in
  let rest := [x00; x00; x00; x01; x02; x03; x32; x00] in
  while (0 + length k + 1) GENERAL_SECTION (general_body 1)
    (Vars (File (replicate (2 * 0) x00 ++ wide k ++ [x00; x00] ++ rest) 0) ∅
       NULL_DATA_MODE NO_MODE [] (-1) false true true)
  = Ok (inl (Vars (File [] 46) (<[lit "ThreatTrackingSize" := VInt 197121]> ∅)
               NULL_DATA_MODE VALUE_READ_MODE [] (-1) false false true)).
Proof.
  intros k rest.
  rewrite (general_section_tracking_key 1 1 0 k rest [x01; x02; x03] 0 ∅ NO_MODE (-1)
             false true (File [] 46)).
  - vm_compute. reflexivity.
  - repeat constructor.
  - repeat constructor.
  - simpl. lia.
  - discriminate.
  - reflexivity.
  - reflexivity.
  - reflexivity.
  - reflexivity.
Defined.




(** ** The end of the General section *)

(** X20.  The line-feed marker of the General section.  In NULL_DATA_MODE a
    chunk 0A 00 or 00 0A is followed by two skipped bytes and a window of
    four.  When the window is 15 00 00 00 or 00 15 00 00 the turn consumes
    these eight bytes and nothing else changes.  Otherwise four more bytes
    are skipped (fewer at the end of the stream) and the General pass ends
    there, with the dictionary as it was. *)
Theorem general_section_end_marker (fuel : nat) (lf skip window tail : bytes) (pos : Z)
    (d : dict) (last : mode) (tk : pystr) (i : Z) (mg e : bool) :
  lf = [x0a; x00] ∨ lf = [x00; x0a] →
  length skip = 2%nat → length window = 4%nat →
  let v := Vars (File (lf ++ skip ++ window ++ tail) pos) d NULL_DATA_MODE last tk i mg
             true e in
  (window = [x15; x00; x00; x00] ∨ window = [x00; x15; x00; x00] →
     general_body fuel v
     = Ok (Continue (Vars (File tail (pos + 8)) d NULL_DATA_MODE last tk i mg true e)))
  ∧ (window ≠ [x15; x00; x00; x00] → window ≠ [x00; x15; x00; x00] →
     general_section (2 + fuel) v
     = Ok (Vars (File (drop 4 tail) (pos + 8 + Z.of_nat (min 4 (length tail)))) d
             NULL_DATA_MODE last tk i mg false e)).
Proof.
  intros Hlf Hs Hw v.
  assert (∀ F, general_body F v
               = if decide (window = [x15; x00; x00; x00]
                            ∨ window = [x00; x15; x00; x00])
                 then Ok (Continue (Vars (File tail (pos + 8)) d NULL_DATA_MODE last tk i
                                      mg true e))
                 else Ok (Continue (Vars (File (drop 4 tail)
                                            (pos + 8 + Z.of_nat (min 4 (length tail))))
                                      d NULL_DATA_MODE last tk i mg false e))) as Hbody.
  { intros F. subst v. unfold general_body. cbn [fobj].
    assert (length lf = 2%nat) as Hl by (destruct Hlf as [-> | ->]; reflexivity).
    rewrite (read_app 2 lf) by exact Hl.
    unfold set_fobj. simpl_vars.
    rewrite decide_False by (destruct Hlf as [-> | ->]; discriminate).
    rewrite decide_True by reflexivity.
    assert (∃ s, cp1252 lf = Ok s ∧ (1 <=? Z.of_nat (length (sub_nonword s))) = false)
      as (s & -> & Hn)
      by (destruct Hlf as [-> | ->]; eexists; split; reflexivity).
    cbn [bind]. rewrite Hn.
    rewrite decide_True by exact Hlf.
    rewrite (read_app 2 skip) by exact Hs.
    rewrite (read_app 4 window) by exact Hw. simpl_vars.
    replace (pos + Z.of_nat 2 + Z.of_nat 2 + Z.of_nat 4) with (pos + 8) by lia.
    destruct (decide (window = _ ∨ window = _)); [reflexivity|].
    unfold read. cbn [pending tell]. unfold set_general. simpl_vars.
    rewrite length_take. reflexivity. }
  split.
  - intros H. rewrite Hbody. rewrite decide_True by exact H. reflexivity.
  - intros H1 H2. unfold general_section, run_section.
    cbn [Nat.add]. rewrite while_unfold. subst v. cbn [GENERAL_SECTION].
    rewrite Hbody. rewrite decide_False by (intros [?|?]; contradiction).
    cbn [bind]. reflexivity.
Qed.

Lemma general_section_end_marker_witness :
  let v := Vars (File ([x0a; x00] ++ [x01; x02] ++ [x15; x00; x00; x00] ++ [x07]) 0) ∅
             NULL_DATA_MODE NO_MODE [] (-1) false true true in
  let w := Vars (File ([x00; x0a] ++ [x01; x02] ++ [x01; x02; x03; x04] ++ [x07; x08]) 0)
             ∅ NULL_DATA_MODE NO_MODE [] (-1) false true true in
  general_body 0 v
  = Ok (Continue (Vars (File [x07] (0 + 8)) ∅ NULL_DATA_MODE NO_MODE [] (-1) false true
                    true))
  ∧ general_section (2 + 0) w
    = Ok (Vars (File (drop 4 [x07; x08]) (0 + 8 + Z.of_nat (min 4 (length [x07; x08]))))
            ∅ NULL_DATA_MODE NO_MODE [] (-1) false false true).
Proof.
  intros v w. split.
  - apply (proj1 (general_section_end_marker 0 [x0a; x00] [x01; x02] [x15; x00; x00; x00]
                    [x07] 0 ∅ NO_MODE [] (-1) false true
                    (or_introl eq_refl) eq_refl eq_refl)).
    left. reflexivity.
  - apply (proj2 (general_section_end_marker 0 [x00; x0a] [x01; x02]
                    [x01; x02; x03; x04] [x07; x08] 0 ∅ NO_MODE [] (-1) false true
                    (or_intror eq_refl) eq_refl eq_refl)); discriminate.
Defined.

(** ** Chunks that the General section passes over *)

(** X21.  What the General section passes over in NULL_DATA_MODE.  A
    chunk without a letter or digit that is not a line-feed marker is
    consumed and nothing else changes.  A chunk with a letter or digit is
    extended to a window of four bytes, and when the window holds fewer than
    two letters or digits all four bytes are consumed and nothing else
    changes: an isolated character is recorded nowhere. *)
Theorem general_body_null_mode_skips (F : nat) (chunk more rest : bytes) (pos : Z)
    (d : dict) (last : mode) (tk s2 : pystr) (i : Z) (mg e : bool) :
  length chunk = 2%nat → cp1252 chunk = Ok s2 →
  (sub_nonword s2 = [] → chunk ≠ [x0a; x00] → chunk ≠ [x00; x0a] →
     general_body F (Vars (File (chunk ++ rest) pos) d NULL_DATA_MODE last tk i mg true e)
     = Ok (Continue (Vars (File rest (pos + 2)) d NULL_DATA_MODE last tk i mg true e)))
  ∧ (∀ s4, sub_nonword s2 ≠ [] → length more = 2%nat →
           cp1252 (chunk ++ more) = Ok s4 → (length (sub_nonword s4) < 2)%nat →
           general_body F
             (Vars (File (chunk ++ more ++ rest) pos) d NULL_DATA_MODE last tk i mg true
                e)
           = Ok (Continue (Vars (File rest (pos + 4)) d NULL_DATA_MODE last tk i mg true
                             e))).
Proof.
  intros Hl Hd. split.
  - intros Hw Hlf1 Hlf2. unfold general_body. cbn [fobj].
    rewrite (read_app 2 chunk) by exact Hl. unfold set_fobj. simpl_vars.
    rewrite decide_False by (intros ->; discriminate Hl).
    rewrite decide_True by reflexivity. rewrite Hd. cbn [bind]. rewrite Hw.
    cbn [length Z.of_nat Z.leb Z.compare].
    rewrite decide_False by (intros [?|?]; contradiction).
    replace (pos + Z.of_nat 2) with (pos + 2) by lia. reflexivity.
  - intros s4 Hw Hm Hd4 Hlt. unfold general_body. cbn [fobj].
    rewrite (read_app 2 chunk) by exact Hl. unfold set_fobj. simpl_vars.
    rewrite decide_False by (intros ->; discriminate Hl).
    rewrite decide_True by reflexivity. rewrite Hd. cbn [bind].
    assert ((1 <=? Z.of_nat (length (sub_nonword s2))) = true) as ->
      by (apply Z.leb_le; destruct (sub_nonword s2); [contradiction | cbn [length]; lia]).
    rewrite (read_app 2 more) by exact Hm. simpl_vars. rewrite Hd4. cbn [bind].
    assert ((2 <=? Z.of_nat (length (sub_nonword s4))) = false) as ->
      by (apply Z.leb_gt; lia).
    replace (pos + Z.of_nat 2 + Z.of_nat 2) with (pos + 4) by lia. reflexivity.
Qed.

Lemma general_body_null_mode_skips_witness :
  general_body 0
    (Vars (File ([x5c; x00] ++ [x07]) 0) ∅ NULL_DATA_MODE NO_MODE [] (-1) false true true)
  = Ok (Continue (Vars (File [x07] (0 + 2)) ∅ NULL_DATA_MODE NO_MODE [] (-1) false true
                    true))
  ∧ general_body 0
      (Vars (File ([x43; x00] ++ [x3a; x00] ++ [x07]) 0) ∅ NULL_DATA_MODE NO_MODE []
         (-1) false true true)
    = Ok (Continue (Vars (File [x07] (0 + 4)) ∅ NULL_DATA_MODE NO_MODE [] (-1) false true
                      true)).
Proof.
  split.
  - apply (proj1 (general_body_null_mode_skips 0 [x5c; x00] [] [x07] 0 ∅ NO_MODE []
                    [92%N; 0%N] (-1) false true eq_refl eq_refl));
      [reflexivity | discriminate | discriminate].
  - apply (proj2 (general_body_null_mode_skips 0 [x43; x00] [x3a; x00] [x07] 0 ∅ NO_MODE
                    [] [67%N; 0%N] (-1) false true eq_refl eq_refl)
             [67%N; 0%N; 58%N; 0%N]);
      [discriminate | reflexivity | reflexivity | simpl; lia].
Defined.

(** ** A key and its value in the Magic section *)












(** ** A field of the Trailer section *)









(** ** A file that stops after the header *)

Lemma run_section_eof (fuel : nat) (cond : vars → bool)
    (body : vars → outcome (flow vars Empty_set)) (v v' : vars) :
  body v = Ok (Break v') → cond v = true → run_section (S fuel) cond body v = Ok v'.
Proof.
  intros Hb Hc. unfold run_section. rewrite while_unfold, Hc, Hb. reflexivity.
Qed.

(** X24.  A file that stops within 42 bytes after the header is decoded
    without an error: the three section loops find the end of the file at
    once, and the dictionary holds the identifier under GUID and nothing
    else. *)
Theorem parse_detection_history_header_only (fuel : nat) (rest : bytes) :
  (length rest ≤ 42)%nat →
  ∃ guid f,
    parse_header_and_guid (File (magic_header ++ rest) 0) = Ok (guid, f)
    ∧ parse_detection_history (S fuel) (magic_header ++ rest)
      = Ok {[ lit "GUID" := VStr guid ]}.
Proof.
  intros Hlen. eexists _, _. split; [apply parse_header_and_guid_reads|].
  unfold parse_detection_history. rewrite parse_header_and_guid_reads. cbn [bind].
  unfold read. cbn [pending tell]. rewrite drop_drop.
  rewrite (drop_ge rest) by lia.
  unfold magic_section, general_section, eof_section.
  erewrite run_section_eof; [|reflexivity|reflexivity]. cbn [bind].
  erewrite run_section_eof; [|reflexivity|reflexivity]. cbn [bind].
  erewrite run_section_eof; [|reflexivity|reflexivity]. cbn [bind].
  reflexivity.
Qed.

Lemma parse_detection_history_header_only_witness :
  ∃ guid f,
    parse_header_and_guid (File (magic_header ++ repeat x01 20) 0) = Ok (guid, f)
    ∧ parse_detection_history (S 0) (magic_header ++ repeat x01 20)
      = Ok {[ lit "GUID" := VStr guid ]}.
Proof.
  apply (parse_detection_history_header_only 0 (repeat x01 20)). simpl. lia.
Defined.

(** ** The file-name filter of [main] *)

Lemma re_match_times_hex (n : nat) (s t : pystr) :
  re_match (Times n (Class is_hex_char)) s = Some t
  ↔ ∃ a, s = a ++ t ∧ hex_group n a.
Proof.
  revert s. induction n as [|n IH]; intros s.
  - cbn. split.
    + intros [= ->]. exists []. repeat split. constructor.
    + intros (a & -> & Hl & _). destruct a; [reflexivity|discriminate Hl].
  - change (re_match (Times (S n) (Class is_hex_char)) s)
      with (match re_match (Class is_hex_char) s with
            | Some u => re_match (Times n (Class is_hex_char)) u
            | None => None
            end).
    cbn [re_match]. split.
    + destruct s as [|c u]; [discriminate|].
      destruct (is_hex_char c) eqn:Hc; [|discriminate].
      intros (a & -> & Hl & Ha)%IH. exists (c :: a). repeat split.
      * cbn. now rewrite Hl.
      * now constructor.
    + intros (a & -> & Hl & Ha). destruct a as [|c a]; [discriminate Hl|].
      apply Forall_cons_1 in Ha as [Hc Ha]. cbn [app]. rewrite Hc.
      apply IH. exists a. repeat split; [|exact Ha]. now injection Hl.
Qed.

Lemma re_match_dash_hex (n : nat) (s t : pystr) :
  re_match (Cat (Char 45) (Times n (Class is_hex_char))) s = Some t
  ↔ ∃ a, s = lit "-" ++ a ++ t ∧ hex_group n a.
Proof.
  change (re_match (Cat (Char 45) (Times n (Class is_hex_char))) s)
    with (match re_match (Char 45) s with
          | Some u => re_match (Times n (Class is_hex_char)) u
          | None => None
          end).
  cbn [re_match]. split.
  - destruct s as [|c u]; [discriminate|].
    destruct (45 =? c)%N eqn:Hc; [|discriminate].
    apply N.eqb_eq in Hc as <-.
    intros (a & -> & Ha)%re_match_times_hex. now exists a.
  - intros (a & -> & Ha). change (lit "-" ++ a ++ t) with (45%N :: a ++ t).
    cbn [N.eqb Pos.eqb]. apply re_match_times_hex. now exists a.
Qed.

Lemma re_match_name_pattern (name rest : pystr) :
  re_match NAME_PATTERN name = Some rest
  ↔ ∃ a b c d e,
      name = a ++ lit "-" ++ b ++ lit "-" ++ c ++ lit "-" ++ d ++ lit "-" ++ e ++ rest
      ∧ hex_group 8 a ∧ hex_group 4 b ∧ hex_group 4 c ∧ hex_group 4 d ∧ hex_group 12 e.
Proof.
  set (H4 := Cat (Char 45) (Times 4 (Class is_hex_char))).
  set (H12 := Cat (Char 45) (Times 12 (Class is_hex_char))).
  change (re_match NAME_PATTERN name)
    with (match re_match (Times 8 (Class is_hex_char)) name with
          | Some s1 =>
            match (match re_match H4 s1 with
                   | Some s2 =>
                     match re_match H4 s2 with
                     | Some s3 =>
                       match re_match H4 s3 with
                       | Some s4 => Some s4
                       | None => None
                       end
                     | None => None
                     end
                   | None => None
                   end) with
            | Some s4 => re_match H12 s4
            | None => None
            end
          | None => None
          end).
  split.
  - destruct (re_match _ name) as [s1|] eqn:E1; [|discriminate].
    destruct (re_match H4 s1) as [s2|] eqn:E2; [|discriminate].
    destruct (re_match H4 s2) as [s3|] eqn:E3; [|discriminate].
    destruct (re_match H4 s3) as [s4|] eqn:E4; [|discriminate].
    intros E5.
    apply re_match_times_hex in E1 as (a & -> & Ha).
    apply re_match_dash_hex in E2 as (b & -> & Hb).
    apply re_match_dash_hex in E3 as (c & -> & Hc).
    apply re_match_dash_hex in E4 as (d & -> & Hd).
    apply re_match_dash_hex in E5 as (e & -> & He).
    exists a, b, c, d, e. split; [reflexivity|tauto].
  - intros (a & b & c & d & e & -> & Ha & Hb & Hc & Hd & He).
    rewrite (proj2 (re_match_times_hex 8 _ _) (ex_intro _ a (conj eq_refl Ha))).
    rewrite (proj2 (re_match_dash_hex 4 _ _) (ex_intro _ b (conj eq_refl Hb))).
    rewrite (proj2 (re_match_dash_hex 4 _ _) (ex_intro _ c (conj eq_refl Hc))).
    rewrite (proj2 (re_match_dash_hex 4 _ _) (ex_intro _ d (conj eq_refl Hd))).
    apply re_match_dash_hex. now exists e.
Qed.

(** X25.  The directory walk of [main] selects a file exactly when its name
    has no dot and either the greedy option is set or the name starts with
    hexadecimal digits, of either case, grouped 8-4-4-4-12 with dashes;
    whatever follows the 36 characters is not looked at. *)
Theorem selected_names (greedy : bool) (name : pystr) :
  selected greedy name = true
  ↔ contains (lit ".") name = false
    ∧ (greedy = true
       ∨ ∃ a b c d e rest,
           name = a ++ lit "-" ++ b ++ lit "-" ++ c ++ lit "-" ++ d ++ lit "-" ++ e
                  ++ rest
           ∧ hex_group 8 a ∧ hex_group 4 b ∧ hex_group 4 c ∧ hex_group 4 d
           ∧ hex_group 12 e).
Proof.
  unfold selected. destruct (contains (lit ".") name); cbn [negb andb].
  - split; [discriminate|]. now intros [? _].
  - destruct greedy.
    + split; [|reflexivity]. intros _. split; [reflexivity|now left].
    + case_bool_decide as Hm.
      * split; [|reflexivity]. intros _. split; [reflexivity|]. right.
        destruct Hm as [rest Hm]. apply re_match_name_pattern in Hm.
        destruct Hm as (a & b & c & d & e & Hm). now exists a, b, c, d, e, rest.
      * split; [discriminate|]. intros [_ [?|(a & b & c & d & e & rest & Hn)]];
          [discriminate|].
        destruct Hm. exists rest. apply re_match_name_pattern.
        now exists a, b, c, d, e.
Qed.

Lemma selected_names_witness :
  selected false (lit "0A1b2c3d-0000-ffff-AAAA-0123456789abXtra") = true
  ∧ selected true (lit "a.txt") = false.
Proof.
  split.
  - apply (proj2 (selected_names false _)). split; [reflexivity|]. right.
    exists (lit "0A1b2c3d"), (lit "0000"), (lit "ffff"), (lit "AAAA"),
      (lit "0123456789ab"), (lit "Xtra").
    repeat split; repeat constructor.
  - destruct (selected true (lit "a.txt")) eqn:E; [|reflexivity].
    apply (proj1 (selected_names true _)) in E as [E _]. discriminate E.
Defined.
